(** * cmus-rpc-py: a shallow embedding of [main.py]

    The program polls [cmus-remote -Q], parses the answer into a status
    record, renders user templates from it and pushes the result to the
    Discord presence client.  This file embeds the functions of [main.py]
    that carry that logic ([title_from_path], [cmus_status], [to_h_m_s],
    [custom_format] and the body of [main]) and states their properties.

    Conventions of the embedding:
    - a Python [str] is a [string] (the UTF-8 bytes of the text; every
      pattern the program searches for is ASCII, so searching bytes and
      searching code points agree);
    - a Python [int] is a [Z];
    - a Python exception is a constructor of [exn], and a function that
      may raise returns a [result];
    - a local variable that may be read before it is assigned is an
      [option], [None] standing for "unbound";
    - the outside world (the answers of [cmus-remote], the presence
      client, the clock, the interrupt signal) is a record of oracles;
      the interrupt is delivered while the loop sleeps, where the process
      spends its time.
    Printing to standard output, and with it [silent] and [debug], is not
    modelled.  The configuration is followed from the namespace that the
    command line was parsed into ([load_config] and the head of [main]);
    the parsing itself, the text written to a new configuration file and
    [literal_eval] belong to the libraries and are taken as given. *)

From Stdlib Require Import String Ascii List ZArith Lia Bool Arith.
From Stdlib Require Import DecimalString.
Import ListNotations.

Local Open Scope string_scope.
Local Open Scope Z_scope.

(** ** Exceptions and the error monad *)

Inductive exn : Type :=
| UnboundLocalError (var : string)
| IndexError
| ValueError
| TypeError
| BrokenPipeError
| SystemExit.

Inductive result (A : Type) : Type :=
| Ok (a : A)
| Raise (e : exn).

Arguments Ok {A} a.
Arguments Raise {A} e.

Definition bind {A B : Type} (m : result A) (k : A -> result B) : result B :=
  match m with
  | Ok a => k a
  | Raise e => Raise e
  end.

Notation "'let*' x ':=' m 'in' k" := (bind m (fun x => k))
  (at level 10, x pattern, m at level 100, k at level 200).

(** Reading a local variable: unbound variables raise. *)
Definition read_var {A : Type} (name : string) (v : option A) : result A :=
  match v with
  | Some a => Ok a
  | None => Raise (UnboundLocalError name)
  end.

(** ** Python string primitives *)

Module Py.

(** [s[n:]] *)
Fixpoint drop (n : nat) (s : string) : string :=
  match n, s with
  | O, _ => s
  | S _, EmptyString => EmptyString
  | S k, String _ s' => drop k s'
  end.

(** [s[:n]] *)
Fixpoint take (n : nat) (s : string) : string :=
  match n, s with
  | O, _ => EmptyString
  | S _, EmptyString => EmptyString
  | S k, String c s' => String c (take k s')
  end.

(** [s.startswith(p)] *)
Fixpoint starts_with (p s : string) : bool :=
  match p, s with
  | EmptyString, _ => true
  | String _ _, EmptyString => false
  | String a p', String b s' => Ascii.eqb a b && starts_with p' s'
  end.

(** The scan of [str.replace] for a non-empty [old]: left to right, not
    overlapping.  [skip] counts the characters of a match still to be
    passed over. *)
Fixpoint replace_from (old new : string) (skip : nat) (s : string) : string :=
  match s with
  | EmptyString => EmptyString
  | String c s' =>
      match skip with
      | S k => replace_from old new k s'
      | O =>
          if starts_with old s
          then new ++ replace_from old new (Nat.pred (String.length old)) s'
          else String c (replace_from old new O s')
      end
  end.

Fixpoint interleave (new s : string) : string :=
  match s with
  | EmptyString => EmptyString
  | String c s' => String c (new ++ interleave new s')
  end.

(** [s.replace(old, new)]; with an empty [old] Python puts [new] before
    every character and at the end. *)
Definition replace (old new s : string) : string :=
  match old with
  | EmptyString => new ++ interleave new s
  | String _ _ => replace_from old new O s
  end.

(** The scan of [str.split] for a non-empty separator. *)
Fixpoint split_from (sep : string) (skip : nat) (s : string) : list string :=
  match s with
  | EmptyString => [EmptyString]
  | String c s' =>
      match skip with
      | S k => split_from sep k s'
      | O =>
          if starts_with sep s
          then EmptyString :: split_from sep (Nat.pred (String.length sep)) s'
          else match split_from sep O s' with
               | h :: t => String c h :: t
               | [] => [String c EmptyString]
               end
      end
  end.

(** [s.split(sep)]; an empty separator raises [ValueError]. *)
Definition split (sep s : string) : result (list string) :=
  match sep with
  | EmptyString => Raise ValueError
  | String _ _ => Ok (split_from sep O s)
  end.

(** [sep.join(l)] *)
Fixpoint join (sep : string) (l : list string) : string :=
  match l with
  | [] => EmptyString
  | [x] => x
  | x :: l' => x ++ sep ++ join sep l'
  end.

(** [s.lstrip(c)], [s.rstrip(c)], [s.strip(c)] for a one-character set. *)
Fixpoint lstrip (c : ascii) (s : string) : string :=
  match s with
  | EmptyString => EmptyString
  | String a s' => if Ascii.eqb a c then lstrip c s' else s
  end.

Fixpoint rstrip (c : ascii) (s : string) : string :=
  match s with
  | EmptyString => EmptyString
  | String a s' =>
      match rstrip c s' with
      | EmptyString => if Ascii.eqb a c then EmptyString else String a EmptyString
      | r => String a r
      end
  end.

Definition strip (c : ascii) (s : string) : string := rstrip c (lstrip c s).

(** [s.rfind(c)] for a one-character [c]: the last index, or [-1]. *)
Fixpoint rfind_from (c : ascii) (i : Z) (found : Z) (s : string) : Z :=
  match s with
  | EmptyString => found
  | String a s' => rfind_from c (i + 1) (if Ascii.eqb a c then i else found) s'
  end.

Definition rfind (c : ascii) (s : string) : Z := rfind_from c 0 (-1) s.

(** [l[i]] with Python's negative indices. *)
Definition index {A : Type} (l : list A) (i : Z) : result A :=
  let n := Z.of_nat (List.length l) in
  let j := if i <? 0 then i + n else i in
  if (j <? 0) || (n <=? j) then Raise IndexError
  else match nth_error l (Z.to_nat j) with
       | Some a => Ok a
       | None => Raise IndexError
       end.

(** [str(n)] for an [int]. *)
Definition str (n : Z) : string := NilZero.string_of_int (Z.to_int n).

(** Truth value of a [str]. *)
Definition truthy (s : string) : bool :=
  match s with
  | EmptyString => false
  | String _ _ => true
  end.

End Py.

(** [int(s)] for a [str], base ten: optional surrounding white space, an
    optional sign, then digits, single underscores allowed between digits.
    Anything else raises [ValueError].  (Digits and white space outside
    ASCII, which Python also accepts, are not modelled, nor is the limit
    of 4300 digits that Python puts on the text: [cmus-remote] prints
    plain ASCII numbers of a few digits.  A property that depends on
    which texts are refused says so, see [plain_times].) *)
Module PyInt.

Definition is_space (c : ascii) : bool :=
  let n := nat_of_ascii c in
  ((9 <=? n) && (n <=? 13) || (n =? 32))%nat.

Definition digit_val (c : ascii) : option Z :=
  let n := nat_of_ascii c in
  if ((48 <=? n) && (n <=? 57))%nat then Some (Z.of_nat n - 48) else None.

Fixpoint lstrip_space (s : string) : string :=
  match s with
  | EmptyString => EmptyString
  | String a s' => if is_space a then lstrip_space s' else s
  end.

Fixpoint rstrip_space (s : string) : string :=
  match s with
  | EmptyString => EmptyString
  | String a s' =>
      match rstrip_space s' with
      | EmptyString => if is_space a then EmptyString else String a EmptyString
      | r => String a r
      end
  end.

Fixpoint digits (acc : Z) (after_digit : bool) (s : string) : option Z :=
  match s with
  | EmptyString => if after_digit then Some acc else None
  | String c s' =>
      match digit_val c with
      | Some d => digits (10 * acc + d) true s'
      | None =>
          if Ascii.eqb c "_" && after_digit then digits acc false s' else None
      end
  end.

Definition parse (s : string) : option Z :=
  match rstrip_space (lstrip_space s) with
  | String "-" s' => option_map Z.opp (digits 0 false s')
  | String "+" s' => digits 0 false s'
  | s' => digits 0 false s'
  end.

Definition int (s : string) : result Z :=
  match parse s with
  | Some n => Ok n
  | None => Raise ValueError
  end.

End PyInt.

(** [os.path.splitext] of [posixpath]: the extension starts at the last
    dot of the last path component, unless that component has only
    leading dots before it. *)
Module OsPath.

(** The [while filenameIndex < dotIndex] loop: [true] when a character
    other than a dot is met before [dotIndex].  The loop runs at most
    [dotIndex - filenameIndex] times, which [fuel] covers. *)
Fixpoint has_name_before_dot (fuel : nat) (p : string) (filenameIndex dotIndex : Z) : bool :=
  match fuel with
  | O => false
  | S k =>
      if filenameIndex <? dotIndex
      then if negb (String.eqb (Py.take 1 (Py.drop (Z.to_nat filenameIndex) p)) ".")
           then true
           else has_name_before_dot k p (filenameIndex + 1) dotIndex
      else false
  end.

Definition splitext (p : string) : string * string :=
  let sepIndex := Py.rfind "/" p in
  let dotIndex := Py.rfind "." p in
  if (sepIndex <? dotIndex)
     && has_name_before_dot (String.length p) p (sepIndex + 1) dotIndex
  then (Py.take (Z.to_nat dotIndex) p, Py.drop (Z.to_nat dotIndex) p)
  else (p, EmptyString).

End OsPath.

(** ** [title_from_path] *)

Definition title_from_path (path : string) : result (string * string) :=
  let* song_name := Py.split "/" (Py.strip "/" (fst (OsPath.splitext path))) in
  let* last := Py.index song_name (-1) in
  let* song_name_split := Py.split " - " last in
  let* song_name_split :=
    if (Z.of_nat (List.length song_name_split) <? 2)
    then (let* last := Py.index song_name (-1) in Py.split "-" last)
    else Ok song_name_split in
  if (2 <=? Z.of_nat (List.length song_name_split))
  then
    let* artist := Py.index song_name_split 0 in
    let* title := Py.index song_name_split 1 in
    Ok (artist, title)
  else
    let* artist := Py.index song_name (-2) in
    let* title := Py.index song_name (-1) in
    Ok (artist, title).

(** ** [cmus_status] *)

Record song_info : Type := SongInfo {
  artist : string;
  album : string;
  title : string;
  genre : string;
  date : string;
  duration : string;
  position : string
}.

(** The locals of [cmus_status] while it reads the lines.  [song_path],
    [playing], [duration] and [position] have no initial value. *)
Record status_locals : Type := StatusLocals {
  sl_song_path : option string;
  sl_playing : option bool;
  sl_artist : string;
  sl_album : string;
  sl_title : string;
  sl_genre : string;
  sl_date : string;
  sl_duration : option string;
  sl_position : option string
}.

Definition status_init (no_data : string) : status_locals :=
  StatusLocals None None no_data no_data no_data no_data no_data None None.

(** One turn of [for line in status]. *)
Definition status_line (sl : status_locals) (line : string) : result status_locals :=
  let* line_split := Py.split " " line in
  let* key := Py.index line_split 0 in
  let* sl :=
    if String.eqb key "status"
    then
      let* v := Py.index line_split 1 in
      Ok (StatusLocals (sl_song_path sl) (Some (String.eqb v "playing"))
            (sl_artist sl) (sl_album sl) (sl_title sl) (sl_genre sl) (sl_date sl)
            (sl_duration sl) (sl_position sl))
    else Ok sl in
  if String.eqb key "file"
  then
    Ok (StatusLocals (Some (Py.drop 5 line)) (sl_playing sl)
          (sl_artist sl) (sl_album sl) (sl_title sl) (sl_genre sl) (sl_date sl)
          (sl_duration sl) (sl_position sl))
  else if String.eqb key "tag"
  then
    let* tag := Py.index line_split 1 in
    let value := Py.join " " (List.skipn 2 line_split) in
    if String.eqb tag "artist"
    then Ok (StatusLocals (sl_song_path sl) (sl_playing sl)
               value (sl_album sl) (sl_title sl) (sl_genre sl) (sl_date sl)
               (sl_duration sl) (sl_position sl))
    else if String.eqb tag "album"
    then Ok (StatusLocals (sl_song_path sl) (sl_playing sl)
               (sl_artist sl) value (sl_title sl) (sl_genre sl) (sl_date sl)
               (sl_duration sl) (sl_position sl))
    else if String.eqb tag "title"
    then Ok (StatusLocals (sl_song_path sl) (sl_playing sl)
               (sl_artist sl) (sl_album sl) value (sl_genre sl) (sl_date sl)
               (sl_duration sl) (sl_position sl))
    else if String.eqb tag "genre"
    then Ok (StatusLocals (sl_song_path sl) (sl_playing sl)
               (sl_artist sl) (sl_album sl) (sl_title sl) value (sl_date sl)
               (sl_duration sl) (sl_position sl))
    else if String.eqb tag "date"
    then Ok (StatusLocals (sl_song_path sl) (sl_playing sl)
               (sl_artist sl) (sl_album sl) (sl_title sl) (sl_genre sl) value
               (sl_duration sl) (sl_position sl))
    else Ok sl
  else if String.eqb key "duration"
  then
    let* v := Py.index (List.skipn 1 line_split) 0 in
    Ok (StatusLocals (sl_song_path sl) (sl_playing sl)
          (sl_artist sl) (sl_album sl) (sl_title sl) (sl_genre sl) (sl_date sl)
          (Some v) (sl_position sl))
  else if String.eqb key "position"
  then
    let* v := Py.index (List.skipn 1 line_split) 0 in
    Ok (StatusLocals (sl_song_path sl) (sl_playing sl)
          (sl_artist sl) (sl_album sl) (sl_title sl) (sl_genre sl) (sl_date sl)
          (sl_duration sl) (Some v))
  else Ok sl.

Fixpoint status_lines (sl : status_locals) (lines : list string) : result status_locals :=
  match lines with
  | [] => Ok sl
  | line :: rest => let* sl' := status_line sl line in status_lines sl' rest
  end.

(** What a probe returns: [None] is the triple [(None, None, None)]. *)
Definition probe : Type := option (string * bool * song_info).

(** The part of [cmus_status] after the loop over the lines. *)
Definition status_finish (sl : status_locals) : result probe :=
  let* (artist, title) :=
    if String.eqb (sl_artist sl) "Unknown" || String.eqb (sl_title sl) "Unknown"
    then (let* song_path := read_var "song_path" (sl_song_path sl) in
          title_from_path song_path)
    else Ok (sl_artist sl, sl_title sl) in
  let* duration := read_var "duration" (sl_duration sl) in
  let* position := read_var "position" (sl_position sl) in
  let* song_path := read_var "song_path" (sl_song_path sl) in
  let* playing := read_var "playing" (sl_playing sl) in
  Ok (Some (song_path, playing,
            SongInfo artist (sl_album sl) title (sl_genre sl) (sl_date sl)
                     duration position)).

(** [cmus_status(no_data)], given what [cmus-remote -Q] wrote to its
    standard output and standard error.  [output] is the text after
    [decode()]; a [cmus-remote] that cannot be started at all (an
    exception of [Popen]) and undecodable bytes are outside the model. *)
Definition cmus_status (no_data : string) (output error : string) : result probe :=
  if Py.truthy error then Ok None
  else
    let* status := Py.split (String "010" EmptyString) output in
    let* sl := status_lines (status_init no_data) status in
    status_finish sl.

(** ** [to_h_m_s] *)

(** [seconds], [minutes] and [hours] hold an [int] at first and a [str]
    once they were padded. *)
Inductive int_or_str : Type :=
| VInt (n : Z)
| VStr (s : string).

(** [if v:] *)
Definition val_truthy (v : int_or_str) : bool :=
  match v with
  | VInt n => negb (n =? 0)
  | VStr s => Py.truthy s
  end.

(** [f"{v}"] *)
Definition val_format (v : int_or_str) : string :=
  match v with
  | VInt n => Py.str n
  | VStr s => s
  end.

(** [if v < 10: v = "0" + str(v)] *)
Definition pad_below_ten (n : Z) : int_or_str :=
  if n <? 10 then VStr ("0" ++ Py.str n) else VInt n.

Definition to_h_m_s (seconds : Z) : string :=
  let hours := 0 in
  let (minutes, seconds) := (seconds / 60, seconds mod 60) in
  let (hours, minutes) :=
    if negb (minutes =? 0)
    then
      let (hours, minutes) := (minutes / 60, minutes mod 60) in
      if negb (hours =? 0)
      then (Z.min (hours mod 24) 999, minutes)
      else (hours, minutes)
    else (hours, minutes) in
  let seconds := pad_below_ten seconds in
  let minutes := pad_below_ten minutes in
  let hours := pad_below_ten hours in
  if val_truthy hours
  then val_format hours ++ ":" ++ val_format minutes ++ ":" ++ val_format seconds
  else val_format minutes ++ ":" ++ val_format seconds.

(** ** [custom_format] *)

Definition sentinel : string := "/%%/".

(** [song_data] is [None] when the last probe returned the [None]
    triple; subscripting it raises [TypeError]. *)
Definition custom_format (string : String.string) (song_data : option song_info) : result String.string :=
  let s := Py.replace "%%" sentinel string in
  let* sd := match song_data with Some sd => Ok sd | None => Raise TypeError end in
  let s := Py.replace "%a" (artist sd) s in
  let s := Py.replace "%l" (album sd) s in
  let s := Py.replace "%t" (title sd) s in
  let s := Py.replace "%g" (genre sd) s in
  let s := Py.replace "%y" (date sd) s in
  let* d := PyInt.int (duration sd) in
  let s := Py.replace "%u" (to_h_m_s d) s in
  let* p := PyInt.int (position sd) in
  let s := Py.replace "%p" (to_h_m_s p) s in
  Ok (Py.replace sentinel "%" s).

(** ** [main]: configuration and the world around the process *)

(** The resolved configuration, with the keys the loop reads.  ([appid],
    [silent] and [debug] only choose the client id and what is printed.) *)
Record config : Type := Config {
  cfg_interval : Z;
  cfg_timestamp : bool;
  cfg_song_time : bool;
  cfg_no_unknown : bool;
  cfg_large_image : string;
  cfg_playing_image : string;
  cfg_paused_image : string;
  cfg_details_text : string;
  cfg_state_text : string;
  cfg_button_one : string;
  cfg_button_two : string;
  cfg_button_url_one : string;
  cfg_button_url_two : string
}.

Definition defaults : config :=
  Config 15 false false false "cmus1" "playing1" "paused1" "%t" "%a" "" "" "" "".

(** What the process meets outside itself:
    - [cmus_remote k]: standard output and standard error of the [k]-th
      run of [cmus-remote -Q];
    - [connect_ok]: whether [rpc.connect()] succeeds;
    - [update_ok k]: whether the [k]-th call of [rpc.update] succeeds
      ([false]: it raises [BrokenPipeError]);
    - [time_now k]: [int(time.time())] at its [k]-th call;
    - [sigint t]: whether SIGINT arrives while tick [t] sleeps (the
      handler then raises [SystemExit] out of [time.sleep]). *)
Record world : Type := World {
  cmus_remote : nat -> string * string;
  connect_ok : bool;
  update_ok : nat -> bool;
  time_now : nat -> Z;
  sigint : nat -> bool
}.

(** The keyword arguments of one [rpc.update] call. *)
Record update : Type := Update {
  u_state : string;
  u_details : string;
  u_large_image : string;
  u_small_image : string;
  u_buttons : option (list (string * string));
  u_start : option Z
}.

(** What the presence client sees. *)
Inductive event : Type :=
| EvConnect
| EvUpdate (u : update)
| EvClose.

(** The locals of [main] that are fixed once the loop starts. *)
Record consts : Type := Consts {
  no_data : string;
  song_time : bool;
  use_timestamp : bool;
  large_image : string;
  playing_image : string;
  paused_image : string;
  state : string;
  details : string;
  button_one : string;
  button_two : string;
  button_url_one : string;
  button_url_two : string;
  available_small_images : option bool;
  update_rpc : Z;
  check_status : Z
}.

(** The locals of [main] that the loop assigns, and how many times each
    oracle of the world was consulted. *)
Record machine : Type := Machine {
  timer : Z;
  song_path : option string;
  playing : option bool;
  song_data : option song_info;
  song_path_old : option string;
  playing_old : option bool;
  play_time : option Z;
  n_probe : nat;
  n_update : nat;
  n_time : nat;
  n_tick : nat
}.

Definition delay_ticks_per_second : Z := 10.

(** [int(seconds / delay)] with [delay = 0.1]: for the integers the
    program divides (2 and the clamped interval, which is at most 5) the
    double quotient truncates to ten times the integer, as long as the
    integer is not below [- 2 ^ 49] (see [least_exact_interval]); further
    down the quotient is rounded, and it stays negative. *)
Definition ticks_of (seconds : Z) : Z := delay_ticks_per_second * seconds.

Definition rpc_interval (cfg : config) : Z := Z.min (cfg_interval cfg) 5.

Definition cmus_interval : Z := 2.

(** The assignments of [main] between [rpc.connect()] and the loop. *)
Definition prelude (cfg : config) : consts :=
  let avail :=
    if Py.truthy (cfg_playing_image cfg) && Py.truthy (cfg_paused_image cfg)
    then Some true else None in
  let (b1, b2) :=
    if negb (Py.truthy (cfg_button_one cfg))
    then (cfg_button_two cfg, EmptyString)
    else (cfg_button_one cfg, cfg_button_two cfg) in
  let (u1, u2) :=
    if negb (Py.truthy (cfg_button_url_one cfg))
    then (cfg_button_url_two cfg, EmptyString)
    else (cfg_button_url_one cfg, cfg_button_url_two cfg) in
  Consts (if cfg_no_unknown cfg then "" else "Unknown")
         (cfg_song_time cfg) (cfg_timestamp cfg)
         (cfg_large_image cfg) (cfg_playing_image cfg) (cfg_paused_image cfg)
         (cfg_state_text cfg) (cfg_details_text cfg)
         b1 b2 u1 u2 avail
         (ticks_of (rpc_interval cfg)) (ticks_of cmus_interval).

(** ** [main]: one turn of the loop *)

Definition opt_string_eqb (a b : option string) : bool :=
  match a, b with
  | Some x, Some y => String.eqb x y
  | None, None => true
  | _, _ => false
  end.

Definition opt_bool_eqb (a b : option bool) : bool :=
  match a, b with
  | Some x, Some y => Bool.eqb x y
  | None, None => true
  | _, _ => false
  end.

(** [if song_path:] and [if playing:] on values that may be [None]. *)
Definition path_truthy (p : option string) : bool :=
  match p with
  | Some s => Py.truthy s
  | None => false
  end.

Definition flag_truthy (b : option bool) : bool :=
  match b with
  | Some true => true
  | _ => false
  end.

Definition set_timer (t : Z) (m : machine) : machine :=
  Machine t (song_path m) (playing m) (song_data m) (song_path_old m)
          (playing_old m) (play_time m) (n_probe m) (n_update m) (n_time m) (n_tick m).

(** [song_path, playing, song_data = cmus_status(no_data)] *)
Definition do_probe (w : world) (c : consts) (m : machine) : result machine :=
  let (output, error) := cmus_remote w (n_probe m) in
  let* p := cmus_status (no_data c) output error in
  let k := S (n_probe m) in
  match p with
  | Some (sp, pl, sd) =>
      Ok (Machine (timer m) (Some sp) (Some pl) (Some sd) (song_path_old m)
                  (playing_old m) (play_time m) k (n_update m) (n_time m) (n_tick m))
  | None =>
      Ok (Machine (timer m) None None None (song_path_old m)
                  (playing_old m) (play_time m) k (n_update m) (n_time m) (n_tick m))
  end.

(** The two [if]s that decide whether to probe. *)
Definition poll (w : world) (c : consts) (m : machine) : result machine :=
  let* m :=
    if update_rpc c <=? timer m
    then do_probe w c (set_timer 0 m)
    else Ok m in
  if (timer m mod check_status c) =? 0
  then do_probe w c m
  else Ok m.

Definition changed (m : machine) : bool :=
  negb (opt_string_eqb (song_path m) (song_path_old m))
  || negb (opt_bool_eqb (playing m) (playing_old m)).

(** The state-change block; the [bool] tells whether it ran [break]. *)
Definition detect (m : machine) : machine * bool :=
  if changed m
  then (Machine 0 (song_path m) (playing m) (song_data m) (song_path m)
                (playing m) (play_time m) (n_probe m) (n_update m) (n_time m) (n_tick m),
        negb (path_truthy (song_path m)))
  else (m, false).

Definition make_buttons (c : consts) (sd : option song_info)
  : result (option (list (string * string))) :=
  if Py.truthy (button_one c) && Py.truthy (button_url_one c)
  then
    if negb (Py.truthy (button_two c))
    then
      let* l1 := custom_format (button_one c) sd in
      let* u1 := custom_format (button_url_one c) sd in
      Ok (Some [(l1, u1)])
    else
      let* l1 := custom_format (button_one c) sd in
      let* u1 := custom_format (button_url_one c) sd in
      let* l2 := custom_format (button_two c) sd in
      let* u2 := custom_format (button_url_two c) sd in
      Ok (Some [(l1, u1); (l2, u2)])
  else Ok None.

(** The body of [if timer == 0:] up to the arguments of [rpc.update]. *)
Definition build_update (w : world) (c : consts) (m : machine) : result (update * machine) :=
  let* buttons := make_buttons c (song_data m) in
  let* avail := read_var "available_small_images" (available_small_images c) in
  let small_image :=
    if avail
    then Some (if flag_truthy (playing m) then playing_image c else paused_image c)
    else None in
  let* m :=
    if song_time c && use_timestamp c
    then
      let now := time_now w (n_time m) in
      let* sd := match song_data m with Some sd => Ok sd | None => Raise TypeError end in
      let* pos := PyInt.int (position sd) in
      Ok (Machine (timer m) (song_path m) (playing m) (song_data m) (song_path_old m)
                  (playing_old m) (Some (now - pos)) (n_probe m) (n_update m)
                  (S (n_time m)) (n_tick m))
    else Ok m in
  let* st := custom_format (state c) (song_data m) in
  let* de := custom_format (details c) (song_data m) in
  let* small := read_var "small_image" small_image in
  Ok (Update st de (large_image c) small buttons (play_time m), m).

Inductive outcome : Type :=
| Next (m : machine)
| Break (m : machine)
| Raised (e : exn).

(** [timer += 1; time.sleep(delay)] *)
Definition finish_tick (w : world) (m : machine) : outcome :=
  let m' := Machine (timer m + 1) (song_path m) (playing m) (song_data m)
                    (song_path_old m) (playing_old m) (play_time m)
                    (n_probe m) (n_update m) (n_time m) (S (n_tick m)) in
  if sigint w (n_tick m) then Raised SystemExit else Next m'.

(** The body of [if timer == 0:]. *)
Definition push (w : world) (c : consts) (m : machine) : list event * outcome :=
  match build_update w c m with
  | Raise e => ([], Raised e)
  | Ok (u, m) =>
      let m' := Machine (timer m) (song_path m) (playing m) (song_data m)
                        (song_path_old m) (playing_old m) (play_time m)
                        (n_probe m) (S (n_update m)) (n_time m) (n_tick m) in
      if update_ok w (n_update m)
      then ([EvUpdate u], finish_tick w m')
      else ([], Break m')
  end.

(** One turn of [while run:]. *)
Definition tick (w : world) (c : consts) (m : machine) : list event * outcome :=
  match poll w c m with
  | Raise e => ([], Raised e)
  | Ok m =>
      let (m, stop) := detect m in
      if stop then ([], Break m)
      else if timer m =? 0 then push w c m
      else ([], finish_tick w m)
  end.

(** [fuel] turns of the loop. *)
Fixpoint loop (fuel : nat) (w : world) (c : consts) (m : machine) : list event * outcome :=
  match fuel with
  | O => ([], Next m)
  | S k =>
      match tick w c m with
      | (ev, Next m') => let (ev', o) := loop k w c m' in ((ev ++ ev')%list, o)
      | (ev, o) => (ev, o)
      end
  end.

(** ** [main] as a whole *)

(** How a run of [main] stands after [fuel] turns of the loop:
    [Returned] when [main] ran to its end, [Died e] when [e] left [main]
    ([SystemExit] for [sys.exit()]), [Running m] when the loop goes on. *)
Inductive status : Type :=
| Returned
| Died (e : exn)
| Running (m : machine).

Definition main (w : world) (cfg : config) (fuel : nat) : list event * status :=
  let no_data := if cfg_no_unknown cfg then "" else "Unknown" in
  let (output, error) := cmus_remote w O in
  match cmus_status no_data output error with
  | Raise e => ([], Died e)
  | Ok p =>
      let '(song_path, playing, song_data) :=
        match p with
        | Some (sp, pl, sd) => (Some sp, Some pl, Some sd)
        | None => (None, None, None)
        end in
      if negb (path_truthy song_path) then ([], Died SystemExit)
      else if negb (connect_ok w) then ([], Died SystemExit)
      else
        let c := prelude cfg in
        let play_time := if use_timestamp c then Some (time_now w O) else None in
        let m := Machine 0 song_path playing song_data song_path playing play_time
                         1%nat O (if use_timestamp c then 1%nat else O) O in
        match loop fuel w c m with
        | (ev, Break _) => ((EvConnect :: ev ++ [EvClose])%list, Returned)
        | (ev, Raised e) => (EvConnect :: ev, Died e)
        | (ev, Next m') => (EvConnect :: ev, Running m')
        end
  end.

(** Number of [rpc.update] calls in a trace. *)
Fixpoint count_updates (ev : list event) : nat :=
  match ev with
  | [] => O
  | EvUpdate _ :: ev' => S (count_updates ev')
  | _ :: ev' => count_updates ev'
  end.

Fixpoint count_closes (ev : list event) : nat :=
  match ev with
  | [] => O
  | EvClose :: ev' => S (count_closes ev')
  | _ :: ev' => count_closes ev'
  end.

(** ** Reference definitions the properties are stated against *)

(** Zero-padding to two digits, as the time format words it. *)
Definition pad2 (n : Z) : string :=
  if n <? 10 then "0" ++ Py.str n else Py.str n.

(** The decimal digit of a number below ten, and a number below one
    hundred written with two digits. *)
Definition digit (d : Z) : ascii := ascii_of_nat (48 + Z.to_nat d).

Definition two_digits (n : Z) : string :=
  String (digit (n / 10)) (String (digit (n mod 10)) EmptyString).

(** [has_char c s]: the character [c] occurs in [s]. *)
Fixpoint has_char (c : ascii) (s : string) : bool :=
  match s with
  | EmptyString => false
  | String a s' => Ascii.eqb a c || has_char c s'
  end.

(** [contains p s]: [p in s] of Python. *)
Fixpoint contains (p s : string) : bool :=
  match s with
  | EmptyString => Py.starts_with p EmptyString
  | String _ s' => Py.starts_with p s || contains p s'
  end.

(** The keys of a template. *)
Inductive key : Type :=
| KArtist | KAlbum | KTitle | KGenre | KDate | KDuration | KPosition.

Definition key_char (k : key) : ascii :=
  match k with
  | KArtist => "a"
  | KAlbum => "l"
  | KTitle => "t"
  | KGenre => "g"
  | KDate => "y"
  | KDuration => "u"
  | KPosition => "p"
  end%char.

Definition key_of_char (c : ascii) : option key :=
  if Ascii.eqb c "a" then Some KArtist
  else if Ascii.eqb c "l" then Some KAlbum
  else if Ascii.eqb c "t" then Some KTitle
  else if Ascii.eqb c "g" then Some KGenre
  else if Ascii.eqb c "y" then Some KDate
  else if Ascii.eqb c "u" then Some KDuration
  else if Ascii.eqb c "p" then Some KPosition
  else None.

(** A template read from left to right: [%%] is a literal percent sign,
    [%] followed by a key letter is a placeholder, every other character
    stands for itself. *)
Inductive token : Type :=
| TLit (c : ascii)
| TPercent
| TKey (k : key).

Fixpoint lex (s : string) : list token :=
  match s with
  | EmptyString => []
  | String a t =>
      if Ascii.eqb a "%"
      then match t with
           | EmptyString => [TLit a]
           | String c s' =>
               if Ascii.eqb c "%" then TPercent :: lex s'
               else match key_of_char c with
                    | Some k => TKey k :: lex s'
                    | None => TLit a :: lex t
                    end
           end
      else TLit a :: lex t
  end.

(** What a key stands for, once duration and position are numbers. *)
Definition key_value (sd : song_info) (d p : Z) (k : key) : string :=
  match k with
  | KArtist => artist sd
  | KAlbum => album sd
  | KTitle => title sd
  | KGenre => genre sd
  | KDate => date sd
  | KDuration => to_h_m_s d
  | KPosition => to_h_m_s p
  end.

Definition token_out (v : key -> string) (t : token) : string :=
  match t with
  | TLit c => String c EmptyString
  | TPercent => "%"
  | TKey k => v k
  end.

Fixpoint flat (l : list string) : string :=
  match l with
  | [] => EmptyString
  | x :: l' => x ++ flat l'
  end.

(** The renderer as the template language describes it: one pass, each
    token replaced by what it stands for. *)
Definition render_spec (v : key -> string) (template : string) : string :=
  flat (List.map (token_out v) (lex template)).

(** A template with no placeholder at all. *)
Definition no_placeholder (template : string) : bool :=
  negb (contains "%%" template)
  && forallb (fun k => negb (contains (String "%" (String (key_char k) EmptyString)) template))
       [KArtist; KAlbum; KTitle; KGenre; KDate; KDuration; KPosition].

(** The metadata fields of a record hold no percent sign. *)
Definition percent_free (sd : song_info) : bool :=
  negb (has_char "%" (artist sd)) && negb (has_char "%" (album sd))
  && negb (has_char "%" (title sd)) && negb (has_char "%" (genre sd))
  && negb (has_char "%" (date sd)).

(** The text of a metadata key in a record; [None] for the two time keys. *)
Definition meta_field (sd : song_info) (k : key) : option string :=
  match k with
  | KArtist => Some (artist sd)
  | KAlbum => Some (album sd)
  | KTitle => Some (title sd)
  | KGenre => Some (genre sd)
  | KDate => Some (date sd)
  | KDuration | KPosition => None
  end.

Definition key_template (k : key) : string :=
  String "%" (String (key_char k) EmptyString).

(** Duration and position of a record read as integers. *)
Definition numeric (sd : song_info) : bool :=
  match PyInt.parse (duration sd), PyInt.parse (position sd) with
  | Some _, Some _ => true
  | _, _ => false
  end.

Definition newline : string := String "010" EmptyString.

(** What [cmus-remote -Q] prints while cmus runs with no track loaded:
    a status line and settings, no [file], [duration] or [position]. *)
Definition stopped_output : string :=
  "status stopped" ++ newline ++ "set repeat false" ++ newline
  ++ "set shuffle off" ++ newline.

(** A configuration whose first button has a label and no URL, while the
    second has both. *)
Definition label_only_first : config :=
  Config 15 false false false "cmus1" "playing1" "paused1" "%t" "%a"
         "Listen" "Album" "" "https://example.org/album".

Definition sample_info : song_info :=
  SongInfo "Artist" "Album" "Title" "Genre" "2020" "200" "10".

(** The [k]-th answer of [cmus-remote], parsed. *)
Definition probe_at (w : world) (no_data : string) (k : nat) : result probe :=
  cmus_status no_data (fst (cmus_remote w k)) (snd (cmus_remote w k)).

(** Every probe finds a loaded track and a record with numeric times. *)
Definition always_loaded (w : world) (no_data : string) : Prop :=
  forall k, exists path pl sd,
    probe_at w no_data k = Ok (Some (path, pl, sd))
    /\ path <> EmptyString /\ numeric sd = true.

(** Every probe finds the same track in the same play state. *)
Definition steady (w : world) (no_data : string) (path : string) (pl : bool) : Prop :=
  forall k, exists sd,
    probe_at w no_data k = Ok (Some (path, pl, sd)) /\ numeric sd = true.

(** The presence client accepts every update and no interrupt arrives. *)
Definition calm (w : world) : Prop :=
  (forall k, update_ok w k = true) /\ (forall t, sigint w t = false).

Definition playing_output : string :=
  "status playing" ++ newline ++ "file /a/Artist - Title.mp3" ++ newline
  ++ "duration 200" ++ newline ++ "position 10" ++ newline.

Definition paused_output : string :=
  "status paused" ++ newline ++ "file /a/Artist - Title.mp3" ++ newline
  ++ "duration 200" ++ newline ++ "position 10" ++ newline.

Definition other_output : string :=
  "status playing" ++ newline ++ "file /a/Other - Song.mp3" ++ newline
  ++ "duration 180" ++ newline ++ "position 0" ++ newline.

(** A world where the same track plays for ever. *)
Definition steady_world : world :=
  World (fun _ => (playing_output, EmptyString)) true (fun _ => true)
        (fun _ => 1000) (fun _ => false).

(** The same world, with SIGINT during the sleep of the fourth tick. *)
Definition interrupted_world : world :=
  World (fun _ => (playing_output, EmptyString)) true (fun _ => true)
        (fun _ => 1000) (fun t => Nat.eqb t 3).

(** A configuration with no image for the playing state. *)
Definition no_playing_image : config :=
  Config 15 false false false "cmus1" "" "paused1" "%t" "%a" "" "" "" "".

(** The loop follows one track in one play state: the last probe and the
    remembered state agree, and the record has numeric times. *)
Definition tracking (path : string) (pl : bool) (m : machine) : Prop :=
  song_path m = Some path /\ song_path_old m = Some path
  /\ playing m = Some pl /\ playing_old m = Some pl
  /\ exists sd, song_data m = Some sd /\ numeric sd = true.

(** Two machines agree on what the change detection reads. *)
Definition same_track (m m' : machine) : Prop :=
  song_path m' = song_path m /\ playing m' = playing m
  /\ song_data m' = song_data m /\ song_path_old m' = song_path_old m
  /\ playing_old m' = playing_old m /\ timer m' = timer m
  /\ n_probe m' = n_probe m.

(** Both state images are configured. *)
Definition has_small_images (cfg : config) : Prop :=
  cfg_playing_image cfg <> EmptyString /\ cfg_paused_image cfg <> EmptyString.

Definition cfg_no_data (cfg : config) : string :=
  if cfg_no_unknown cfg then EmptyString else "Unknown".

(** ** The stages of [custom_format], token by token *)

Definition key_eqb (j k : key) : bool := Ascii.eqb (key_char j) (key_char k).

Definition key_done (done : list key) (k : key) : bool := existsb (key_eqb k) done.

(** What a token of the template has become at a stage of the chain of
    [replace] calls: [esc] is the text standing for [%%] at that stage and
    [done] lists the keys already replaced. *)
Definition stage_img (esc : string) (done : list key) (v : key -> string) (t : token) : string :=
  match t with
  | TLit c => String c EmptyString
  | TPercent => esc
  | TKey k => if key_done done k then v k else key_template k
  end.

Definition stage (esc : string) (done : list key) (v : key -> string) (l : list token) : string :=
  flat (List.map (stage_img esc done v) l).

(** What the reading of a template guarantees: a percent sign that stands
    for itself is followed by nothing, or by a character that is neither a
    percent sign nor a key letter. *)
Fixpoint wf_tokens (l : list token) : bool :=
  match l with
  | [] => true
  | TLit c :: rest =>
      (if Ascii.eqb c "%"
       then match rest with
            | [] => true
            | TLit c' :: _ =>
                negb (Ascii.eqb c' "%")
                && match key_of_char c' with None => true | Some _ => false end
            | _ => false
            end
       else true)
      && wf_tokens rest
  | _ :: rest => wf_tokens rest
  end.

Definition all_keys : list key :=
  [KPosition; KDuration; KDate; KGenre; KTitle; KAlbum; KArtist].

(** The scans of [custom_format] in a row, for given key values. *)
Definition scan_chain (v : key -> string) (s : string) : string :=
  Py.replace_from sentinel "%" 0
    (Py.replace_from (key_template KPosition) (v KPosition) 0
       (Py.replace_from (key_template KDuration) (v KDuration) 0
          (Py.replace_from (key_template KDate) (v KDate) 0
             (Py.replace_from (key_template KGenre) (v KGenre) 0
                (Py.replace_from (key_template KTitle) (v KTitle) 0
                   (Py.replace_from (key_template KAlbum) (v KAlbum) 0
                      (Py.replace_from (key_template KArtist) (v KArtist) 0
                         (Py.replace_from "%%" sentinel 0 s)))))))).

(** A record whose artist ends like the sentinel begins. *)
Definition clash_info : song_info :=
  SongInfo "/%%" "Album" "Title" "Genre" "2020" "200" "10".

(** A record whose artist holds the sentinel. *)
Definition sentinel_info : song_info :=
  SongInfo "x/%%/y" "Album" "Title" "Genre" "2020" "200" "10".

(** A record whose artist holds a key and the sentinel, while the title
    ends like the sentinel begins. *)
Definition nested_info : song_info :=
  SongInfo "%t/%%/" "Album" "/%%" "Genre" "2020" "200" "10".

(** The fallback rule in words: strip the extension and the slashes at
    both ends, take the final segment, split it on [" - "], or on ["-"] when
    that gives fewer than two tokens; two or more tokens give artist and
    title, otherwise the second-to-last and the last segment do. *)
Definition path_rule (path : string) : option (string * string) :=
  let stem := Py.strip "/" (fst (OsPath.splitext path)) in
  let segments := Py.split_from "/" 0 stem in
  let final := List.last segments EmptyString in
  let spaced := Py.split_from " - " 0 final in
  let tokens :=
    if (2 <=? List.length spaced)%nat then spaced else Py.split_from "-" 0 final in
  match tokens with
  | a :: t :: _ => Some (a, t)
  | _ =>
      match List.rev segments with
      | l :: sl :: _ => Some (sl, l)
      | _ => None
      end
  end.

(** What [cmus-remote -Q] prints for a playing file without tags. *)
Definition untagged_output : string :=
  "status playing" ++ newline ++ "file /music/Artist - Song.mp3" ++ newline
  ++ "duration 200" ++ newline ++ "position 10" ++ newline.

(** The parts of a file name are well separated: none holds a slash, the
    extension holds no dot, artist and title hold no hyphen, and the
    artist does not begin with a dot. *)
Definition separated (a t ext : string) : Prop :=
  has_char "/" a = false /\ has_char "/" t = false /\ has_char "/" ext = false
  /\ has_char "." ext = false
  /\ has_char "-" a = false /\ has_char "-" t = false
  /\ Py.starts_with "." a = false.

(** A text whose only percent signs sit inside whole sentinels: read from
    the left, it is made of sentinels and of characters other than a
    percent sign. *)
Fixpoint clean (s : string) : bool :=
  match s with
  | EmptyString => true
  | String c rest =>
      if Py.starts_with sentinel s
      then match rest with
           | String _ (String _ (String _ rest')) => clean rest'
           | _ => false
           end
      else negb (Ascii.eqb c "%") && clean rest
  end.

(** The last [replace] of [custom_format] on its own. *)
Definition unescape (s : string) : string := Py.replace sentinel "%" s.

(** The metadata of a record are clean. *)
Definition clean_info (sd : song_info) : bool :=
  clean (artist sd) && clean (album sd) && clean (title sd)
  && clean (genre sd) && clean (date sd).

(** A world where the track plays until cmus goes away: from the fourth
    run on, [cmus-remote] only writes to standard error. *)
Definition vanishing_world : world :=
  World (fun k => if (k <? 3)%nat then (playing_output, EmptyString)
                  else (EmptyString, "cmus-remote: cmus is not running"))
        true (fun _ => true) (fun _ => 1000) (fun _ => false).

(** A world where the track is paused at the third run of [cmus-remote]
    and stays paused. *)
Definition pausing_world : world :=
  World (fun k => if (k <? 3)%nat then (playing_output, EmptyString)
                  else (paused_output, EmptyString))
        true (fun _ => true) (fun _ => 1000) (fun _ => false).

(** The update pushed for [playing_output] or [paused_output] under the
    default configuration, by the state image. *)
Definition default_update (small_image : string) : update :=
  Update "Artist" "Title" "cmus1" small_image None None.

(** A world where another track plays from the second run of
    [cmus-remote] on. *)
Definition changing_world : world :=
  World (fun k => if (k <? 1)%nat then (playing_output, EmptyString)
                  else (other_output, EmptyString))
        true (fun _ => true) (fun _ => 1000) (fun _ => false).

(** The loop twenty turns after its start, following [playing_output]. *)
Definition twenty_turns_in : machine :=
  Machine 20 (Some "/a/Artist - Title.mp3") (Some true)
          (Some (SongInfo "Artist" "Unknown" "Title" "Unknown" "Unknown" "200" "10"))
          (Some "/a/Artist - Title.mp3") (Some true) None 1 1 0 20.

(** Reading a clock text back: three fields between colons, each an
    integer, weighed as hours, minutes and seconds. *)
Definition of_h_m_s (text : string) : result Z :=
  let* fields := Py.split ":" text in
  match fields with
  | [h; m; s] =>
      let* h := PyInt.int h in
      let* m := PyInt.int m in
      let* s := PyInt.int s in
      Ok (3600 * h + 60 * m + s)
  | _ => Raise ValueError
  end.

Definition seconds_per_day : Z := 86400.

(** [s.endswith(c)] for a one-character [c]. *)
Fixpoint ends_with (c : ascii) (s : string) : bool :=
  match s with
  | EmptyString => false
  | String a EmptyString => Ascii.eqb a c
  | String _ s' => ends_with c s'
  end.

(** The record with another artist. *)
Definition with_artist (a : string) (sd : song_info) : song_info :=
  SongInfo a (album sd) (title sd) (genre sd) (date sd) (duration sd) (position sd).

(** The metadata other than the artist hold no percent sign. *)
Definition percent_free_but_artist (sd : song_info) : bool :=
  percent_free (with_artist EmptyString sd).

(** The texts on which [PyInt.parse] decides as [int] of Python does:
    ASCII characters only, and no more of them than Python reads digits
    (4300). *)
Fixpoint all_ascii (s : string) : bool :=
  match s with
  | EmptyString => true
  | String c s' => (nat_of_ascii c <? 128)%nat && all_ascii s'
  end.

Definition plain_text (s : string) : bool :=
  all_ascii s && (String.length s <=? 4300)%nat.

Definition plain_times (sd : song_info) : bool :=
  plain_text (duration sd) && plain_text (position sd).

(** Every probe finds a loaded track whose duration or position, in
    plain text, is not an integer. *)
Definition always_odd_times (w : world) (no_data : string) : Prop :=
  forall k, exists path pl sd,
    probe_at w no_data k = Ok (Some (path, pl, sd))
    /\ path <> EmptyString /\ numeric sd = false /\ plain_times sd = true.

(** What [cmus-remote -Q] would print with a duration that is no integer. *)
Definition odd_duration_output : string :=
  "status playing" ++ newline ++ "file /a/Artist - Title.mp3" ++ newline
  ++ "duration 3:20" ++ newline ++ "position 10" ++ newline.

Definition odd_duration_world : world :=
  World (fun _ => (odd_duration_output, EmptyString)) true (fun _ => true)
        (fun _ => 1000) (fun _ => false).

(** A record whose artist tag reads like a template. *)
Definition template_artist_info : song_info :=
  SongInfo "%t (%y)" "Album" "Title" "Genre" "2020" "200" "10".

(** ** The report of [cmus-remote -Q], line by line *)

(** A text that fits on one line, and one that is a single word. *)
Definition one_line (s : string) : bool := negb (has_char "010" s).

Definition is_word (s : string) : bool := negb (has_char " " s) && one_line s.

(** A line made of a key, a blank and the rest. *)
Definition key_line (key rest : string) : string := key ++ " " ++ rest.

Definition tag_line (nv : string * string) : string :=
  key_line "tag" (key_line (fst nv) (snd nv)).

Definition setting_line (s : string) : string := key_line "set" s.

(** The report as cmus prints it: play state, file, duration and
    position, then the tags, then the settings, each on a line of its
    own. *)
Definition report_lines (st path d p : string) (tags : list (string * string))
           (settings : list string) : list string :=
  ([key_line "status" st; key_line "file" path;
    key_line "duration" d; key_line "position" p]
   ++ List.map tag_line tags ++ List.map setting_line settings)%list.

Definition report (st path d p : string) (tags : list (string * string))
           (settings : list string) : string :=
  flat (List.map (fun l => l ++ newline) (report_lines st path d p tags settings)).

(** The value of a tag in a list of tags: the last one given, or the
    placeholder. *)
Fixpoint tag_value (name : string) (tags : list (string * string)) (placeholder : string)
  : string :=
  match tags with
  | [] => placeholder
  | nv :: rest =>
      tag_value name rest (if String.eqb (fst nv) name then snd nv else placeholder)
  end.

Definition well_formed_tags (tags : list (string * string)) : bool :=
  forallb (fun nv => is_word (fst nv) && one_line (snd nv)) tags.

(** The locals of [cmus_status] after the tags were read. *)
Definition with_tags (tags : list (string * string)) (sl : status_locals) : status_locals :=
  StatusLocals (sl_song_path sl) (sl_playing sl)
    (tag_value "artist" tags (sl_artist sl)) (tag_value "album" tags (sl_album sl))
    (tag_value "title" tags (sl_title sl)) (tag_value "genre" tags (sl_genre sl))
    (tag_value "date" tags (sl_date sl)) (sl_duration sl) (sl_position sl).

(** The four lines that hold a key and nothing behind it. *)
Definition bare_key (line : string) : bool :=
  String.eqb line "status" || String.eqb line "tag"
  || String.eqb line "duration" || String.eqb line "position".

(** What is left of a path once the extension and the slashes at both
    ends are gone. *)
Definition path_stem (path : string) : string :=
  Py.strip "/" (fst (OsPath.splitext path)).

(** The first token of a text split on [" - "]. *)
Definition before_separator (s : string) : string :=
  List.hd EmptyString (Py.split_from " - " 0 s).

(** ** Traces and probes of the loop *)

(** The probe a machine holds: what the last run of [cmus_status]
    returned. *)
Definition probe_of (m : machine) : probe :=
  match song_path m, playing m, song_data m with
  | Some sp, Some pl, Some sd => Some (sp, pl, sd)
  | _, _, _ => None
  end.

(** How many times one turn of the loop runs [cmus-remote], by the timer
    at its start. *)
Definition probes_in_turn (c : consts) (t : Z) : nat :=
  if update_rpc c <=? t then 2 else if t mod check_status c =? 0 then 1 else 0.

(** The smallest interval for which ten times the interval is computed
    exactly by the division by [0.1]. *)
Definition least_exact_interval : Z := - 2 ^ 49.

Definition zero_interval : config :=
  Config 0 false false false "cmus1" "playing1" "paused1" "%t" "%a" "" "" "" "".

Definition stamped : config :=
  Config 15 true false false "cmus1" "playing1" "paused1" "%t" "%a" "" "" "" "".

(** The loop fifty turns after a push, with the default configuration. *)
Definition fifty_turns_in : machine :=
  Machine 50 (Some "/a/Artist - Title.mp3") (Some true)
          (Some (SongInfo "Artist" "Unknown" "Title" "Unknown" "Unknown" "200" "10"))
          (Some "/a/Artist - Title.mp3") (Some true) None 3 1 0 50.

(** The loop forty turns after its start in [pausing_world]: the next
    probe is the first to find the track paused. *)
Definition forty_turns_in : machine :=
  Machine 40 (Some "/a/Artist - Title.mp3") (Some true)
          (Some (SongInfo "Artist" "Unknown" "Title" "Unknown" "Unknown" "200" "10"))
          (Some "/a/Artist - Title.mp3") (Some true) None 3 1 0 40.

(** The update and the machine at the end of the turn that finds the
    other track of [changing_world]. *)
Definition other_update : update := Update "Other" "Song" "cmus1" "playing1" None None.

Definition other_track_found : machine :=
  Machine 1 (Some "/a/Other - Song.mp3") (Some true)
          (Some (SongInfo "Other" "Unknown" "Song" "Unknown" "Unknown" "180" "0"))
          (Some "/a/Other - Song.mp3") (Some true) None 2 2 0 21.

(** The machine after the polling of the turn that starts from
    [fifty_turns_in]. *)
Definition fifty_turns_polled : machine :=
  Machine 0 (Some "/a/Artist - Title.mp3") (Some true)
          (Some (SongInfo "Artist" "Unknown" "Title" "Unknown" "Unknown" "200" "10"))
          (Some "/a/Artist - Title.mp3") (Some true) None 5 1 0 50.

(** The remembered path and play state are those of the last probe. *)
Definition agrees (m : machine) : Prop :=
  song_path_old m = song_path m /\ playing_old m = playing m.

(** A lower bound for the runs of [cmus-remote] in [n] turns that start
    with the timer at [t]: the first falls on the next multiple of twenty
    that the timer meets, and twenty turns at most lie between two. *)
Definition least_probes (n : nat) (t : Z) : Z :=
  if t mod 20 =? 0 then (Z.of_nat n + 19) / 20
  else (Z.of_nat n + t mod 20 - 1) / 20.

(** A world whose presence client refuses the first update. *)
Definition refusing_world : world :=
  World (fun _ => (playing_output, EmptyString)) true (fun _ => false)
        (fun _ => 1000) (fun _ => false).

(** The loop of [changing_world] under the default configuration, after
    41 and after 101 turns. *)
Definition after_41_turns : machine :=
  Machine 41 (Some "/a/Other - Song.mp3") (Some true)
          (Some (SongInfo "Other" "Unknown" "Song" "Unknown" "Unknown" "180" "0"))
          (Some "/a/Other - Song.mp3") (Some true) None 4 1 0 41.

Definition after_101_turns : machine :=
  Machine 1 (Some "/a/Other - Song.mp3") (Some true)
          (Some (SongInfo "Other" "Unknown" "Song" "Unknown" "Unknown" "180" "0"))
          (Some "/a/Other - Song.mp3") (Some true) None 10 3 0 101.

(** ** Buttons, label by label *)

(** The texts of a list that are not empty, in their order. *)
Definition non_empty (l : list string) : list string := List.filter Py.truthy l.

(** Each label with the URL at its position, or with the empty text
    when the URLs have run out. *)
Fixpoint pair_up (labels urls : list string) : list (string * string) :=
  match labels with
  | [] => []
  | l :: labels' => (l, List.hd EmptyString urls) :: pair_up labels' (List.tl urls)
  end.

(** What a template renders as on a record; the empty text where the
    rendering raises. *)
Definition rendered (sd : song_info) (template : string) : string :=
  match custom_format template (Some sd) with
  | Ok s => s
  | Raise _ => EmptyString
  end.

(** The buttons a configuration sends for a record: the labels that are
    not empty with the URLs that are not empty, place by place, both
    rendered; none when there is no label or no URL. *)
Definition sent_buttons (cfg : config) (sd : song_info) : option (list (string * string)) :=
  match non_empty [cfg_button_one cfg; cfg_button_two cfg],
        non_empty [cfg_button_url_one cfg; cfg_button_url_two cfg] with
  | [], _ => None
  | _, [] => None
  | labels, urls =>
      Some (pair_up (List.map (rendered sd) labels) (List.map (rendered sd) urls))
  end.

(** Two labels and a single URL, given for the second button. *)
Definition two_labels_one_url : config :=
  Config 15 false false false "cmus1" "playing1" "paused1" "%t" "%a"
         "Listen to %t" "More by %a" "" "https://example.org/%a".

(** ** The first update of a run *)

(** The start time of the first update: none without [timestamp]; the
    time read at the start; or, with [song_time], the time read in the
    first turn less the position of the track. *)
Definition first_start (w : world) (cfg : config) (sd : song_info) : option Z :=
  if cfg_timestamp cfg
  then
    if cfg_song_time cfg
    then option_map (fun pos => time_now w 1 - pos) (PyInt.parse (position sd))
    else Some (time_now w 0)
  else None.

Definition first_update (w : world) (cfg : config) (pl : bool) (sd : song_info) : update :=
  Update (rendered sd (cfg_state_text cfg)) (rendered sd (cfg_details_text cfg))
         (cfg_large_image cfg)
         (if pl then cfg_playing_image cfg else cfg_paused_image cfg)
         (sent_buttons cfg sd) (first_start w cfg sd).

(** Every probe returns the same path, play state and record. *)
Definition constant_probe (w : world) (no_data path : string) (pl : bool) (sd : song_info)
  : Prop :=
  forall k, probe_at w no_data k = Ok (Some (path, pl, sd)).

(** A configuration with both time switches set and a button. *)
Definition song_clock : config :=
  Config 15 true true false "cmus1" "playing1" "paused1" "%t" "%a (%p)"
         "Search %a" "" "https://example.org/?q=%a" "".

(** ** The configuration: dictionaries, the file and the command line *)

(** The values a configuration dictionary holds: what [argparse] stores
    and what [literal_eval] may return.  [POther] stands for a literal of
    any other type (a float, a tuple, a list ...), by its text. *)
Inductive pyval : Type :=
| PNone
| PBool (b : bool)
| PInt (n : Z)
| PStr (s : string)
| POther (text : string).

(** The value under a key in a list of pairs. *)
Fixpoint lookup {A : Type} (k : string) (l : list (string * A)) : option A :=
  match l with
  | [] => None
  | (k', a) :: rest => if String.eqb k' k then Some a else lookup k rest
  end.

(** A [dict] with [str] keys, in the order of insertion; a key occurs
    once. *)
Definition dict : Type := list (string * pyval).

Module Dict.

Definition keys (d : dict) : list string := List.map fst d.

Definition get (d : dict) (k : string) : option pyval := lookup k d.

(** [d[k] = v]: a key that is there keeps its place, a new one goes to
    the end. *)
Fixpoint set (d : dict) (k : string) (v : pyval) : dict :=
  match d with
  | [] => [(k, v)]
  | (k', v') :: rest =>
      if String.eqb k' k then (k, v) :: rest else (k', v') :: set rest k v
  end.

(** [dict.fromkeys(d)]: the keys of [d], each with [None]. *)
Definition fromkeys (d : dict) : dict := List.map (fun kv => (fst kv, PNone)) d.

End Dict.

(** What can go wrong while the configuration is put together:
    [KeyError] from a dictionary, [ParsingError] for what [config.read]
    raises on a file it cannot parse, [FileNotFoundError] from
    [os.makedirs] of the empty path, [WriteError] for any other error of
    [os.makedirs], [open] or [config.write], and [LiteralError] for what
    [literal_eval] raises other than [ValueError]. *)
Inductive config_exn : Type :=
| KeyError (key : string)
| ParsingError
| FileNotFoundError
| WriteError
| LiteralError.

Inductive attempt (A : Type) : Type :=
| Done (a : A)
| Failed (e : config_exn).

Arguments Done {A} a.
Arguments Failed {A} e.

Definition and_then {A B : Type} (m : attempt A) (k : A -> attempt B) : attempt B :=
  match m with
  | Done a => k a
  | Failed e => Failed e
  end.

Notation "'let+' x ':=' m 'in' k" := (and_then m (fun x => k))
  (at level 10, x pattern, m at level 100, k at level 200).

(** [d[k]] *)
Definition getitem (d : dict) (k : string) : attempt pyval :=
  match Dict.get d k with
  | Some v => Done v
  | None => Failed (KeyError k)
  end.

(** The dictionary [defaults] at the head of the file. *)
Definition defaults_dict : dict :=
  [("appid", PInt 1312496743879016488); ("interval", PInt 15);
   ("silent", PBool false); ("timestamp", PBool false);
   ("song_time", PBool false); ("no_unknown", PBool false);
   ("large_image", PStr "cmus1"); ("playing_image", PStr "playing1");
   ("paused_image", PStr "paused1"); ("details_text", PStr "%t");
   ("state_text", PStr "%a"); ("button_one", PStr ""); ("button_two", PStr "");
   ("button_url_one", PStr ""); ("button_url_two", PStr "")].

(** What [ConfigParser] holds after [config.read(path)]: the sections
    read, by name ([config._sections]), and the options of the section
    [DEFAULT], which every section inherits.  Option names are in lower
    case, values are the texts behind the equals sign. *)
Record ini : Type := Ini {
  ini_sections : list (string * list (string * string));
  ini_defaults : list (string * string)
}.

(** [n] slashes: [sep * n]. *)
Fixpoint slashes (n : nat) : string :=
  match n with
  | O => EmptyString
  | S k => String "/" (slashes k)
  end.

(** [os.path.dirname] of [posixpath]: the path up to its last slash,
    without the slashes at its end unless it is made of slashes only. *)
Definition dirname (p : string) : string :=
  let i := Py.rfind "/" p + 1 in
  let head := Py.take (Z.to_nat i) p in
  if Py.truthy head && negb (String.eqb head (slashes (String.length head)))
  then Py.rstrip "/" head
  else head.

(** What [load_config] meets outside:
    - [expanduser]: [os.path.expanduser];
    - [stored p]: [None] when nothing exists at [p] (then [config.read]
      reads nothing and [os.path.exists] is false), [Some None] when
      [config.read] raises on what is there, [Some (Some i)] when it
      leaves [i] in the parser (an empty [i] for what cannot be opened);
    - [creatable p]: whether the directory of [p], when it has a name,
      and the file at [p] can be made ([os.makedirs], [open] and
      [config.write] do not raise).
    What is written to a new file is not modelled. *)
Record disk : Type := Disk {
  expanduser : string -> string;
  stored : string -> option (option ini);
  creatable : string -> bool
}.

(** What [literal_eval] does with a text: a value, [ValueError] (a text
    that parses but is no literal, as a bare word), or another exception
    ([SyntaxError] for a text that does not parse). *)
Inductive eval : Type :=
| Value (v : pyval)
| NotALiteral
| Unreadable.

Section Configuration.

(** [ast.literal_eval] *)
Variable literal_eval : string -> eval.

(** The [try] block of [load_config]. *)
Definition load_value (raw : string) : attempt pyval :=
  match literal_eval raw with
  | Value v => Done v
  | NotALiteral => Done (PStr raw)
  | Unreadable => Failed LiteralError
  end.

(** [key in list(config["main"].keys())]: the options of the section and
    those it inherits. *)
Definition has_option (i : ini) (section : list (string * string)) (key : string) : bool :=
  existsb (String.eqb key) (List.map fst section ++ List.map fst (ini_defaults i)).

(** The second [for key in default] of [load_config]. *)
Fixpoint load_keys (entries : dict) (i : ini) (config_data_raw : list (string * string))
         (config_data : dict) : attempt dict :=
  match entries with
  | [] => Done config_data
  | (key, default_value) :: rest =>
      if has_option i config_data_raw key
      then
        match lookup key config_data_raw with
        | None => Failed (KeyError key)
        | Some raw =>
            let+ v := load_value raw in
            load_keys rest i config_data_raw (Dict.set config_data key v)
        end
      else load_keys rest i config_data_raw (Dict.set config_data key default_value)
  end.

(** The branch of [load_config] for a path at which nothing exists:
    [os.makedirs] of the empty directory name raises. *)
Definition create_config (d : disk) (path : string) (default : dict) : attempt dict :=
  if negb (Py.truthy (dirname path)) then Failed FileNotFoundError
  else if creatable d path then Done default
  else Failed WriteError.

Definition load_config (d : disk) (path : string) (default : dict) : attempt dict :=
  let path := expanduser d path in
  match stored d path with
  | Some None => Failed ParsingError
  | None => create_config d path default
  | Some (Some i) =>
      match lookup "main" (ini_sections i) with
      | None => Failed (KeyError "main")
      | Some config_data_raw =>
          load_keys default i config_data_raw (Dict.fromkeys default)
      end
  end.

(** What the file gives for a key, or the default. *)
Definition loaded_value (config_data_raw : list (string * string)) (key : string)
           (default_value : pyval) : pyval :=
  match lookup key config_data_raw with
  | Some raw =>
      match literal_eval raw with
      | Value v => v
      | _ => PStr raw
      end
  | None => default_value
  end.

(** A key the file can be asked for: an option that the section [main]
    inherits is written in [main] too, and its text does not make
    [literal_eval] raise anything but [ValueError]. *)
Definition loadable_key (i : ini) (config_data_raw : list (string * string)) (key : string)
  : Prop :=
  (In key (List.map fst (ini_defaults i)) -> In key (List.map fst config_data_raw))
  /\ (forall raw, lookup key config_data_raw = Some raw -> literal_eval raw <> Unreadable).

(** The namespace [argparser()] returns, by the types its arguments are
    declared with: [appid] is a [str] when given and the [int] of
    [defaults] otherwise, [config] is [None] when not given. *)
Record arguments : Type := Arguments {
  arg_appid : pyval;
  arg_config : option string;
  arg_silent : bool;
  arg_debug : bool;
  arg_settings : config
}.

(** [vars(args)] *)
Definition vars (a : arguments) : dict :=
  let c := arg_settings a in
  [("appid", arg_appid a); ("interval", PInt (cfg_interval c));
   ("config", match arg_config a with Some p => PStr p | None => PNone end);
   ("silent", PBool (arg_silent a)); ("timestamp", PBool (cfg_timestamp c));
   ("song_time", PBool (cfg_song_time c)); ("no_unknown", PBool (cfg_no_unknown c));
   ("large_image", PStr (cfg_large_image c));
   ("playing_image", PStr (cfg_playing_image c));
   ("paused_image", PStr (cfg_paused_image c));
   ("details_text", PStr (cfg_details_text c)); ("state_text", PStr (cfg_state_text c));
   ("button_one", PStr (cfg_button_one c)); ("button_two", PStr (cfg_button_two c));
   ("button_url_one", PStr (cfg_button_url_one c));
   ("button_url_two", PStr (cfg_button_url_two c));
   ("debug", PBool (arg_debug a))].

(** [v != ""] *)
Definition differs_from_empty (v : pyval) : bool :=
  match v with
  | PStr EmptyString => false
  | _ => true
  end.

(** The [for key in defaults] of [main]. *)
Fixpoint merge (keys : list string) (args_dict config_ini config : dict) : attempt dict :=
  match keys with
  | [] => Done config
  | key :: rest =>
      let+ given := getitem args_dict key in
      if differs_from_empty given
      then merge rest args_dict config_ini (Dict.set config key given)
      else
        let+ v := getitem config_ini key in
        merge rest args_dict config_ini (Dict.set config key v)
  end.

(** The head of [main]: the dictionary [config]. *)
Definition main_config (d : disk) (a : arguments) : attempt dict :=
  let args_dict := vars a in
  match arg_config a with
  | Some config_path =>
      if Py.truthy config_path
      then
        let+ config_ini := load_config d config_path defaults_dict in
        merge (Dict.keys defaults_dict) args_dict config_ini (Dict.fromkeys defaults_dict)
      else Done args_dict
  | None => Done args_dict
  end.

End Configuration.

(** The five switches [main] reads from [config] before anything else. *)
Definition main_switches (config : dict)
  : attempt (pyval * pyval * pyval * pyval * pyval) :=
  let+ debug := getitem config "debug" in
  let+ silent := getitem config "silent" in
  let+ song_time := getitem config "song_time" in
  let+ use_timestamp := getitem config "timestamp" in
  let+ no_unknown := getitem config "no_unknown" in
  Done (debug, silent, song_time, use_timestamp, no_unknown).

(** A [literal_eval] cut down to the texts of the examples below: two
    truth values, a number, a quoted text, and a bare word, which is no
    literal.  No example asks it for another text. *)
Definition sample_literal_eval (raw : string) : eval :=
  match raw with
  | "True" => Value (PBool true)
  | "False" => Value (PBool false)
  | "3" => Value (PInt 3)
  | "'my image'" => Value (PStr "my image")
  | "cmus2" => NotALiteral
  | _ => Unreadable
  end.

(** A disk without a configuration file, where one can be made; the
    home directory is [/home/me]. *)
Definition home (p : string) : string :=
  match p with
  | String "~" rest => "/home/me" ++ rest
  | _ => p
  end.

Definition empty_disk : disk := Disk home (fun _ => None) (fun _ => true).

(** A disk whose file sets the interval, the large image and a button. *)
Definition sample_ini : ini :=
  Ini [("main", [("interval", "3"); ("large_image", "cmus2");
                 ("button_one", "'my image'"); ("volume", "3")])] [].

Definition sample_disk : disk :=
  Disk home (fun _ => Some (Some sample_ini)) (fun _ => true).

(** What [load_config] makes of that file. *)
Definition sample_loaded : dict :=
  [("appid", PInt 1312496743879016488); ("interval", PInt 3);
   ("silent", PBool false); ("timestamp", PBool false);
   ("song_time", PBool false); ("no_unknown", PBool false);
   ("large_image", PStr "cmus2"); ("playing_image", PStr "playing1");
   ("paused_image", PStr "paused1"); ("details_text", PStr "%t");
   ("state_text", PStr "%a"); ("button_one", PStr "my image");
   ("button_two", PStr ""); ("button_url_one", PStr "");
   ("button_url_two", PStr "")].

(** A disk whose file gives the interval in the section [DEFAULT]. *)
Definition inherited_ini : ini := Ini [("main", [])] [("interval", "3")].

Definition inherited_disk : disk :=
  Disk home (fun _ => Some (Some inherited_ini)) (fun _ => true).

(** The command line [-c ~/c.ini] and nothing else. *)
Definition config_only : arguments :=
  Arguments (PInt 1312496743879016488) (Some "~/c.ini") false false defaults.

(** [vanishing_world] under the default configuration after forty turns:
    the trace so far and the locals of the loop. *)
Definition forty_turns_trace : list event :=
  [EvConnect; EvUpdate (default_update "playing1")].

Definition before_player_lost : machine :=
  Machine 40 (Some "/a/Artist - Title.mp3") (Some true)
          (Some (SongInfo "Artist" "Unknown" "Title" "Unknown" "Unknown" "200" "10"))
          (Some "/a/Artist - Title.mp3") (Some true) None 3 1 0 40.

(** The machine [main] enters the loop with, in a world that always
    answers [playing_output], under the default configuration. *)
Definition at_loop_start : machine :=
  Machine 0 (Some "/a/Artist - Title.mp3") (Some true)
          (Some (SongInfo "Artist" "Unknown" "Title" "Unknown" "Unknown" "200" "10"))
          (Some "/a/Artist - Title.mp3") (Some true) None 1 0 0 0.

(** A configuration with another interval. *)
Definition with_interval (seconds : Z) (cfg : config) : config :=
  Config seconds (cfg_timestamp cfg) (cfg_song_time cfg) (cfg_no_unknown cfg)
         (cfg_large_image cfg) (cfg_playing_image cfg) (cfg_paused_image cfg)
         (cfg_details_text cfg) (cfg_state_text cfg)
         (cfg_button_one cfg) (cfg_button_two cfg)
         (cfg_button_url_one cfg) (cfg_button_url_two cfg).

(** The updates that [N] turns of a tenth of a second hold when updates
    are pushed [seconds] seconds apart, the first of them in the first
    turn: [N] over ten times [seconds], rounded up. *)
Definition expected_updates (seconds : Z) (N : nat) : Z :=
  (Z.of_nat N + 10 * seconds - 1) / (10 * seconds).

(** * Properties *)

(** ** Strings *)

(** From [has_char c (String a s) = false]: the head is not [c] and the
    tail has no [c]. *)
Tactic Notation "has_char_cons" hyp(H) "as" simple_intropattern(head) simple_intropattern(tail) :=
  cbn [has_char] in H; apply Bool.orb_false_iff in H; destruct H as [head tail].

(** From a conjunction of booleans to its parts. *)
Ltac split_andb :=
  repeat match goal with
         | H : andb _ _ = true |- _ => apply Bool.andb_true_iff in H; destruct H
         end.

(** From [negb b = true] to [b = false], for every such hypothesis. *)
Ltac negb_hyps :=
  repeat match goal with
         | Hx : negb ?b = true |- _ =>
             let E := fresh "E" in
             assert (E : b = false) by (destruct b; [discriminate Hx | reflexivity]);
             clear Hx
         end.

Lemma append_assoc (a b c : string) : (a ++ b) ++ c = a ++ (b ++ c).
Proof. induction a as [| x a IH]; cbn; [reflexivity | now rewrite IH]. Qed.

Lemma append_empty_r (a : string) : a ++ EmptyString = a.
Proof. induction a as [| x a IH]; cbn; [reflexivity | now rewrite IH]. Qed.

Lemma length_append (a b : string) :
  String.length (a ++ b) = (String.length a + String.length b)%nat.
Proof. induction a as [| x a IH]; cbn; [reflexivity | now rewrite IH]. Qed.

(** ** Time format *)

Lemma div60_div60 (n : Z) : n / 60 / 60 = n / 3600.
Proof. rewrite Z.div_div by lia. reflexivity. Qed.

Lemma val_format_pad (n : Z) : val_format (pad_below_ten n) = pad2 n.
Proof. unfold pad_below_ten, pad2. destruct (n <? 10); reflexivity. Qed.

(** A padded number is a non-empty string, and a number that was not
    padded is at least ten: either way it counts as true. *)
Lemma val_truthy_pad (n : Z) : val_truthy (pad_below_ten n) = true.
Proof.
  unfold pad_below_ten. destruct (Z.ltb_spec n 10) as [H | H]; cbn.
  - reflexivity.
  - destruct (Z.eqb_spec n 0); [lia | reflexivity].
Qed.

(** What [to_h_m_s] computes, for every integer: hours are always tested
    after they were padded, so the hours part is printed in every case. *)
Lemma to_h_m_s_always_hours (n : Z) :
  to_h_m_s n =
  pad2 ((n / 3600) mod 24) ++ ":" ++ pad2 ((n / 60) mod 60) ++ ":" ++ pad2 (n mod 60).
Proof.
  assert (H24 : 0 <= (n / 3600) mod 24 < 24) by (apply Z.mod_pos_bound; lia).
  assert (Hhm : (if negb (n / 60 =? 0)
                 then let (hours, minutes) := (n / 60 / 60, (n / 60) mod 60) in
                      if negb (hours =? 0)
                      then (Z.min (hours mod 24) 999, minutes)
                      else (hours, minutes)
                 else (0, n / 60))
                = ((n / 3600) mod 24, (n / 60) mod 60)).
  { destruct (Z.eqb_spec (n / 60) 0) as [E | E]; cbn [negb].
    - assert (E' : n / 3600 = 0) by (rewrite <- div60_div60, E; reflexivity).
      rewrite E, E'. reflexivity.
    - rewrite div60_div60.
      destruct (Z.eqb_spec (n / 3600) 0) as [E' | E']; cbn [negb].
      + rewrite E'. reflexivity.
      + rewrite Z.min_l by lia. reflexivity. }
  unfold to_h_m_s. rewrite Hhm.
  rewrite val_truthy_pad, !val_format_pad. reflexivity.
Qed.

Lemma pad2_two_digits (x : Z) : 0 <= x < 100 -> pad2 x = two_digits x.
Proof.
  intros Hx.
  assert (Hk : exists k : nat, (k < 100)%nat /\ x = Z.of_nat k).
  { exists (Z.to_nat x). split; lia. }
  destruct Hk as (k & Hk & ->). clear Hx.
  do 100 (destruct k as [| k]; [vm_compute; reflexivity |]).
  lia.
Qed.

(** C1 (amended).  For every non-negative number of seconds the output
    ends with the minutes and the seconds, each written with two decimal
    digits (zero-padded) and separated by a colon; and when the hour count
    (whole hours modulo 24) is not zero the output is exactly [HH:MM:SS],
    the hours written with two digits as well. *)
Theorem to_h_m_s_padded (n : Z) (Hn : 0 <= n) :
  let s := n mod 60 in
  let m := (n / 60) mod 60 in
  let h := (n / 3600) mod 24 in
  (exists pre, to_h_m_s n = pre ++ two_digits m ++ ":" ++ two_digits s)
  /\ (h <> 0 ->
      to_h_m_s n = two_digits h ++ ":" ++ two_digits m ++ ":" ++ two_digits s).
Proof.
  intros s m h.
  assert (Hs : 0 <= s < 60) by (apply Z.mod_pos_bound; lia).
  assert (Hm : 0 <= m < 60) by (apply Z.mod_pos_bound; lia).
  assert (Hh : 0 <= h < 24) by (apply Z.mod_pos_bound; lia).
  assert (E : to_h_m_s n = two_digits h ++ ":" ++ two_digits m ++ ":" ++ two_digits s).
  { rewrite to_h_m_s_always_hours. fold s m h.
    rewrite !pad2_two_digits by lia. reflexivity. }
  split.
  - exists (two_digits h ++ ":"). rewrite E. reflexivity.
  - intros _. exact E.
Qed.

Lemma to_h_m_s_padded_witness :
  0 <= 3661 /\ to_h_m_s 3661 = "01:01:01".
Proof.
  assert (H : 0 <= 3661) by lia.
  split; [exact H |].
  exact (proj2 (to_h_m_s_padded 3661 H) ltac:(vm_compute; discriminate)).
Defined.

(** C1, as first stated, fails: one hour is printed with a padded hour. *)
Lemma to_h_m_s_one_hour :
  to_h_m_s 3600 = "01:00:00" /\ to_h_m_s 3600 <> "1:00:00".
Proof. split; [reflexivity | discriminate]. Qed.

(** The four sample inputs of the time format. *)
Example to_h_m_s_samples :
  to_h_m_s 0 = "00:00:00" /\ to_h_m_s 65 = "00:01:05"
  /\ to_h_m_s 3600 = "01:00:00" /\ to_h_m_s 3599 = "00:59:59".
Proof. repeat split. Qed.

(** ** Rendering never fails on a record with numeric times *)

Lemma numeric_ints (sd : song_info) :
  numeric sd = true ->
  exists d p, PyInt.int (duration sd) = Ok d /\ PyInt.int (position sd) = Ok p.
Proof.
  unfold numeric, PyInt.int.
  destruct (PyInt.parse (duration sd)) as [d |]; [| discriminate].
  destruct (PyInt.parse (position sd)) as [p |]; [| discriminate].
  intros _. exists d, p. split; reflexivity.
Qed.

Lemma custom_format_total (template : string) (sd : song_info) :
  numeric sd = true -> exists s, custom_format template (Some sd) = Ok s.
Proof.
  intros H. destruct (numeric_ints sd H) as (d & p & Hd & Hp).
  unfold custom_format. cbn [bind]. rewrite Hd. cbn [bind]. rewrite Hp. cbn [bind].
  eexists. reflexivity.
Qed.

(** ** Buttons *)

Lemma truthy_false (s : string) : Py.truthy s = false <-> s = EmptyString.
Proof. destruct s; cbn; split; congruence. Qed.

Lemma truthy_true (s : string) : Py.truthy s = true <-> s <> EmptyString.
Proof. destruct s; cbn; split; congruence. Qed.

(** C7 (amended).  For every button configuration and every record with
    numeric times: building the buttons succeeds; one or two buttons are
    sent, or none; none are sent exactly when both labels are empty or both
    URLs are empty.  Label and URL are promoted separately: the first
    button sent carries the first label, or the second label when the
    first is empty, and the first URL, or the second URL when the first is
    empty, whatever the labels are.  A second button is sent exactly when
    both labels are set; it carries the second label, and the second URL
    only when the first URL is set too, an empty URL otherwise.  So when
    the first button has neither label nor URL and the second has both,
    the second is sent alone, as the first. *)
Theorem buttons_policy (cfg : config) (sd : song_info) (Hn : numeric sd = true) :
  exists r,
    make_buttons (prelude cfg) (Some sd) = Ok r
    /\ (forall bs, r = Some bs -> (1 <= List.length bs <= 2)%nat)
    /\ (r = None <->
        (cfg_button_one cfg = "" /\ cfg_button_two cfg = "")
        \/ (cfg_button_url_one cfg = "" /\ cfg_button_url_two cfg = ""))
    /\ (cfg_button_one cfg = "" -> cfg_button_url_one cfg = "" ->
        cfg_button_two cfg <> "" -> cfg_button_url_two cfg <> "" ->
        exists l u,
          custom_format (cfg_button_two cfg) (Some sd) = Ok l
          /\ custom_format (cfg_button_url_two cfg) (Some sd) = Ok u
          /\ r = Some [(l, u)])
    /\ (forall bs, r = Some bs ->
        exists l u,
          custom_format (if Py.truthy (cfg_button_one cfg)
                         then cfg_button_one cfg else cfg_button_two cfg) (Some sd) = Ok l
          /\ custom_format (if Py.truthy (cfg_button_url_one cfg)
                            then cfg_button_url_one cfg else cfg_button_url_two cfg)
                           (Some sd) = Ok u
          /\ List.nth_error bs 0 = Some (l, u))
    /\ (forall bs, r = Some bs ->
        (List.length bs = 2%nat <-> cfg_button_one cfg <> "" /\ cfg_button_two cfg <> ""))
    /\ (forall bs b, r = Some bs -> List.nth_error bs 1 = Some b ->
        exists l u,
          custom_format (cfg_button_two cfg) (Some sd) = Ok l
          /\ custom_format (if Py.truthy (cfg_button_url_one cfg)
                            then cfg_button_url_two cfg else "") (Some sd) = Ok u
          /\ b = (l, u)).
Proof.
  destruct cfg as [iv ts st nu li pi pa dt stt b1 b2 u1 u2].
  unfold make_buttons, prelude; cbn [cfg_button_one cfg_button_two
    cfg_button_url_one cfg_button_url_two].
  destruct (custom_format_total b1 sd Hn) as (fb1 & Eb1).
  destruct (custom_format_total b2 sd Hn) as (fb2 & Eb2).
  destruct (custom_format_total u1 sd Hn) as (fu1 & Eu1).
  destruct (custom_format_total u2 sd Hn) as (fu2 & Eu2).
  destruct (custom_format_total "" sd Hn) as (fe & Ee).
  destruct b1 as [| c1 b1]; destruct b2 as [| c2 b2];
    destruct u1 as [| d1 u1]; destruct u2 as [| d2 u2];
    cbn [negb Py.truthy andb button_one button_two button_url_one button_url_two];
    rewrite ?Eb1, ?Eb2, ?Eu1, ?Eu2, ?Ee; cbn [bind];
    eexists; (split; [reflexivity |]);
    (split; [intros bs E; inversion E; subst; cbn; lia |]);
    (split;
     [split;
      [intros E; first [discriminate E | auto]
      | intros [[E1 E2] | [E1 E2]]; first [discriminate E1 | discriminate E2 | reflexivity]]
     |]);
    (split;
     [intros E1 E2 E3 E4;
      first [discriminate E1 | discriminate E2 | now contradiction E3
            | now contradiction E4 | eauto]
     |]);
    (split;
     [intros bs E; first [discriminate E | inversion E; subst; cbn [List.nth_error]; eauto]
     |]);
    (split;
     [intros bs E; first [discriminate E
        | inversion E; subst; cbn [List.length]; split;
          [intros E2; first [discriminate E2 | split; discriminate]
          | intros [E1 E2]; first [reflexivity | now contradiction E1 | now contradiction E2]]]
     |]);
    intros bs b E Eb;
    first [discriminate E
          | inversion E; subst; cbn [List.nth_error] in Eb;
            first [discriminate Eb | inversion Eb; subst; eauto]].
Qed.

Lemma buttons_policy_witness :
  numeric sample_info = true
  /\ exists r,
       make_buttons (prelude label_only_first) (Some sample_info) = Ok r
       /\ (forall bs, r = Some bs -> (1 <= List.length bs <= 2)%nat)
       /\ (forall bs, r = Some bs ->
           exists l u,
             custom_format "Listen" (Some sample_info) = Ok l
             /\ custom_format "https://example.org/album" (Some sample_info) = Ok u
             /\ List.nth_error bs 0 = Some (l, u))
       /\ (forall bs b, r = Some bs -> List.nth_error bs 1 = Some b ->
           exists l u,
             custom_format "Album" (Some sample_info) = Ok l
             /\ custom_format "" (Some sample_info) = Ok u
             /\ b = (l, u)).
Proof.
  split; [reflexivity |].
  destruct (buttons_policy label_only_first sample_info eq_refl)
    as (r & H1 & H2 & _ & _ & H5 & _ & H7).
  exists r. split; [exact H1 |]. split; [exact H2 |]. split; [exact H5 | exact H7].
Defined.

(** C7, as first stated, fails: the first button has a label and no URL,
    and two buttons are sent all the same, the first with the URL of the
    second. *)
Lemma buttons_label_without_url :
  cfg_button_one label_only_first = "Listen"
  /\ cfg_button_url_one label_only_first = ""
  /\ make_buttons (prelude label_only_first) (Some sample_info)
     = Ok (Some [("Listen", "https://example.org/album"); ("Album", "")]).
Proof. repeat split. Qed.

(** ** The status probe *)

Lemma cmus_status_stderr (no_data output : string) (c : ascii) (error : string) :
  cmus_status no_data output (String c error) = Ok None.
Proof. reflexivity. Qed.

Lemma status_finish_not_absent (sl : status_locals) : status_finish sl <> Ok None.
Proof.
  unfold status_finish.
  destruct (String.eqb (sl_artist sl) "Unknown" || String.eqb (sl_title sl) "Unknown").
  - destruct (sl_song_path sl) as [sp |]; cbn [read_var bind]; [| discriminate].
    destruct (title_from_path sp) as [[a t] | e]; cbn [bind]; [| discriminate].
    destruct (sl_duration sl); cbn [read_var bind]; [| discriminate].
    destruct (sl_position sl); cbn [read_var bind]; [| discriminate].
    destruct (sl_playing sl); cbn [read_var bind]; discriminate.
  - cbn [bind].
    destruct (sl_duration sl); cbn [read_var bind]; [| discriminate].
    destruct (sl_position sl); cbn [read_var bind]; [| discriminate].
    destruct (sl_song_path sl); cbn [read_var bind]; [| discriminate].
    destruct (sl_playing sl); cbn [read_var bind]; discriminate.
Qed.

(** With nothing on standard error the probe never answers with the
    [None] triple: it returns a full record or raises. *)
Lemma cmus_status_never_absent (no_data output : string) :
  cmus_status no_data output "" <> Ok None.
Proof.
  unfold cmus_status. cbn [Py.truthy Py.split bind].
  match goal with
  | |- context [status_lines ?a ?b] => destruct (status_lines a b) as [sl | e]
  end; cbn [bind]; [| discriminate].
  apply status_finish_not_absent.
Qed.

(** C3 (the code departs from it).  When cmus runs with no track loaded,
    or prints nothing at all, and writes nothing to standard error, the
    probe does not return the [None] triple: it raises
    [UnboundLocalError].  Only output on standard error gives the [None]
    triple. *)
Theorem cmus_status_unusable_output :
  cmus_status "Unknown" stopped_output "" = Raise (UnboundLocalError "song_path")
  /\ cmus_status "" stopped_output "" = Raise (UnboundLocalError "duration")
  /\ cmus_status "Unknown" "" "" = Raise (UnboundLocalError "song_path")
  /\ cmus_status "" "" "" = Raise (UnboundLocalError "duration")
  /\ (forall no_data output, cmus_status no_data output "" <> Ok None)
  /\ (forall no_data output c error,
         cmus_status no_data output (String c error) = Ok None).
Proof.
  repeat split.
  - apply cmus_status_never_absent.
Qed.

(** ** The loop: what a turn can emit *)

Lemma finish_tick_cases (w : world) (m : machine) :
  (sigint w (n_tick m) = true /\ finish_tick w m = Raised SystemExit)
  \/ (sigint w (n_tick m) = false
      /\ exists m', finish_tick w m = Next m' /\ timer m' = timer m + 1
                    /\ song_path m' = song_path m /\ playing m' = playing m
                    /\ song_data m' = song_data m
                    /\ song_path_old m' = song_path_old m
                    /\ playing_old m' = playing_old m
                    /\ n_probe m' = n_probe m).
Proof.
  unfold finish_tick. destruct (sigint w (n_tick m)).
  - left. split; reflexivity.
  - right. split; [reflexivity |]. eexists. repeat split.
Qed.

(** A turn emits nothing or one update. *)
Lemma tick_events (w : world) (c : consts) (m : machine) :
  fst (tick w c m) = [] \/ exists u, fst (tick w c m) = [EvUpdate u].
Proof.
  unfold tick. destruct (poll w c m) as [m1 | e]; [| left; reflexivity].
  destruct (detect m1) as [m2 stop]. destruct stop; [left; reflexivity |].
  destruct (timer m2 =? 0); [| left; reflexivity].
  unfold push. destruct (build_update w c m2) as [[u m3] | e]; [| left; reflexivity].
  destruct (update_ok w (n_update m3)); [right; exists u |left]; reflexivity.
Qed.

Lemma count_closes_app (a b : list event) :
  count_closes (a ++ b) = (count_closes a + count_closes b)%nat.
Proof.
  induction a as [| x a IH]; [reflexivity |].
  destruct x; cbn; rewrite IH; reflexivity.
Qed.

Lemma count_updates_app (a b : list event) :
  count_updates (a ++ b) = (count_updates a + count_updates b)%nat.
Proof.
  induction a as [| x a IH]; [reflexivity |].
  destruct x; cbn; rewrite IH; reflexivity.
Qed.

Lemma tick_no_close (w : world) (c : consts) (m : machine) :
  count_closes (fst (tick w c m)) = O.
Proof.
  destruct (tick_events w c m) as [-> | [u ->]]; reflexivity.
Qed.

(** The loop itself never closes the connection. *)
Lemma loop_no_close (fuel : nat) (w : world) (c : consts) (m : machine) :
  count_closes (fst (loop fuel w c m)) = O.
Proof.
  revert m. induction fuel as [| k IH]; intros m; [reflexivity |].
  cbn [loop]. pose proof (tick_no_close w c m) as Ht.
  destruct (tick w c m) as [ev o]. cbn [fst] in Ht.
  destruct o as [m' | m' | e]; cbn [fst]; try exact Ht.
  specialize (IH m'). destruct (loop k w c m') as [ev' o'].
  cbn [fst] in *. rewrite count_closes_app, Ht, IH. reflexivity.
Qed.

(** ** The loop while nothing changes *)

Lemma do_probe_unfold (w : world) (c : consts) (m : machine) :
  do_probe w c m =
  let* p := probe_at w (no_data c) (n_probe m) in
  match p with
  | Some (sp, pl, sd) =>
      Ok (Machine (timer m) (Some sp) (Some pl) (Some sd) (song_path_old m)
                  (playing_old m) (play_time m) (S (n_probe m)) (n_update m)
                  (n_time m) (n_tick m))
  | None =>
      Ok (Machine (timer m) None None None (song_path_old m)
                  (playing_old m) (play_time m) (S (n_probe m)) (n_update m)
                  (n_time m) (n_tick m))
  end.
Proof.
  unfold do_probe, probe_at. destruct (cmus_remote w (n_probe m)); reflexivity.
Qed.

Lemma make_buttons_total (c : consts) (sd : song_info) :
  numeric sd = true -> exists r, make_buttons c (Some sd) = Ok r.
Proof.
  intros H. unfold make_buttons.
  destruct (custom_format_total (button_one c) sd H) as (l1 & ->).
  destruct (custom_format_total (button_url_one c) sd H) as (u1 & ->).
  destruct (custom_format_total (button_two c) sd H) as (l2 & ->).
  destruct (custom_format_total (button_url_two c) sd H) as (u2 & ->).
  cbn [bind].
  destruct (Py.truthy (button_one c) && Py.truthy (button_url_one c));
    [destruct (negb (Py.truthy (button_two c))) |]; eexists; reflexivity.
Qed.

Lemma build_update_frame (w : world) (c : consts) (m m' : machine) (u : update) :
  build_update w c m = Ok (u, m') -> same_track m m' /\ n_update m' = n_update m
                                      /\ n_tick m' = n_tick m.
Proof.
  unfold build_update.
  destruct (make_buttons c (song_data m)) as [b |]; [| discriminate]. cbn [bind].
  destruct (read_var _ (available_small_images c)) as [a |]; [| discriminate]. cbn [bind].
  destruct (song_time c && use_timestamp c).
  - destruct (song_data m) as [sd |] eqn:Esd; cbn [bind]; [| discriminate].
    destruct (PyInt.int (position sd)) as [pos |]; cbn [bind]; [| discriminate].
    cbn [song_data].
    destruct (custom_format (state c) (Some sd)); cbn [bind]; [| discriminate].
    destruct (custom_format (details c) (Some sd)); cbn [bind]; [| discriminate].
    destruct (read_var _ _); cbn [bind]; [| discriminate].
    intros [= <- <-]. unfold same_track; cbn. repeat split. symmetry; exact Esd.
  - cbn [bind].
    destruct (custom_format (state c) _); cbn [bind]; [| discriminate].
    destruct (custom_format (details c) _); cbn [bind]; [| discriminate].
    destruct (read_var _ _); cbn [bind]; [| discriminate].
    intros [= <- <-]. unfold same_track. repeat split.
Qed.

Lemma build_update_total (w : world) (c : consts) (m : machine) (sd : song_info) :
  available_small_images c = Some true ->
  song_data m = Some sd -> numeric sd = true ->
  exists u m', build_update w c m = Ok (u, m').
Proof.
  intros Ha Hsd Hn. unfold build_update. rewrite Hsd, Ha.
  destruct (make_buttons_total c sd Hn) as (b & ->). cbn [bind read_var].
  destruct (numeric_ints sd Hn) as (d & p & Hd & Hp).
  destruct (custom_format_total (state c) sd Hn) as (st & Est).
  destruct (custom_format_total (details c) sd Hn) as (de & Ede).
  destruct (song_time c && use_timestamp c); cbn [bind].
  - rewrite Hp. cbn [bind song_data]. rewrite Est, Ede. cbn [bind read_var].
    eexists _, _. reflexivity.
  - rewrite Hsd, Est, Ede. cbn [bind read_var]. eexists _, _. reflexivity.
Qed.

Section Steady.

(** A world in which every probe finds the same track in the same play
    state, every update is accepted and no interrupt arrives; both state
    images are configured. *)
Variables (w : world) (c : consts) (path : string) (pl : bool).
Hypothesis Hsteady : steady w (no_data c) path pl.
Hypothesis Hcalm : calm w.
Hypothesis Himages : available_small_images c = Some true.

Lemma do_probe_steady (m : machine) :
  song_path_old m = Some path -> playing_old m = Some pl ->
  exists m', do_probe w c m = Ok m' /\ tracking path pl m' /\ timer m' = timer m.
Proof.
  intros Hp Hpl. rewrite do_probe_unfold.
  destruct (Hsteady (n_probe m)) as (sd & -> & Hn). cbn [bind].
  eexists. split; [reflexivity |]. split; [| reflexivity].
  unfold tracking; cbn. repeat split; try assumption. exists sd. split; [reflexivity | exact Hn].
Qed.

Lemma poll_steady (m : machine) :
  tracking path pl m ->
  exists m', poll w c m = Ok m' /\ tracking path pl m'
             /\ timer m' = if update_rpc c <=? timer m then 0 else timer m.
Proof.
  intros Ht. unfold poll.
  assert (Hsecond : forall m1, tracking path pl m1 ->
            exists m', (if timer m1 mod check_status c =? 0 then do_probe w c m1 else Ok m1) = Ok m'
                       /\ tracking path pl m' /\ timer m' = timer m1).
  { intros m1 H1. destruct (timer m1 mod check_status c =? 0).
    - destruct H1 as (_ & Ho & _ & Hpo & _). apply do_probe_steady; assumption.
    - exists m1. split; [reflexivity | split; [exact H1 | reflexivity]]. }
  destruct (update_rpc c <=? timer m).
  - destruct Ht as (_ & Ho & _ & Hpo & _).
    destruct (do_probe_steady (set_timer 0 m) Ho Hpo) as (m1 & -> & H1 & T1).
    cbn [bind]. destruct (Hsecond m1 H1) as (m2 & E2 & H2 & T2).
    exists m2. split; [exact E2 | split; [exact H2 | rewrite T2, T1; reflexivity]].
  - cbn [bind]. destruct (Hsecond m Ht) as (m2 & E2 & H2 & T2).
    exists m2. split; [exact E2 | split; [exact H2 | exact T2]].
Qed.

Lemma detect_tracking (m : machine) :
  tracking path pl m -> detect m = (m, false).
Proof.
  intros (H1 & H2 & H3 & H4 & _). unfold detect, changed.
  rewrite H1, H2, H3, H4. cbn. rewrite String.eqb_refl, Bool.eqb_reflx. reflexivity.
Qed.

(** The body of [if timer == 0:] when nothing stands in its way: one
    update goes out and the turn ends with the timer at one. *)
Lemma push_succeeds (m : machine) (sd : song_info) :
  song_data m = Some sd -> numeric sd = true -> timer m = 0 ->
  exists u m', push w c m = ([EvUpdate u], Next m')
               /\ timer m' = 1
               /\ song_path m' = song_path m /\ playing m' = playing m
               /\ song_data m' = song_data m
               /\ song_path_old m' = song_path_old m
               /\ playing_old m' = playing_old m
               /\ u_small_image u
                  = (if flag_truthy (playing m) then playing_image c else paused_image c).
Proof.
  intros Hsd Hn Ht. destruct Hcalm as [Hu Hi]. unfold push.
  destruct (build_update_total w c m sd Himages Hsd Hn) as (u & m2 & E).
  pose proof (build_update_frame w c m m2 u E) as ((F1 & F2 & F3 & F4 & F5 & F6 & F7) & F8 & F9).
  assert (Hsmall : u_small_image u
                   = (if flag_truthy (playing m) then playing_image c else paused_image c)).
  { revert E. unfold build_update. rewrite Himages.
    destruct (make_buttons c (song_data m)); cbn [bind read_var]; [| discriminate].
    destruct (song_time c && use_timestamp c); cbn [bind].
    - rewrite Hsd. cbn [bind]. destruct (PyInt.int (position sd)); cbn [bind]; [| discriminate].
      cbn [song_data].
      destruct (custom_format (state c) _); cbn [bind]; [| discriminate].
      destruct (custom_format (details c) _); cbn [bind]; [| discriminate].
      intros [= <- _]. reflexivity.
    - destruct (custom_format (state c) _); cbn [bind]; [| discriminate].
      destruct (custom_format (details c) _); cbn [bind]; [| discriminate].
      intros [= <- _]. reflexivity. }
  rewrite E, Hu. unfold finish_tick. cbn [n_tick]. rewrite Hi.
  eexists _, _. split; [reflexivity |]. cbn.
  rewrite F6, Ht. repeat split; assumption.
Qed.

(** One turn while nothing changes: the turn pushes exactly when the
    timer stands at zero or has reached [update_rpc]. *)
Lemma tick_steady (m : machine) :
  tracking path pl m ->
  exists ev m',
    tick w c m = (ev, Next m') /\ tracking path pl m'
    /\ if (update_rpc c <=? timer m) || (timer m =? 0)
       then (exists u, ev = [EvUpdate u]) /\ timer m' = 1
       else ev = [] /\ timer m' = timer m + 1.
Proof.
  intros Ht. unfold tick.
  destruct (poll_steady m Ht) as (m1 & -> & H1 & T1).
  rewrite (detect_tracking m1 H1).
  assert (Hcase : (timer m1 =? 0) = ((update_rpc c <=? timer m) || (timer m =? 0))).
  { rewrite T1. destruct (update_rpc c <=? timer m); reflexivity. }
  rewrite <- Hcase.
  destruct (Z.eqb_spec (timer m1) 0) as [Z0 | Z0].
  - destruct H1 as (P1 & P2 & P3 & P4 & sd & Hsd & Hn).
    destruct (push_succeeds m1 sd Hsd Hn Z0)
      as (u & m2 & -> & T2 & Q1 & Q2 & Q3 & Q4 & Q5 & _).
    exists [EvUpdate u], m2. split; [reflexivity |]. split.
    + unfold tracking. rewrite Q1, Q2, Q3, Q4, Q5.
      repeat split; try assumption. exists sd. split; assumption.
    + split; [exists u; reflexivity | exact T2].
  - destruct Hcalm as [_ Hi].
    destruct (finish_tick_cases w m1) as [[Hx _] | (_ & m2 & -> & T2 & Q1 & Q2 & Q3 & Q4 & Q5 & _)].
    + rewrite Hi in Hx. discriminate.
    + exists [], m2. split; [reflexivity |]. split.
      * destruct H1 as (P1 & P2 & P3 & P4 & sd & Hsd & Hn).
        unfold tracking. rewrite Q1, Q2, Q3, Q4, Q5.
        repeat split; try assumption. exists sd. split; assumption.
      * split; [reflexivity |]. rewrite T2. revert Z0. rewrite T1.
        destruct (update_rpc c <=? timer m); [intros Z0; now contradiction Z0 | reflexivity].
Qed.

(** [n] turns from a timer between one and [update_rpc]: the updates are
    the turns at which the timer has reached [update_rpc]. *)
Lemma loop_steady :
  1 <= update_rpc c ->
  forall (n : nat) (m : machine),
    tracking path pl m -> 1 <= timer m <= update_rpc c ->
    exists ev m',
      loop n w c m = (ev, Next m') /\ tracking path pl m'
      /\ Z.of_nat (count_updates ev) = (Z.of_nat n + timer m - 1) / update_rpc c.
Proof.
  intros HU. induction n as [| n IH]; intros m Ht Hm.
  - exists [], m. split; [reflexivity |]. split; [exact Ht |].
    cbn. symmetry. apply Z.div_small. lia.
  - cbn [loop].
    destruct (tick_steady m Ht) as (ev & m1 & -> & H1 & Hev).
    destruct (Z.eqb_spec (timer m) 0) as [Z0 | _]; [lia |].
    rewrite Bool.orb_false_r in Hev.
    destruct (Z.leb_spec (update_rpc c) (timer m)) as [Hge | Hlt].
    + destruct Hev as ((u & ->) & T1).
      destruct (IH m1 H1 ltac:(lia)) as (ev' & m2 & -> & H2 & Hcount).
      exists ([EvUpdate u] ++ ev')%list, m2. split; [reflexivity |]. split; [exact H2 |].
      rewrite count_updates_app. cbn [count_updates].
      rewrite Nat2Z.inj_add, Hcount, T1.
      replace (Z.of_nat (S n) + timer m - 1) with (Z.of_nat n + 1 * update_rpc c) by lia.
      rewrite Z.div_add by lia.
      replace (Z.of_nat n + 1 - 1) with (Z.of_nat n) by lia.
      generalize (Z.of_nat n / update_rpc c). intros q.
      change (count_updates [EvUpdate u]) with 1%nat. lia.
    + destruct Hev as (-> & T1).
      destruct (IH m1 H1 ltac:(lia)) as (ev' & m2 & -> & H2 & Hcount).
      exists ([] ++ ev')%list, m2. split; [reflexivity |]. split; [exact H2 |].
      cbn [app]. rewrite Hcount, T1. f_equal. lia.
Qed.

End Steady.

(** ** What [main] sets up *)

Lemma prelude_no_data (cfg : config) : no_data (prelude cfg) = cfg_no_data cfg.
Proof.
  unfold prelude, cfg_no_data.
  destruct (negb (Py.truthy (cfg_button_one cfg)));
    destruct (negb (Py.truthy (cfg_button_url_one cfg))); reflexivity.
Qed.

Lemma prelude_update_rpc (cfg : config) :
  update_rpc (prelude cfg) = 10 * Z.min (cfg_interval cfg) 5.
Proof.
  unfold prelude.
  destruct (negb (Py.truthy (cfg_button_one cfg)));
    destruct (negb (Py.truthy (cfg_button_url_one cfg))); reflexivity.
Qed.

Lemma prelude_images (cfg : config) :
  available_small_images (prelude cfg)
  = if Py.truthy (cfg_playing_image cfg) && Py.truthy (cfg_paused_image cfg)
    then Some true else None.
Proof.
  unfold prelude.
  destruct (negb (Py.truthy (cfg_button_one cfg)));
    destruct (negb (Py.truthy (cfg_button_url_one cfg))); reflexivity.
Qed.

Lemma prelude_has_images (cfg : config) :
  has_small_images cfg -> available_small_images (prelude cfg) = Some true.
Proof.
  intros [H1 H2]. rewrite prelude_images.
  apply truthy_true in H1. apply truthy_true in H2. rewrite H1, H2. reflexivity.
Qed.

Lemma prelude_lacks_images (cfg : config) :
  cfg_playing_image cfg = "" \/ cfg_paused_image cfg = "" ->
  available_small_images (prelude cfg) = None.
Proof.
  intros H. rewrite prelude_images.
  destruct H as [-> | ->]; cbn; [reflexivity |].
  destruct (Py.truthy (cfg_playing_image cfg)); reflexivity.
Qed.

(** The machine the loop starts from. *)
Lemma main_unfold (w : world) (cfg : config) (fuel : nat) :
  main w cfg fuel =
  match probe_at w (cfg_no_data cfg) O with
  | Raise e => ([], Died e)
  | Ok None => ([], Died SystemExit)
  | Ok (Some (sp, pl, sd)) =>
      if negb (Py.truthy sp) then ([], Died SystemExit)
      else if negb (connect_ok w) then ([], Died SystemExit)
      else
        let c := prelude cfg in
        let m := Machine 0 (Some sp) (Some pl) (Some sd) (Some sp) (Some pl)
                   (if use_timestamp c then Some (time_now w O) else None)
                   1%nat O (if use_timestamp c then 1%nat else O) O in
        match loop fuel w c m with
        | (ev, Break _) => ((EvConnect :: ev ++ [EvClose])%list, Returned)
        | (ev, Raised e) => (EvConnect :: ev, Died e)
        | (ev, Next m') => (EvConnect :: ev, Running m')
        end
  end.
Proof.
  unfold main, probe_at, cfg_no_data. destruct (cmus_remote w 0) as [output error].
  cbn [fst snd].
  destruct (cmus_status _ output error) as [[[[sp pl] sd] |] | e]; reflexivity.
Qed.

(** [main] while the same track goes on: after [N] turns the loop is
    still running and the updates sent number [N / update_rpc], rounded
    up. *)
Lemma main_steady (w : world) (cfg : config) (path : string) (pl : bool) :
  steady w (cfg_no_data cfg) path pl -> path <> "" -> calm w ->
  connect_ok w = true -> has_small_images cfg -> 1 <= cfg_interval cfg ->
  forall N : nat,
  exists ev m,
    main w cfg N = (EvConnect :: ev, Running m)
    /\ Z.of_nat (count_updates ev)
       = (Z.of_nat N + update_rpc (prelude cfg) - 1) / update_rpc (prelude cfg).
Proof.
  intros Hs Hp Hc Hco Hi Hiv N.
  assert (HU : 1 <= update_rpc (prelude cfg)) by (rewrite prelude_update_rpc; lia).
  pose proof (prelude_has_images cfg Hi) as Ha.
  rewrite main_unfold.
  destruct (Hs O) as (sd & -> & Hn).
  apply truthy_true in Hp. rewrite Hp, Hco. cbn [negb].
  rewrite <- prelude_no_data in Hs.
  set (c := prelude cfg) in *. cbv zeta.
  set (m := Machine 0 _ _ _ _ _ _ _ _ _ _).
  assert (Ht : tracking path pl m).
  { unfold tracking, m; cbn. repeat split. exists sd. split; [reflexivity | exact Hn]. }
  destruct N as [| n].
  - exists [], m. split; [reflexivity |]. cbn. symmetry. apply Z.div_small. lia.
  - cbn [loop].
    destruct (tick_steady w c path pl Hs Hc Ha m Ht) as (ev & m1 & -> & H1 & Hev).
    replace (timer m =? 0) with true in Hev by reflexivity.
    rewrite Bool.orb_true_r in Hev. destruct Hev as ((u & ->) & T1).
    destruct (loop_steady w c path pl Hs Hc Ha HU n m1 H1 ltac:(lia))
      as (ev' & m2 & -> & H2 & Hcount).
    exists ([EvUpdate u] ++ ev')%list, m2. split; [reflexivity |].
    rewrite count_updates_app, Nat2Z.inj_add, Hcount, T1.
    replace (Z.of_nat (S n) + update_rpc c - 1) with (Z.of_nat n + 1 * update_rpc c) by lia.
    rewrite Z.div_add by lia.
    replace (Z.of_nat n + 1 - 1) with (Z.of_nat n) by lia.
    generalize (Z.of_nat n / update_rpc c). intros q.
    change (count_updates [EvUpdate u]) with 1%nat. lia.
Qed.

(** ** The loop when the track changes *)

Lemma do_probe_some (w : world) (c : consts) (m : machine)
      (sp : string) (pl : bool) (sd : song_info) :
  probe_at w (no_data c) (n_probe m) = Ok (Some (sp, pl, sd)) ->
  do_probe w c m =
  Ok (Machine (timer m) (Some sp) (Some pl) (Some sd) (song_path_old m)
              (playing_old m) (play_time m) (S (n_probe m)) (n_update m)
              (n_time m) (n_tick m)).
Proof. intros H. rewrite do_probe_unfold, H. reflexivity. Qed.

(** A turn that probes, in a world where every probe from now on finds
    the track [path'], ends its polling with that track in hand. *)
Lemma poll_new_track (w : world) (c : consts) (m : machine) (path' : string) (pl' : bool) :
  (forall k, (n_probe m <= k)%nat ->
             exists sd, probe_at w (no_data c) k = Ok (Some (path', pl', sd))
                        /\ numeric sd = true) ->
  update_rpc c <= timer m \/ timer m mod check_status c = 0 ->
  exists m1 sd,
    poll w c m = Ok m1
    /\ song_path m1 = Some path' /\ playing m1 = Some pl'
    /\ song_data m1 = Some sd /\ numeric sd = true
    /\ song_path_old m1 = song_path_old m /\ playing_old m1 = playing_old m.
Proof.
  intros Hw Hprobe. unfold poll.
  destruct (Z.leb_spec (update_rpc c) (timer m)) as [Hge | Hlt].
  - destruct (Hw (n_probe m) (Nat.le_refl _)) as (sd1 & E1 & N1).
    rewrite (do_probe_some w c (set_timer 0 m) path' pl' sd1 E1).
    unfold set_timer. cbn [bind timer song_path_old playing_old play_time n_probe
                               n_update n_time n_tick].
    rewrite Zmod_0_l. cbn [Z.eqb].
    destruct (Hw (S (n_probe m)) (Nat.le_succ_diag_r _)) as (sd2 & E2 & N2).
    erewrite do_probe_some by (cbn [n_probe]; exact E2).
    eexists _, sd2. split; [reflexivity |]. cbn. repeat split; assumption.
  - destruct Hprobe as [Hge | Hmod]; [lia |]. cbn [bind].
    rewrite Hmod. cbn [Z.eqb].
    destruct (Hw (n_probe m) (Nat.le_refl _)) as (sd1 & E1 & N1).
    rewrite (do_probe_some w c m path' pl' sd1 E1).
    eexists _, sd1. split; [reflexivity |]. cbn. repeat split; assumption.
Qed.

(** A probe that finds another track: the timer is reset and exactly one
    update goes out in that very turn. *)
Lemma tick_new_track (w : world) (c : consts) (m : machine) (path' : string) (pl' : bool) :
  calm w -> available_small_images c = Some true ->
  (forall k, (n_probe m <= k)%nat ->
             exists sd, probe_at w (no_data c) k = Ok (Some (path', pl', sd))
                        /\ numeric sd = true) ->
  update_rpc c <= timer m \/ timer m mod check_status c = 0 ->
  path' <> "" -> song_path_old m <> Some path' ->
  exists u m',
    tick w c m = ([EvUpdate u], Next m')
    /\ timer m' = 1
    /\ song_path_old m' = Some path' /\ playing_old m' = Some pl'
    /\ u_small_image u = (if pl' then playing_image c else paused_image c).
Proof.
  intros Hc Ha Hw Hprobe Hne Hold. unfold tick.
  destruct (poll_new_track w c m path' pl' Hw Hprobe)
    as (m1 & sd & -> & P1 & P2 & P3 & Hn & P4 & P5).
  assert (Hch : changed m1 = true).
  { unfold changed. rewrite P1, P4.
    destruct (song_path_old m) as [old |]; cbn; [| reflexivity].
    destruct (String.eqb_spec path' old) as [-> | _]; [now contradiction Hold | reflexivity]. }
  unfold detect. rewrite Hch, P1. cbn [path_truthy].
  apply truthy_true in Hne. rewrite Hne. cbn [negb timer Z.eqb].
  match goal with |- context [push ?w0 ?c0 ?x] => set (m2 := x) end.
  destruct (push_succeeds w c Hc Ha m2 sd P3 Hn eq_refl)
    as (u & m3 & -> & T3 & Q1 & Q2 & Q3 & Q4 & Q5 & Q6).
  exists u, m3. split; [reflexivity |]. split; [exact T3 |].
  rewrite Q4, Q5, Q6. cbn. rewrite P2. cbn. destruct pl'; repeat split; assumption.
Qed.

(** A turn pushes at most once, and only with the timer at zero after
    polling and change detection. *)
Lemma tick_pushes_at_zero (w : world) (c : consts) (m : machine) :
  (count_updates (fst (tick w c m)) <= 1)%nat
  /\ (count_updates (fst (tick w c m)) = 1%nat ->
      exists m0, poll w c m = Ok m0 /\ timer (fst (detect m0)) = 0).
Proof.
  split.
  - destruct (tick_events w c m) as [-> | [u ->]]; cbn; lia.
  - unfold tick. destruct (poll w c m) as [m0 | e]; [| discriminate].
    destruct (detect m0) as [m1 stop] eqn:Ed. destruct stop; [discriminate |].
    destruct (Z.eqb_spec (timer m1) 0) as [Z0 | Z0].
    + intros _. exists m0. split; [reflexivity | rewrite Ed; exact Z0].
    + discriminate.
Qed.

(** ** Pushes of the poll loop *)

Lemma steady_world_steady :
  steady steady_world "Unknown" "/a/Artist - Title.mp3" true.
Proof. intros k. eexists. split; vm_compute; reflexivity. Qed.

Lemma steady_world_calm : calm steady_world.
Proof. split; intros; reflexivity. Qed.

Lemma defaults_have_images : has_small_images defaults.
Proof. split; discriminate. Qed.

(** C2 (amended).  While every probe returns the same path and play state
    (a loaded track with numeric times, both state images configured, an
    interval of at least one second, every update accepted, no interrupt),
    the updates pushed in the first [N] turns number [N / update_rpc]
    rounded up, with [update_rpc] ten times the clamped interval: one at
    the first turn and one more each time the timer reaches [update_rpc],
    hence exactly one as long as [1 <= N <= update_rpc].  A turn that
    probes and finds another, non-empty path resets the timer and pushes
    exactly one update in that turn.  And any turn pushes at most one
    update, and only if the timer is zero after polling and change
    detection. *)
Theorem poll_loop_pushes :
  (forall (w : world) (cfg : config) (path : string) (pl : bool) (N : nat),
      steady w (cfg_no_data cfg) path pl -> path <> "" -> calm w ->
      connect_ok w = true -> has_small_images cfg -> 1 <= cfg_interval cfg ->
      Z.of_nat (count_updates (fst (main w cfg N)))
      = (Z.of_nat N + update_rpc (prelude cfg) - 1) / update_rpc (prelude cfg)
      /\ ((1 <= N)%nat -> Z.of_nat N <= update_rpc (prelude cfg) ->
          count_updates (fst (main w cfg N)) = 1%nat))
  /\ (forall (w : world) (c : consts) (m : machine) (path' : string) (pl' : bool),
         calm w -> available_small_images c = Some true ->
         (forall k, (n_probe m <= k)%nat ->
                    exists sd, probe_at w (no_data c) k = Ok (Some (path', pl', sd))
                               /\ numeric sd = true) ->
         update_rpc c <= timer m \/ timer m mod check_status c = 0 ->
         path' <> "" -> song_path_old m <> Some path' ->
         exists u m',
           tick w c m = ([EvUpdate u], Next m')
           /\ timer m' = 1 /\ song_path_old m' = Some path')
  /\ (forall (w : world) (c : consts) (m : machine),
         (count_updates (fst (tick w c m)) <= 1)%nat
         /\ (count_updates (fst (tick w c m)) = 1%nat ->
             exists m0, poll w c m = Ok m0 /\ timer (fst (detect m0)) = 0)).
Proof.
  split; [| split].
  - intros w cfg path pl N Hs Hp Hc Hco Hi Hiv.
    destruct (main_steady w cfg path pl Hs Hp Hc Hco Hi Hiv N) as (ev & m & E & Hcount).
    rewrite E. cbn [fst count_updates]. split; [exact Hcount |].
    intros H1 HN.
    assert (HU : 1 <= update_rpc (prelude cfg)) by (rewrite prelude_update_rpc; lia).
    assert (Hq : (Z.of_nat N + update_rpc (prelude cfg) - 1) / update_rpc (prelude cfg) = 1).
    { replace (Z.of_nat N + update_rpc (prelude cfg) - 1)
        with ((Z.of_nat N - 1) + 1 * update_rpc (prelude cfg)) by lia.
      rewrite Z.div_add by lia. rewrite Z.div_small by lia. reflexivity. }
    rewrite Hq in Hcount. lia.
  - intros w c m path' pl' Hc Ha Hw Hprobe Hne Hold.
    destruct (tick_new_track w c m path' pl' Hc Ha Hw Hprobe Hne Hold)
      as (u & m' & E & T & P & _).
    exists u, m'. repeat split; assumption.
  - exact tick_pushes_at_zero.
Qed.

Lemma changing_world_calm : calm changing_world.
Proof. split; intros; reflexivity. Qed.

Lemma changing_world_other (k : nat) :
  (1 <= k)%nat ->
  exists sd, probe_at changing_world "Unknown" k
             = Ok (Some ("/a/Other - Song.mp3", true, sd))
             /\ numeric sd = true.
Proof.
  intros Hk. unfold probe_at. cbn [changing_world cmus_remote].
  destruct (Nat.ltb_spec k 1); [lia |].
  eexists. split; vm_compute; reflexivity.
Qed.

Lemma poll_loop_pushes_witness :
  count_updates (fst (main steady_world defaults 50)) = 1%nat
  /\ Z.of_nat (count_updates (fst (main steady_world defaults 120))) = 3
  /\ exists u m',
       tick changing_world (prelude defaults) twenty_turns_in = ([EvUpdate u], Next m')
       /\ timer m' = 1 /\ song_path_old m' = Some "/a/Other - Song.mp3".
Proof.
  split; [| split].
  - refine (proj2 (proj1 poll_loop_pushes steady_world defaults
                     "/a/Artist - Title.mp3" true 50%nat
                     steady_world_steady _ steady_world_calm eq_refl
                     defaults_have_images _) _ _).
    + discriminate.
    + cbn; lia.
    + lia.
    + cbn; lia.
  - refine (proj1 (proj1 poll_loop_pushes steady_world defaults
                     "/a/Artist - Title.mp3" true 120%nat
                     steady_world_steady _ steady_world_calm eq_refl
                     defaults_have_images _)).
    + discriminate.
    + cbn; lia.
  - refine (proj1 (proj2 poll_loop_pushes) changing_world (prelude defaults)
              twenty_turns_in "/a/Other - Song.mp3" true
              changing_world_calm eq_refl _ _ _ _).
    + intros k Hk. apply changing_world_other. exact Hk.
    + right. reflexivity.
    + discriminate.
    + discriminate.
Defined.

(** C2, as first stated, fails: the same track plays through 51 turns
    and two updates are pushed, the second when the timer reaches 50. *)
Lemma steady_two_pushes :
  steady steady_world "Unknown" "/a/Artist - Title.mp3" true
  /\ count_updates (fst (main steady_world defaults 51)) = 2%nat.
Proof. split; [exact steady_world_steady | vm_compute; reflexivity]. Qed.

(** ** A missing state image *)

Lemma build_update_unbound (w : world) (c : consts) (m : machine) :
  available_small_images c = None ->
  exists e, build_update w c m = Raise e
            /\ (forall sd, song_data m = Some sd -> numeric sd = true ->
                           e = UnboundLocalError "available_small_images").
Proof.
  intros Ha. unfold build_update. rewrite Ha.
  destruct (make_buttons c (song_data m)) as [b | e] eqn:Eb; cbn [bind read_var].
  - eexists. split; [reflexivity | intros; reflexivity].
  - exists e. split; [reflexivity |]. intros sd Hsd Hn.
    rewrite Hsd in Eb. destruct (make_buttons_total c sd Hn) as (r & Er).
    rewrite Er in Eb. discriminate.
Qed.

Lemma tick_without_images (w : world) (c : consts) (m : machine) :
  available_small_images c = None -> fst (tick w c m) = [].
Proof.
  intros Ha. unfold tick. destruct (poll w c m) as [m1 | e]; [| reflexivity].
  destruct (detect m1) as [m2 stop]. destruct stop; [reflexivity |].
  destruct (timer m2 =? 0); [| reflexivity].
  unfold push. destruct (build_update_unbound w c m2 Ha) as (e & -> & _). reflexivity.
Qed.

Lemma loop_without_images (fuel : nat) (w : world) (c : consts) (m : machine) :
  available_small_images c = None -> fst (loop fuel w c m) = [].
Proof.
  intros Ha. revert m. induction fuel as [| k IH]; intros m; [reflexivity |].
  cbn [loop]. pose proof (tick_without_images w c m Ha) as Ht.
  destruct (tick w c m) as [ev o]. cbn [fst] in Ht. subst ev.
  destruct o as [m' | m' | e]; try reflexivity.
  specialize (IH m'). destruct (loop k w c m') as [ev' o']. cbn [fst] in *.
  subst ev'. reflexivity.
Qed.

Lemma poll_loaded_zero (w : world) (c : consts) (m : machine) :
  always_loaded w (no_data c) -> timer m = 0 ->
  exists m1 path sd,
    poll w c m = Ok m1 /\ timer m1 = 0
    /\ song_path m1 = Some path /\ path <> ""
    /\ song_data m1 = Some sd /\ numeric sd = true.
Proof.
  intros Hw Ht. unfold poll.
  assert (Hprobe : forall m0, timer m0 = 0 ->
            exists m1 path sd,
              do_probe w c m0 = Ok m1 /\ timer m1 = 0
              /\ song_path m1 = Some path /\ path <> ""
              /\ song_data m1 = Some sd /\ numeric sd = true).
  { intros m0 H0. destruct (Hw (n_probe m0)) as (path & pl & sd & E & Hne & Hn).
    rewrite (do_probe_some w c m0 path pl sd E).
    eexists _, path, sd. split; [reflexivity |]. cbn. repeat split; assumption. }
  destruct (update_rpc c <=? timer m).
  - destruct (Hprobe (set_timer 0 m) eq_refl) as (m1 & p1 & sd1 & -> & T1 & _).
    cbn [bind]. rewrite T1, Zmod_0_l. cbn [Z.eqb]. apply Hprobe. exact T1.
  - cbn [bind]. rewrite Ht, Zmod_0_l. cbn [Z.eqb]. apply Hprobe. exact Ht.
Qed.

(** C10.  When the playing image or the paused image is the empty string,
    no update is ever pushed; the push block, whenever it is entered with
    a record of numeric times, raises [UnboundLocalError] on
    [available_small_images]; and if the player has a track loaded and the
    presence service is reachable, the first turn of the loop enters the
    push block and [main] dies there with that error. *)
Theorem missing_image_unbound (w : world) (cfg : config)
        (Himg : cfg_playing_image cfg = "" \/ cfg_paused_image cfg = "") :
  (forall fuel, count_updates (fst (main w cfg fuel)) = O)
  /\ (forall (m : machine) (sd : song_info),
         song_data m = Some sd -> numeric sd = true ->
         push w (prelude cfg) m
         = ([], Raised (UnboundLocalError "available_small_images")))
  /\ (always_loaded w (cfg_no_data cfg) -> connect_ok w = true ->
      forall fuel,
        main w cfg (S fuel)
        = ([EvConnect], Died (UnboundLocalError "available_small_images"))).
Proof.
  pose proof (prelude_lacks_images cfg Himg) as Ha.
  split; [| split].
  2:{ intros m sd Hsd Hn. unfold push.
      destruct (build_update_unbound w (prelude cfg) m Ha) as (e & -> & He).
      rewrite (He sd Hsd Hn). reflexivity. }
  - intros fuel. rewrite main_unfold.
    destruct (probe_at w (cfg_no_data cfg) 0) as [[[[sp pl] sd] |] | e]; try reflexivity.
    destruct (negb (Py.truthy sp)); [reflexivity |].
    destruct (negb (connect_ok w)); [reflexivity |].
    cbv zeta.
    match goal with
    | |- context [loop ?n ?w0 ?c ?m] =>
        pose proof (loop_without_images n w0 c m Ha) as Hl;
        destruct (loop n w0 c m) as [ev o]
    end.
    cbn [fst] in Hl. subst ev. destruct o; reflexivity.
  - intros Hw Hco fuel. rewrite main_unfold.
    destruct (Hw O) as (path & pl & sd & -> & Hne & Hn).
    apply truthy_true in Hne. rewrite Hne, Hco. cbn [negb]. cbv zeta.
    cbn [loop]. unfold tick.
    rewrite <- prelude_no_data in Hw.
    match goal with
    | |- context [poll ?w0 ?c ?m] =>
        destruct (poll_loaded_zero w0 c m Hw eq_refl)
          as (m1 & p1 & sd1 & -> & T1 & P1 & N1 & D1 & Hn1)
    end.
    assert (Hd : exists m2, detect m1 = (m2, false) /\ timer m2 = 0
                            /\ song_data m2 = Some sd1).
    { unfold detect. destruct (changed m1).
      - rewrite P1. cbn [path_truthy]. apply truthy_true in N1. rewrite N1.
        eexists. split; [reflexivity |]. split; [reflexivity | exact D1].
      - exists m1. split; [reflexivity |]. split; assumption. }
    destruct Hd as (m2 & -> & T2 & D2). rewrite T2. cbn [Z.eqb].
    unfold push.
    destruct (build_update_unbound w (prelude cfg) m2 Ha) as (e & -> & He).
    rewrite (He sd1 D2 Hn1). reflexivity.
Qed.

Lemma steady_world_loaded : always_loaded steady_world "Unknown".
Proof.
  intros k. eexists _, _, _. split; [vm_compute; reflexivity |].
  split; [discriminate | reflexivity].
Qed.

Lemma missing_image_unbound_witness :
  main steady_world no_playing_image 5
  = ([EvConnect], Died (UnboundLocalError "available_small_images")).
Proof.
  exact (proj2 (proj2 (missing_image_unbound steady_world no_playing_image
                         (or_introl eq_refl)))
               steady_world_loaded eq_refl 4%nat).
Defined.

(** ** Releasing the connection *)

Lemma do_probe_n_tick (w : world) (c : consts) (m m' : machine) :
  do_probe w c m = Ok m' -> n_tick m' = n_tick m.
Proof.
  unfold do_probe. destruct (cmus_remote w (n_probe m)) as [output error].
  destruct (cmus_status (no_data c) output error) as [[[[sp pl] sd] |] | e];
    cbn [bind]; intros [= <-]; reflexivity.
Qed.

Lemma poll_n_tick (w : world) (c : consts) (m m' : machine) :
  poll w c m = Ok m' -> n_tick m' = n_tick m.
Proof.
  unfold poll. destruct (update_rpc c <=? timer m).
  - destruct (do_probe w c (set_timer 0 m)) as [m1 |] eqn:E1; cbn [bind]; [| discriminate].
    apply do_probe_n_tick in E1. cbn [set_timer n_tick] in E1.
    destruct (timer m1 mod check_status c =? 0).
    + intros E2. apply do_probe_n_tick in E2. congruence.
    + intros [= <-]. exact E1.
  - cbn [bind]. destruct (timer m mod check_status c =? 0).
    + apply do_probe_n_tick.
    + intros [= <-]. reflexivity.
Qed.

Lemma detect_n_tick (m : machine) : n_tick (fst (detect m)) = n_tick m.
Proof. unfold detect. destruct (changed m); reflexivity. Qed.

(** A turn during whose sleep the interrupt arrives does not lead to a
    next turn: it ends by [break] or by an exception, [SystemExit] when
    the sleep is reached. *)
Lemma tick_interrupted (w : world) (c : consts) (m m' : machine) :
  sigint w (n_tick m) = true -> snd (tick w c m) <> Next m'.
Proof.
  intros Hi. unfold tick.
  destruct (poll w c m) as [m1 | e] eqn:Ep; [| discriminate].
  apply poll_n_tick in Ep. pose proof (detect_n_tick m1) as Ed.
  destruct (detect m1) as [m2 stop]. cbn [fst] in Ed.
  destruct stop; [discriminate |].
  assert (H2 : sigint w (n_tick m2) = true) by (rewrite Ed, Ep; exact Hi).
  destruct (timer m2 =? 0).
  - unfold push. destruct (build_update w c m2) as [[u m3] | e] eqn:Eb; [| discriminate].
    apply build_update_frame in Eb. destruct Eb as (_ & _ & E3).
    destruct (update_ok w (n_update m3)); [| discriminate].
    unfold finish_tick. cbn [n_tick snd]. rewrite E3, H2. discriminate.
  - unfold finish_tick. cbn [snd]. rewrite H2. discriminate.
Qed.

(** ** [str.replace], step by step *)

Lemma has_char_append (c : ascii) (a b : string) :
  has_char c (a ++ b) = has_char c a || has_char c b.
Proof.
  induction a as [| x a IH]; cbn; [reflexivity |].
  rewrite IH. apply Bool.orb_assoc.
Qed.

Lemma starts_with_append (p s : string) : Py.starts_with p (p ++ s) = true.
Proof.
  induction p as [| x p IH]; cbn; [reflexivity |].
  rewrite Ascii.eqb_refl, IH. reflexivity.
Qed.

(** No match at the head: the scan keeps the character and moves on. *)
Lemma replace_from_keep (old new : string) (c : ascii) (s : string) :
  Py.starts_with old (String c s) = false ->
  Py.replace_from old new 0 (String c s) = String c (Py.replace_from old new 0 s).
Proof. intros H. cbn [Py.replace_from]. rewrite H. reflexivity. Qed.

(** The characters of a match are passed over. *)
Lemma replace_from_skip (old new a s : string) :
  Py.replace_from old new (String.length a) (a ++ s) = Py.replace_from old new 0 s.
Proof.
  induction a as [| x a IH]; cbn [String.length append].
  - destruct s; reflexivity.
  - cbn [Py.replace_from]. exact IH.
Qed.

(** A match at the head is replaced and the scan goes on behind it. *)
Lemma replace_from_match (c : ascii) (old new s : string) :
  Py.replace_from (String c old) new 0 (String c old ++ s)
  = new ++ Py.replace_from (String c old) new 0 s.
Proof.
  cbn [append Py.replace_from].
  pose proof (starts_with_append (String c old) s) as H. cbn [append] in H.
  rewrite H. cbn [String.length Nat.pred]. rewrite replace_from_skip. reflexivity.
Qed.

(** A text without the first character of [old] is copied. *)
Lemma replace_from_free (c : ascii) (old new v s : string) :
  has_char c v = false ->
  Py.replace_from (String c old) new 0 (v ++ s)
  = v ++ Py.replace_from (String c old) new 0 s.
Proof.
  induction v as [| x v IH]; intros H; [reflexivity |].
  has_char_cons H as Hx Hv.
  cbn [append]. rewrite replace_from_keep.
  - rewrite IH by exact Hv. reflexivity.
  - cbn [Py.starts_with]. rewrite Ascii.eqb_sym, Hx. reflexivity.
Qed.

(** A text in which [old] does not occur is returned as it is. *)
Lemma replace_absent (old new s : string) :
  contains old s = false -> Py.replace old new s = s.
Proof.
  destruct old as [| c old]; [destruct s; discriminate |].
  cbn [Py.replace]. induction s as [| x s IH]; intros H; [reflexivity |].
  cbn [contains] in H. apply Bool.orb_false_iff in H. destruct H as [H1 H2].
  rewrite replace_from_keep by exact H1. rewrite IH by exact H2. reflexivity.
Qed.

(** ** Reading a template *)

Lemma string_length_ind (P : string -> Prop) :
  (forall s, (forall s', (String.length s' < String.length s)%nat -> P s') -> P s) ->
  forall s, P s.
Proof.
  intros step s.
  assert (H : forall n s', (String.length s' < n)%nat -> P s').
  { induction n as [| n IH]; intros s' Hlt; [lia |].
    apply step. intros s'' Hlt'. apply IH. lia. }
  apply step. intros s' Hlt. exact (H _ _ Hlt).
Qed.

Lemma lex_wf (s : string) : wf_tokens (lex s) = true.
Proof.
  induction s as [s IH] using string_length_ind.
  destruct s as [| a t]; [reflexivity |].
  cbn [lex]. destruct (Ascii.eqb a "%") eqn:Ea.
  - destruct t as [| c s']; [cbn; rewrite Ea; reflexivity |].
    destruct (Ascii.eqb c "%") eqn:Ec.
    + cbn [wf_tokens]. apply IH. cbn. lia.
    + destruct (key_of_char c) as [k |] eqn:Ek.
      * cbn [wf_tokens]. apply IH. cbn. lia.
      * cbn [lex]. rewrite Ec. cbn [wf_tokens]. rewrite Ea, Ec, Ek. cbn.
        apply IH. cbn. lia.
  - cbn [wf_tokens]. rewrite Ea. cbn. apply IH. cbn. lia.
Qed.

Lemma key_of_char_char (c : ascii) (k : key) :
  key_of_char c = Some k -> key_char k = c.
Proof.
  unfold key_of_char.
  repeat match goal with
         | |- context [Ascii.eqb c ?x] => destruct (Ascii.eqb_spec c x) as [-> | _]
         end; intros [= <-]; reflexivity.
Qed.

Lemma key_of_char_none (c : ascii) (k : key) :
  key_of_char c = None -> Ascii.eqb (key_char k) c = false.
Proof.
  unfold key_of_char.
  repeat match goal with
         | |- context [Ascii.eqb c ?x] => destruct (Ascii.eqb_spec c x) as [-> | ?]
         end; try discriminate.
  intros _. apply Ascii.eqb_neq. destruct k; cbn; congruence.
Qed.

(** The tokens of a template spell the template. *)
Lemma lex_source (v : key -> string) (s : string) : stage "%%" [] v (lex s) = s.
Proof.
  unfold stage.
  induction s as [s IH] using string_length_ind.
  destruct s as [| a t]; [reflexivity |].
  cbn [lex]. destruct (Ascii.eqb_spec a "%") as [-> | Ea].
  - destruct t as [| c s']; [reflexivity |].
    destruct (Ascii.eqb_spec c "%") as [-> | Ec].
    + cbn [List.map flat stage_img append]. rewrite IH by (cbn; lia). reflexivity.
    + destruct (key_of_char c) as [k |] eqn:Ek.
      * cbn [List.map flat stage_img key_done existsb key_template append].
        rewrite (key_of_char_char c k Ek). rewrite IH by (cbn; lia). reflexivity.
      * cbn [List.map flat stage_img append]. rewrite IH by (cbn; lia). reflexivity.
  - cbn [List.map flat stage_img append]. rewrite IH by (cbn; lia). reflexivity.
Qed.

(** ** Clean texts *)

Lemma starts_with_split (p s : string) :
  Py.starts_with p s = true -> exists r, s = p ++ r.
Proof.
  revert s. induction p as [| a p IH]; intros s H.
  - exists s. reflexivity.
  - destruct s as [| b s]; [discriminate |].
    cbn [Py.starts_with] in H. apply Bool.andb_true_iff in H. destruct H as [Hab Hp].
    apply Ascii.eqb_eq in Hab. subst b.
    destruct (IH s Hp) as (r & ->). exists r. reflexivity.
Qed.

(** How a clean text begins. *)
Lemma clean_cases (s : string) :
  clean s = true ->
  s = ""
  \/ (exists rest, s = sentinel ++ rest /\ clean rest = true)
  \/ (exists c rest, s = String c rest /\ Ascii.eqb c "%" = false
                     /\ Py.starts_with sentinel s = false /\ clean rest = true).
Proof.
  destruct s as [| c rest]; intros H; [left; reflexivity |]. right.
  cbn [clean] in H. revert H.
  destruct (Py.starts_with sentinel (String c rest)) eqn:E; intros H.
  - left. destruct (starts_with_split _ _ E) as (r & Er).
    exists r. split; [exact Er |].
    unfold sentinel in Er. cbn [append] in Er. injection Er as -> ->. exact H.
  - right. exists c, rest. apply Bool.andb_true_iff in H. destruct H as [Hc Hr].
    repeat split; try assumption. destruct (Ascii.eqb c "%"); [discriminate | reflexivity].
Qed.

Lemma clean_induction (P : string -> Prop) :
  P "" ->
  (forall rest, clean rest = true -> P rest -> P (sentinel ++ rest)) ->
  (forall c rest, Ascii.eqb c "%" = false ->
                  Py.starts_with sentinel (String c rest) = false ->
                  clean rest = true -> P rest -> P (String c rest)) ->
  forall s, clean s = true -> P s.
Proof.
  intros H0 Hs Hc s. induction s as [s IH] using string_length_ind. intros Hclean.
  destruct (clean_cases s Hclean) as [-> | [(rest & -> & Hr) | (c & rest & -> & E1 & E2 & Hr)]].
  - exact H0.
  - apply Hs; [exact Hr |]. apply IH; [| exact Hr].
    rewrite length_append. cbn. lia.
  - apply Hc; try assumption. apply IH; [| exact Hr]. cbn. lia.
Qed.

(** No sentinel begins where no two percent signs follow. *)
Lemma no_sentinel_before (c : ascii) (Y : string) :
  Py.starts_with "%%" Y = false -> Py.starts_with sentinel (String c Y) = false.
Proof.
  intros H. unfold sentinel. cbn [Py.starts_with].
  destruct (Ascii.eqb "/" c); [| reflexivity]. cbn [andb].
  destruct Y as [| a Y]; [reflexivity |].
  cbn [Py.starts_with] in H |- *.
  destruct (Ascii.eqb "%" a); [| reflexivity].
  destruct Y as [| b Y]; [reflexivity |].
  cbn [andb Py.starts_with] in H |- *.
  destruct (Ascii.eqb "%" b); [discriminate | reflexivity].
Qed.

Lemma percent_free_no_double (v : string) :
  has_char "%" v = false -> Py.starts_with "%%" v = false.
Proof.
  destruct v as [| a v]; [reflexivity |]. cbn [has_char Py.starts_with].
  intros H. apply Bool.orb_false_iff in H. destruct H as [Ha _].
  rewrite Ascii.eqb_sym, Ha. reflexivity.
Qed.

Lemma percent_free_clean (v : string) : has_char "%" v = false -> clean v = true.
Proof.
  induction v as [| c v IH]; intros H; [reflexivity |].
  has_char_cons H as Hc Hv.
  cbn [clean]. rewrite (no_sentinel_before c v (percent_free_no_double v Hv)).
  rewrite Hc, (IH Hv). reflexivity.
Qed.

Create HintDb texts.

#[local] Hint Resolve no_sentinel_before percent_free_no_double percent_free_clean : texts.

(** A clean text followed by no two percent signs begins with no two
    percent signs. *)
Lemma clean_no_double_percent (v X : string) :
  clean v = true -> Py.starts_with "%%" X = false ->
  Py.starts_with "%%" (v ++ X) = false.
Proof.
  intros Hv HX.
  destruct (clean_cases v Hv) as [-> | [(rest & -> & _) | (c & rest & -> & E & _ & _)]].
  - exact HX.
  - reflexivity.
  - cbn [append Py.starts_with]. rewrite Ascii.eqb_sym, E. reflexivity.
Qed.

#[local] Hint Resolve clean_no_double_percent : texts.

(** The scan for a key copies a clean text. *)
Lemma key_scan_clean (k : key) (new v X : string) :
  clean v = true ->
  Py.replace_from (key_template k) new 0 (v ++ X)
  = v ++ Py.replace_from (key_template k) new 0 X.
Proof.
  intros Hv. revert v Hv. apply (clean_induction (fun v => _ (v ++ X) = v ++ _)).
  - reflexivity.
  - intros rest _ IH. unfold sentinel, key_template. cbn [append].
    rewrite !replace_from_keep by (destruct k; reflexivity).
    unfold key_template in IH. rewrite IH. reflexivity.
  - intros c rest Hc _ _ IH. unfold key_template. cbn [append].
    rewrite replace_from_keep.
    + unfold key_template in IH. rewrite IH. reflexivity.
    + cbn [Py.starts_with]. rewrite Ascii.eqb_sym, Hc. reflexivity.
Qed.

Lemma unescape_match (X : string) :
  Py.replace_from sentinel "%" 0 (sentinel ++ X)
  = "%" ++ Py.replace_from sentinel "%" 0 X.
Proof. exact (replace_from_match "/" "%%/" "%" X). Qed.

(** The last scan on a clean text followed by anything that begins with
    no two percent signs. *)
Lemma unescape_clean (v X : string) :
  clean v = true -> Py.starts_with "%%" X = false ->
  Py.replace_from sentinel "%" 0 (v ++ X)
  = unescape v ++ Py.replace_from sentinel "%" 0 X.
Proof.
  intros Hv HX. revert v Hv.
  apply (clean_induction (fun v => _ (v ++ X) = unescape v ++ _)).
  - reflexivity.
  - intros rest _ IH. rewrite append_assoc, unescape_match, IH.
    unfold unescape. change (Py.replace sentinel "%") with (Py.replace_from sentinel "%" 0).
    rewrite unescape_match. reflexivity.
  - intros c rest _ Hno Hrest IH. cbn [append].
    rewrite replace_from_keep by auto with texts.
    rewrite IH. unfold unescape.
    change (Py.replace sentinel "%") with (Py.replace_from sentinel "%" 0).
    rewrite (replace_from_keep sentinel "%" c rest Hno). reflexivity.
Qed.

(** Nothing changes in a text without percent signs. *)
Lemma unescape_percent_free (v : string) : has_char "%" v = false -> unescape v = v.
Proof.
  intros H. unfold unescape. apply replace_absent.
  induction v as [| c v IH]; [reflexivity |].
  has_char_cons H as _ Hv.
  cbn [contains]. rewrite (IH Hv), Bool.orb_false_r.
  auto with texts.
Qed.

(** ** The chain of [replace] calls, stage by stage *)

Section Stages.

(** The values of the keys. *)
Variable v : key -> string.

Lemma stage_cons (esc : string) (done : list key) (t : token) (l : list token) :
  stage esc done v (t :: l) = stage_img esc done v t ++ stage esc done v l.
Proof. reflexivity. Qed.

Lemma wf_tokens_tail (t : token) (l : list token) :
  wf_tokens (t :: l) = true -> wf_tokens l = true.
Proof.
  destruct t; cbn [wf_tokens]; intros H; try exact H.
  apply Bool.andb_true_iff in H. exact (proj2 H).
Qed.

(** What follows a percent sign that stands for itself. *)
Lemma after_literal_percent (esc : string) (done : list key)
      (l : list token) :
  wf_tokens (TLit "%" :: l) = true ->
  stage esc done v l = ""
  \/ exists c' X, stage esc done v l = String c' X
                  /\ Ascii.eqb "%" c' = false
                  /\ forall k, Ascii.eqb (key_char k) c' = false.
Proof.
  destruct l as [| [c' | | k'] l']; intros H; cbn [wf_tokens] in H;
    rewrite Ascii.eqb_refl in H.
  - left. reflexivity.
  - right. exists c', (stage esc done v l'). split; [reflexivity |].
    apply Bool.andb_true_iff in H. destruct H as [H _].
    apply Bool.andb_true_iff in H. destruct H as [H1 H2].
    split.
    + rewrite Ascii.eqb_sym. destruct (Ascii.eqb c' "%"); [discriminate | reflexivity].
    + intros k. apply key_of_char_none. destruct (key_of_char c'); [discriminate | reflexivity].
  - discriminate.
  - discriminate.
Qed.

(** A two-character pattern headed by a percent sign leaves a literal
    character in place. *)
Lemma keep_literal (k : ascii) (new : string) (c : ascii) (X : string) :
  (c = "%"%char ->
   X = "" \/ exists c' X', X = String c' X' /\ Ascii.eqb k c' = false) ->
  Py.replace_from (String "%" (String k "")) new 0 (String c X)
  = String c (Py.replace_from (String "%" (String k "")) new 0 X).
Proof.
  intros H. apply replace_from_keep. cbn [Py.starts_with].
  destruct (Ascii.eqb_spec "%" c) as [<- | _]; [| reflexivity].
  destruct (H eq_refl) as [-> | (c' & X' & -> & E)]; [reflexivity |].
  rewrite E. reflexivity.
Qed.

(** First stage: [%%] becomes the sentinel. *)
Lemma stage_escape (l : list token) :
  wf_tokens l = true ->
  Py.replace_from "%%" sentinel 0 (stage "%%" [] v l) = stage sentinel [] v l.
Proof.
  induction l as [| t l IH]; intros Hwf; [reflexivity |].
  pose proof (wf_tokens_tail t l Hwf) as Hl. specialize (IH Hl).
  rewrite !stage_cons. destruct t as [c | | k]; cbn [stage_img append].
  - rewrite keep_literal; [rewrite IH; reflexivity |].
    intros ->. destruct (after_literal_percent "%%" [] l Hwf) as [E | (c' & X & E & E1 & _)].
    + left. exact E.
    + right. exists c', X. split; assumption.
  - change (String "%" (String "%" (stage "%%" [] v l))) with ("%%" ++ stage "%%" [] v l).
    rewrite replace_from_match, IH. reflexivity.
  - cbn [key_done existsb key_template append].
    rewrite !replace_from_keep by (destruct k; reflexivity).
    rewrite IH. reflexivity.
Qed.

Lemma key_eqb_eq (j k : key) : key_eqb j k = true -> j = k.
Proof. destruct j, k; cbn; intros H; try reflexivity; discriminate. Qed.

(** A middle stage: the key [k] is replaced by its value. *)
Lemma stage_key (done : list key) (k : key) (l : list token) :
  wf_tokens l = true -> key_done done k = false ->
  (forall j, key_done done j = true -> clean (v j) = true) ->
  Py.replace_from (key_template k) (v k) 0 (stage sentinel done v l)
  = stage sentinel (k :: done) v l.
Proof.
  intros Hwf Hk Hv. induction l as [| t l IH]; [reflexivity |].
  pose proof (wf_tokens_tail t l Hwf) as Hl. specialize (IH Hl).
  rewrite !stage_cons. rewrite <- IH. clear IH.
  destruct t as [c | | j]; cbn [stage_img].
  - cbn [append]. unfold key_template. apply keep_literal.
    intros ->. destruct (after_literal_percent sentinel done l Hwf)
      as [E | (c' & X & E & _ & E2)].
    + left. exact E.
    + right. exists c', X. split; [exact E | apply E2].
  - unfold sentinel at 1 3. cbn [append]. unfold key_template.
    rewrite !replace_from_keep by (destruct k; reflexivity). reflexivity.
  - cbn [key_done existsb]. fold (key_done done j).
    destruct (key_done done j) eqn:Ej.
    + rewrite Bool.orb_true_r. apply key_scan_clean. apply Hv. exact Ej.
    + rewrite Bool.orb_false_r. destruct (key_eqb j k) eqn:Ejk.
      * apply key_eqb_eq in Ejk. subst j. unfold key_template.
        apply replace_from_match.
      * unfold key_template. cbn [append].
        rewrite replace_from_keep.
        2:{ cbn [Py.starts_with]. unfold key_eqb in Ejk.
            rewrite Ascii.eqb_sym in Ejk. rewrite Ejk. reflexivity. }
        rewrite replace_from_keep by (destruct j; reflexivity). reflexivity.
Qed.

(** In the last stage no two percent signs stand side by side outside a
    sentinel. *)
Lemma stage_no_double_percent (done : list key) (l : list token) :
  wf_tokens l = true ->
  (forall j, key_done done j = true) ->
  (forall j, clean (v j) = true) ->
  Py.starts_with "%%" (stage sentinel done v l) = false.
Proof.
  intros Hwf Hd Hv. induction l as [| t l IH]; [reflexivity |].
  pose proof (wf_tokens_tail t l Hwf) as Hl. specialize (IH Hl).
  rewrite stage_cons. destruct t as [c | | j]; cbn [stage_img].
  - cbn [append Py.starts_with]. destruct (Ascii.eqb_spec "%" c) as [<- | _]; [| reflexivity].
    destruct (after_literal_percent sentinel done l Hwf) as [-> | (c' & X & -> & E & _)];
      [reflexivity |].
    cbn [Py.starts_with]. rewrite E. reflexivity.
  - reflexivity.
  - rewrite Hd. apply clean_no_double_percent; [apply Hv | exact IH].
Qed.

(** Last stage: every sentinel becomes one percent sign, those of the
    template and those inside the values. *)
Lemma stage_unescape (done : list key) (l : list token) :
  wf_tokens l = true ->
  (forall j, key_done done j = true) ->
  (forall j, clean (v j) = true) ->
  Py.replace_from sentinel "%" 0 (stage sentinel done v l)
  = flat (List.map (token_out (fun k => unescape (v k))) l).
Proof.
  intros Hwf Hd Hv. induction l as [| t l IH]; [reflexivity |].
  pose proof (wf_tokens_tail t l Hwf) as Hl. specialize (IH Hl).
  pose proof (stage_no_double_percent done l Hl Hd Hv) as Hpp.
  rewrite stage_cons. cbn [List.map flat]. destruct t as [c | | j]; cbn [stage_img token_out].
  - cbn [append]. rewrite replace_from_keep by auto with texts.
    rewrite IH. reflexivity.
  - rewrite unescape_match, IH. reflexivity.
  - rewrite Hd, unescape_clean by (auto). rewrite IH. reflexivity.
Qed.

End Stages.

(** ** Values without percent signs *)

Lemma uint_digits_percent_free (d : Decimal.uint) :
  has_char "%" (NilEmpty.string_of_uint d) = false.
Proof. induction d; cbn; try reflexivity; exact IHd. Qed.

Lemma str_percent_free (n : Z) : has_char "%" (Py.str n) = false.
Proof.
  unfold Py.str, NilZero.string_of_int, NilZero.string_of_uint.
  destruct (Z.to_int n) as [d | d]; cbn [has_char].
  - destruct d; try reflexivity; apply (uint_digits_percent_free (_ d)).
  - destruct d; try reflexivity; apply (uint_digits_percent_free (_ d)).
Qed.

Lemma pad2_percent_free (n : Z) : has_char "%" (pad2 n) = false.
Proof.
  unfold pad2. destruct (n <? 10); [cbn |]; apply str_percent_free.
Qed.

Lemma to_h_m_s_percent_free (n : Z) : has_char "%" (to_h_m_s n) = false.
Proof.
  rewrite to_h_m_s_always_hours, !has_char_append, !pad2_percent_free. reflexivity.
Qed.

#[local] Hint Resolve to_h_m_s_percent_free : texts.

Lemma key_value_percent_free (sd : song_info) (d p : Z) :
  percent_free sd = true ->
  forall k, has_char "%" (key_value sd d p k) = false.
Proof.
  unfold percent_free. intros H.
  split_andb.
  intros k. destruct k; cbn [key_value];
    try apply to_h_m_s_percent_free;
    match goal with
    | Hx : negb ?b = true |- ?b = false => destruct b; [discriminate Hx | reflexivity]
    end.
Qed.

(** ** The renderer against the template language *)

(** The whole chain of scans on the tokens of a template. *)
Lemma chain_scans (v : key -> string) (l : list token) :
  wf_tokens l = true -> (forall j, clean (v j) = true) ->
  Py.replace_from sentinel "%" 0
    (Py.replace_from (key_template KPosition) (v KPosition) 0
       (Py.replace_from (key_template KDuration) (v KDuration) 0
          (Py.replace_from (key_template KDate) (v KDate) 0
             (Py.replace_from (key_template KGenre) (v KGenre) 0
                (Py.replace_from (key_template KTitle) (v KTitle) 0
                   (Py.replace_from (key_template KAlbum) (v KAlbum) 0
                      (Py.replace_from (key_template KArtist) (v KArtist) 0
                         (Py.replace_from "%%" sentinel 0 (stage "%%" [] v l)))))))))
  = flat (List.map (token_out (fun k => unescape (v k))) l).
Proof.
  intros Hwf Hv.
  rewrite (stage_escape v l Hwf).
  rewrite (stage_key v [] KArtist l Hwf eq_refl (fun j _ => Hv j)).
  rewrite (stage_key v [KArtist] KAlbum l Hwf eq_refl (fun j _ => Hv j)).
  rewrite (stage_key v [KAlbum; KArtist] KTitle l Hwf eq_refl (fun j _ => Hv j)).
  rewrite (stage_key v [KTitle; KAlbum; KArtist] KGenre l Hwf eq_refl (fun j _ => Hv j)).
  rewrite (stage_key v [KGenre; KTitle; KAlbum; KArtist] KDate l Hwf eq_refl
             (fun j _ => Hv j)).
  rewrite (stage_key v [KDate; KGenre; KTitle; KAlbum; KArtist] KDuration l Hwf eq_refl
             (fun j _ => Hv j)).
  rewrite (stage_key v [KDuration; KDate; KGenre; KTitle; KAlbum; KArtist] KPosition l
             Hwf eq_refl (fun j _ => Hv j)).
  apply stage_unescape; [exact Hwf | intros j; destruct j; reflexivity | exact Hv].
Qed.

(** The same, as [custom_format] writes it. *)
Lemma chain_tokens (v : key -> string) (l : list token) :
  wf_tokens l = true -> (forall j, clean (v j) = true) ->
  Py.replace sentinel "%"
    (Py.replace "%p" (v KPosition)
       (Py.replace "%u" (v KDuration)
          (Py.replace "%y" (v KDate)
             (Py.replace "%g" (v KGenre)
                (Py.replace "%t" (v KTitle)
                   (Py.replace "%l" (v KAlbum)
                      (Py.replace "%a" (v KArtist)
                         (Py.replace "%%" sentinel (stage "%%" [] v l)))))))))
  = flat (List.map (token_out (fun k => unescape (v k))) l).
Proof. exact (chain_scans v l). Qed.

Lemma custom_format_chain (template : string) (sd : song_info) (d p : Z) :
  PyInt.int (duration sd) = Ok d -> PyInt.int (position sd) = Ok p ->
  custom_format template (Some sd) =
  Ok (Py.replace sentinel "%"
        (Py.replace "%p" (to_h_m_s p)
           (Py.replace "%u" (to_h_m_s d)
              (Py.replace "%y" (date sd)
                 (Py.replace "%g" (genre sd)
                    (Py.replace "%t" (title sd)
                       (Py.replace "%l" (album sd)
                          (Py.replace "%a" (artist sd)
                             (Py.replace "%%" sentinel template))))))))).
Proof.
  intros Hd Hp. unfold custom_format. cbn [bind]. rewrite Hd. cbn [bind].
  rewrite Hp. reflexivity.
Qed.

Lemma key_value_clean (sd : song_info) (d p : Z) :
  clean_info sd = true -> forall k, clean (key_value sd d p k) = true.
Proof.
  unfold clean_info. intros H.
  split_andb.
  intros k. destruct k; cbn [key_value]; auto with texts.
Qed.

Lemma percent_free_info_clean (sd : song_info) :
  percent_free sd = true -> clean_info sd = true.
Proof.
  unfold percent_free, clean_info. intros H.
  split_andb.
  negb_hyps. rewrite !percent_free_clean by assumption. reflexivity.
Qed.

(** The renderer on clean metadata: the one-pass reading of the template,
    over the values with their sentinels turned into percent signs. *)
Lemma custom_format_clean (template : string) (sd : song_info) (d p : Z) :
  PyInt.int (duration sd) = Ok d -> PyInt.int (position sd) = Ok p ->
  clean_info sd = true ->
  custom_format template (Some sd)
  = Ok (render_spec (fun k => unescape (key_value sd d p k)) template).
Proof.
  intros Hd Hp Hclean. rewrite (custom_format_chain template sd d p Hd Hp).
  f_equal. unfold render_spec.
  rewrite <- (chain_tokens (key_value sd d p) (lex template) (lex_wf template)
                (key_value_clean sd d p Hclean)).
  rewrite lex_source. reflexivity.
Qed.

Lemma custom_format_faithful (template : string) (sd : song_info) (d p : Z) :
  PyInt.int (duration sd) = Ok d -> PyInt.int (position sd) = Ok p ->
  percent_free sd = true ->
  custom_format template (Some sd) = Ok (render_spec (key_value sd d p) template).
Proof.
  intros Hd Hp Hfree.
  rewrite (custom_format_clean template sd d p Hd Hp (percent_free_info_clean sd Hfree)).
  f_equal. unfold render_spec. f_equal. apply map_ext. intros t.
  destruct t as [c | | k]; cbn [token_out]; try reflexivity.
  apply unescape_percent_free, key_value_percent_free. exact Hfree.
Qed.

Lemma custom_format_plain (template : string) (sd : song_info) :
  numeric sd = true -> no_placeholder template = true ->
  custom_format template (Some sd) = Ok template.
Proof.
  intros Hn Hno. destruct (numeric_ints sd Hn) as (d & p & Hd & Hp).
  rewrite (custom_format_chain template sd d p Hd Hp). f_equal.
  unfold no_placeholder in Hno. cbn [forallb key_char] in Hno.
  repeat (apply Bool.andb_true_iff in Hno; destruct Hno as [? Hno]).
  negb_hyps.
  rewrite (replace_absent "%%" sentinel template) by assumption.
  rewrite (replace_absent "%a" _ template) by assumption.
  rewrite (replace_absent "%l" _ template) by assumption.
  rewrite (replace_absent "%t" _ template) by assumption.
  rewrite (replace_absent "%g" _ template) by assumption.
  rewrite (replace_absent "%y" _ template) by assumption.
  rewrite (replace_absent "%u" _ template) by assumption.
  rewrite (replace_absent "%p" _ template) by assumption.
  apply replace_absent.
  (* no doubled percent sign, hence no sentinel *)
  match goal with E : contains "%%" template = false |- _ => revert E end.
  clear. induction template as [| a t IH]; intros H; [reflexivity |].
  cbn [contains] in H |- *. apply Bool.orb_false_iff in H. destruct H as [H1 H2].
  rewrite (IH H2), Bool.orb_false_r.
  unfold sentinel. cbn [Py.starts_with].
  destruct (Ascii.eqb "/" a); [| reflexivity]. cbn [andb].
  destruct t as [| b t]; [reflexivity |].
  cbn [contains] in H2. apply Bool.orb_false_iff in H2. destruct H2 as [H2 _].
  cbn [Py.starts_with] in H2 |- *.
  destruct (Ascii.eqb "%" b); [| reflexivity].
  destruct t as [| c t]; [reflexivity |].
  cbn [andb Py.starts_with] in H2 |- *.
  destruct (Ascii.eqb "%" c); [discriminate | reflexivity].
Qed.

Lemma custom_format_scans (template : string) (sd : song_info) (d p : Z) :
  PyInt.int (duration sd) = Ok d -> PyInt.int (position sd) = Ok p ->
  custom_format template (Some sd) = Ok (scan_chain (key_value sd d p) template).
Proof. intros Hd Hp. rewrite (custom_format_chain template sd d p Hd Hp). reflexivity. Qed.

(** C6 (amended).  For every template and every record whose metadata
    hold no percent sign (duration and position being integers), the
    rendering is the one-pass reading of the template: each [%%] gives
    exactly one percent sign, each key its value, every other character
    itself; so no [%%] is consumed by the substitution of a key.  For every
    record with integer times, a template without placeholders is returned
    unchanged, and [%%%t] with title [5] renders as [%5]. *)
Theorem custom_format_escape_safe :
  (forall (template : string) (sd : song_info) (d p : Z),
      PyInt.int (duration sd) = Ok d -> PyInt.int (position sd) = Ok p ->
      percent_free sd = true ->
      custom_format template (Some sd) = Ok (render_spec (key_value sd d p) template))
  /\ (forall (template : string) (sd : song_info),
         numeric sd = true -> no_placeholder template = true ->
         custom_format template (Some sd) = Ok template)
  /\ (forall sd : song_info,
         numeric sd = true -> title sd = "5" ->
         custom_format "%%%t" (Some sd) = Ok "%5").
Proof.
  split; [exact custom_format_faithful |]. split; [exact custom_format_plain |].
  intros sd Hn Ht. destruct (numeric_ints sd Hn) as (d & p & Hd & Hp).
  rewrite (custom_format_chain "%%%t" sd d p Hd Hp), Ht. reflexivity.
Qed.

Lemma custom_format_escape_safe_witness :
  custom_format "%% %t by %a (%p/%u)" (Some sample_info)
  = Ok "% Title by Artist (00:00:10/00:03:20)"
  /\ custom_format "plain text" (Some clash_info) = Ok "plain text"
  /\ custom_format "%%%t" (Some (SongInfo "%" "%" "5" "%" "%" "1" "2")) = Ok "%5".
Proof.
  split; [| split].
  - exact (proj1 custom_format_escape_safe "%% %t by %a (%p/%u)" sample_info 200 10
             eq_refl eq_refl eq_refl).
  - exact (proj1 (proj2 custom_format_escape_safe) "plain text" clash_info
             eq_refl eq_refl).
  - exact (proj2 (proj2 custom_format_escape_safe)
             (SongInfo "%" "%" "5" "%" "%" "1" "2") eq_refl eq_refl).
Defined.

(** C6, as first stated, fails: the artist ends in [/%%], the template
    is the artist followed by [%%], and the output is not the artist
    followed by one percent sign. *)
Lemma custom_format_sentinel_clash :
  artist clash_info = "/%%"
  /\ custom_format "%a%%" (Some clash_info) = Ok "%%%/"
  /\ render_spec (key_value clash_info 200 10) "%a%%" = "/%%%".
Proof. repeat split. Qed.

(** ** Metadata that holds the sentinel *)

Lemma scan_escape_key (k : key) :
  Py.replace_from "%%" sentinel 0 (key_template k) = key_template k.
Proof. destruct k; reflexivity. Qed.

Lemma scan_other_key (j k : key) (new : string) :
  j <> k -> Py.replace_from (key_template j) new 0 (key_template k) = key_template k.
Proof. intros H. destruct j, k; try reflexivity; now contradiction H. Qed.

Lemma scan_own_key (k : key) (new : string) :
  Py.replace_from (key_template k) new 0 (key_template k) = new.
Proof.
  pose proof (replace_from_match "%" (String (key_char k) "") new "") as H.
  cbn [append Py.replace_from] in H |- *. unfold key_template.
  cbn [Py.replace_from]. rewrite H. apply append_empty_r.
Qed.

(** A key scan copies a text that holds a sentinel and no other percent
    sign. *)
Lemma scan_sentinel_text (k : key) (new pre post : string) :
  has_char "%" pre = false -> has_char "%" post = false ->
  Py.replace_from (key_template k) new 0 (pre ++ sentinel ++ post)
  = pre ++ sentinel ++ post.
Proof.
  intros Hpre Hpost. unfold key_template.
  rewrite replace_from_free by exact Hpre. f_equal.
  unfold sentinel. cbn [append].
  rewrite !replace_from_keep by (destruct k; reflexivity). do 4 f_equal.
  rewrite <- (append_empty_r post) at 1.
  rewrite replace_from_free by exact Hpost. apply append_empty_r.
Qed.

(** The last scan turns that sentinel into one percent sign. *)
Lemma unescape_sentinel_text (pre post : string) :
  has_char "%" pre = false -> has_char "%" post = false ->
  Py.replace_from sentinel "%" 0 (pre ++ sentinel ++ post) = pre ++ "%" ++ post.
Proof.
  intros Hpre Hpost.
  rewrite unescape_clean by (apply percent_free_clean; exact Hpre) || reflexivity.
  rewrite (unescape_percent_free pre Hpre), unescape_match.
  change (Py.replace_from sentinel "%" 0 post) with (unescape post).
  rewrite (unescape_percent_free post Hpost). reflexivity.
Qed.

Lemma some_eq (A : Type) (a b : A) : Some a = Some b -> a = b.
Proof. intros [= H]. exact H. Qed.

Lemma key_template_sentinel (sd : song_info) (k : key) (pre post : string) :
  numeric sd = true ->
  meta_field sd k = Some (pre ++ sentinel ++ post) ->
  has_char "%" pre = false -> has_char "%" post = false ->
  custom_format (key_template k) (Some sd) = Ok (pre ++ "%" ++ post).
Proof.
  intros Hn Hfield Hpre Hpost.
  destruct (numeric_ints sd Hn) as (d & p & Hd & Hp).
  rewrite (custom_format_scans (key_template k) sd d p Hd Hp). f_equal.
  unfold scan_chain. rewrite scan_escape_key.
  destruct k; cbn [meta_field] in Hfield; try discriminate Hfield;
    apply some_eq in Hfield;
    rewrite ?scan_other_key by discriminate;
    rewrite scan_own_key; cbn [key_value]; rewrite Hfield;
    rewrite ?scan_sentinel_text by assumption;
    apply unescape_sentinel_text; assumption.
Qed.

Lemma sentinel_not_percent (pre post : string) :
  pre ++ "%" ++ post <> pre ++ sentinel ++ post.
Proof.
  intros E. induction pre as [| x pre IH].
  - discriminate E.
  - cbn [append] in E. injection E as E. exact (IH E).
Qed.

(** C9 (amended).  For every template and every record whose metadata
    hold percent signs only inside whole sentinels [/%%/] (times being
    integers), the rendering is the one-pass reading of the template in
    which each key stands for its field with every sentinel turned into
    one percent sign.  And when a field reads [pre ++ "/%%/" ++ post] with
    no other percent sign, whatever the other fields hold, the template
    made of the key of that field renders as [pre ++ "%" ++ post], which
    is not the field: the renderer is not faithful for metadata that hold
    the sentinel. *)
Theorem custom_format_sentinel_in_metadata :
  (forall (template : string) (sd : song_info) (d p : Z),
      PyInt.int (duration sd) = Ok d -> PyInt.int (position sd) = Ok p ->
      clean_info sd = true ->
      custom_format template (Some sd)
      = Ok (render_spec (fun k => unescape (key_value sd d p k)) template))
  /\ (forall (sd : song_info) (k : key) (pre post : string),
         numeric sd = true ->
         meta_field sd k = Some (pre ++ sentinel ++ post) ->
         has_char "%" pre = false -> has_char "%" post = false ->
         custom_format (key_template k) (Some sd) = Ok (pre ++ "%" ++ post)
         /\ unescape (pre ++ sentinel ++ post) = pre ++ "%" ++ post
         /\ pre ++ "%" ++ post <> pre ++ sentinel ++ post).
Proof.
  split; [exact custom_format_clean |].
  intros sd k pre post Hn Hfield Hpre Hpost. split; [| split].
  - exact (key_template_sentinel sd k pre post Hn Hfield Hpre Hpost).
  - exact (unescape_sentinel_text pre post Hpre Hpost).
  - apply sentinel_not_percent.
Qed.

Lemma custom_format_sentinel_in_metadata_witness :
  custom_format "%a" (Some sentinel_info) = Ok "x%y"
  /\ custom_format "%t by %a%%" (Some sentinel_info) = Ok "Title by x%y%".
Proof.
  split.
  - exact (proj1 (proj2 custom_format_sentinel_in_metadata sentinel_info KArtist "x" "y"
                    eq_refl eq_refl eq_refl eq_refl)).
  - exact (proj1 custom_format_sentinel_in_metadata "%t by %a%%" sentinel_info 200 10
             eq_refl eq_refl eq_refl).
Defined.

(** C9, as first stated, fails: the artist holds the sentinel, after a
    key whose value ends like the sentinel begins; the sentinel of the
    artist is not what becomes a percent sign, and its last slash stays. *)
Lemma custom_format_sentinel_overlap :
  artist nested_info = "%t" ++ sentinel
  /\ title nested_info = "/%%"
  /\ custom_format "%a" (Some nested_info) = Ok "%%%/"
  /\ "%%%/" <> "/%%" ++ "%".
Proof. repeat split. discriminate. Qed.

(** ** The fallback from the file path *)

Lemma split_from_nonempty (sep : string) (k : nat) (s : string) :
  Py.split_from sep k s <> [].
Proof.
  revert k. induction s as [| c s IH]; intros k; cbn [Py.split_from]; [discriminate |].
  destruct k as [| k]; [| apply IH].
  destruct (Py.starts_with sep (String c s)); [discriminate |].
  destruct (Py.split_from sep 0 s); discriminate.
Qed.

(** A list read from its end. *)
Lemma list_from_end (A : Type) (l : list A) :
  l = [] \/ (exists x, l = [x]) \/ exists r y x, l = (r ++ [y; x])%list.
Proof.
  rewrite <- (rev_involutive l). destruct (rev l) as [| x [| y r]].
  - left. reflexivity.
  - right. left. exists x. reflexivity.
  - right. right. exists (rev r), y, x. cbn [rev]. rewrite <- app_assoc. reflexivity.
Qed.

Lemma index_last (A : Type) (r : list A) (x : A) :
  Py.index (r ++ [x]) (-1) = Ok x.
Proof.
  unfold Py.index. rewrite length_app. cbn [List.length Z.ltb Z.compare].
  replace (-1 + Z.of_nat (List.length r + 1)) with (Z.of_nat (List.length r)) by lia.
  destruct (Z.ltb_spec (Z.of_nat (List.length r)) 0); [lia |].
  destruct (Z.leb_spec (Z.of_nat (List.length r + 1)) (Z.of_nat (List.length r))); [lia |].
  cbn [orb]. rewrite Nat2Z.id, nth_error_app2, Nat.sub_diag by lia. reflexivity.
Qed.

Lemma index_second_last (A : Type) (r : list A) (y x : A) :
  Py.index (r ++ [y; x]) (-2) = Ok y.
Proof.
  unfold Py.index. rewrite length_app. cbn [List.length Z.ltb Z.compare].
  replace (-2 + Z.of_nat (List.length r + 2)) with (Z.of_nat (List.length r)) by lia.
  destruct (Z.ltb_spec (Z.of_nat (List.length r)) 0); [lia |].
  destruct (Z.leb_spec (Z.of_nat (List.length r + 2)) (Z.of_nat (List.length r))); [lia |].
  cbn [orb]. rewrite Nat2Z.id, nth_error_app2, Nat.sub_diag by lia. reflexivity.
Qed.

Lemma index_zero (A : Type) (a : A) (l : list A) : Py.index (a :: l) 0 = Ok a.
Proof.
  unfold Py.index. cbn [Z.ltb Z.compare List.length].
  destruct (Z.leb_spec (Z.of_nat (S (List.length l))) 0); [lia | reflexivity].
Qed.

Lemma index_one (A : Type) (a t : A) (l : list A) : Py.index (a :: t :: l) 1 = Ok t.
Proof.
  unfold Py.index. cbn [Z.ltb Z.compare List.length].
  destruct (Z.leb_spec (Z.of_nat (S (S (List.length l)))) 1); [lia | reflexivity].
Qed.

Lemma two_tokens (A : Type) (a t : A) (l : list A) :
  (2 <=? Z.of_nat (List.length (a :: t :: l))) = true.
Proof. apply Z.leb_le. cbn [List.length]. lia. Qed.

(** [title_from_path] follows the rule as worded; a path of a single
    segment without separator raises [IndexError]. *)
Lemma title_from_path_rule (path : string) :
  title_from_path path =
  match path_rule path with
  | Some r => Ok r
  | None => Raise IndexError
  end.
Proof.
  unfold title_from_path, path_rule. cbn [Py.split bind].
  set (segments := Py.split_from "/" 0 _).
  assert (Hlast : Py.index segments (-1) = Ok (List.last segments "")
                  /\ (forall k : string -> result (string * string),
                         bind (Py.index segments (-2)) k
                         = match rev segments with
                           | _ :: sl :: _ => k sl
                           | _ => Raise IndexError
                           end)
                  /\ match rev segments with
                     | l :: _ => l = List.last segments ""
                     | [] => False
                     end).
  { destruct (list_from_end string segments) as [E | [(x & E) | (r & y & x & E)]].
    - exfalso. exact (split_from_nonempty "/" 0 _ E).
    - rewrite E. repeat split.
    - rewrite E. split; [| split].
      + replace (r ++ [y; x])%list with ((r ++ [y]) ++ [x])%list
          by (rewrite <- app_assoc; reflexivity).
        rewrite index_last, last_last. reflexivity.
      + intros k. rewrite index_second_last, rev_app_distr. reflexivity.
      + rewrite rev_app_distr. cbn [rev app].
        replace (r ++ [y; x])%list with ((r ++ [y]) ++ [x])%list
          by (rewrite <- app_assoc; reflexivity).
        rewrite last_last. reflexivity. }
  destruct Hlast as (Hl & H2 & Hrev). rewrite Hl. cbn [bind].
  set (final := List.last segments "") in *.
  set (spaced := Py.split_from " - " 0 final).
  assert (Hlen : (Z.of_nat (List.length spaced) <? 2) = negb (2 <=? List.length spaced)%nat).
  { destruct (Z.ltb_spec (Z.of_nat (List.length spaced)) 2);
      destruct (Nat.leb_spec 2 (List.length spaced)); cbn; lia || reflexivity. }
  rewrite Hlen. destruct (2 <=? List.length spaced)%nat; cbn [negb bind].
  - destruct spaced as [| a [| t rest]] eqn:Es.
    + exfalso. exact (split_from_nonempty " - " 0 _ Es).
    + cbn. rewrite H2. destruct (rev segments) as [| l [| sl r]]; try reflexivity.
      rewrite Hrev. reflexivity.
    + rewrite two_tokens, index_zero, index_one. reflexivity.
  - set (tokens := Py.split_from "-" 0 final).
    destruct tokens as [| a [| t rest]] eqn:Et.
    + exfalso. exact (split_from_nonempty "-" 0 _ Et).
    + cbn. rewrite H2. destruct (rev segments) as [| l [| sl r]]; try reflexivity.
      rewrite Hrev. reflexivity.
    + rewrite two_tokens, index_zero, index_one. reflexivity.
Qed.

(** ** Paths made of well-separated parts *)

Lemma take_append (x y : string) : Py.take (String.length x) (x ++ y) = x.
Proof. induction x as [| a x IH]; cbn; [destruct y; reflexivity | now rewrite IH]. Qed.

Lemma drop_append (x y : string) : Py.drop (String.length x) (x ++ y) = y.
Proof. induction x as [| a x IH]; cbn; [reflexivity | exact IH]. Qed.

Lemma rfind_from_absent (c : ascii) (i found : Z) (y : string) :
  has_char c y = false -> Py.rfind_from c i found y = found.
Proof.
  revert i. induction y as [| a y IH]; intros i H; [reflexivity |].
  has_char_cons H as Ha Hy.
  cbn [Py.rfind_from]. rewrite Ha. apply IH. exact Hy.
Qed.

Lemma rfind_from_append (c : ascii) (i found : Z) (x y : string) :
  Py.rfind_from c i found (x ++ y)
  = Py.rfind_from c (i + Z.of_nat (String.length x)) (Py.rfind_from c i found x) y.
Proof.
  revert i found. induction x as [| a x IH]; intros i found.
  - cbn. rewrite Z.add_0_r. reflexivity.
  - cbn [append Py.rfind_from String.length]. rewrite IH. f_equal. lia.
Qed.

(** The last occurrence of a character. *)
Lemma rfind_last (c : ascii) (x y : string) :
  has_char c y = false ->
  Py.rfind c (x ++ String c y) = Z.of_nat (String.length x).
Proof.
  intros H. unfold Py.rfind. rewrite rfind_from_append.
  cbn [Py.rfind_from]. rewrite Ascii.eqb_refl. rewrite rfind_from_absent by exact H.
  lia.
Qed.

(** [splitext] cuts before the last dot of a file name that does not
    begin with a dot. *)
Lemma splitext_name (dir name ext : string) (c : ascii) (rest : string) :
  name = String c rest -> c <> "."%char ->
  has_char "/" name = false -> has_char "/" ext = false -> has_char "." ext = false ->
  fst (OsPath.splitext (dir ++ "/" ++ name ++ "." ++ ext)) = dir ++ "/" ++ name.
Proof.
  intros Hname Hc Hn He Hd. unfold OsPath.splitext.
  assert (Hsep : Py.rfind "/" (dir ++ "/" ++ name ++ "." ++ ext)
                 = Z.of_nat (String.length dir)).
  { apply (rfind_last "/" dir (name ++ "." ++ ext)).
    rewrite has_char_append, Hn. cbn. exact He. }
  assert (Hdot : Py.rfind "." (dir ++ "/" ++ name ++ "." ++ ext)
                 = Z.of_nat (String.length (dir ++ "/" ++ name))).
  { replace (dir ++ "/" ++ name ++ "." ++ ext) with ((dir ++ "/" ++ name) ++ "." ++ ext)
      by (rewrite !append_assoc; reflexivity).
    apply (rfind_last "." (dir ++ "/" ++ name) ext). exact Hd. }
  rewrite Hsep, Hdot.
  assert (Hlen : String.length (dir ++ "/" ++ name)
                 = (String.length dir + 1 + String.length name)%nat).
  { rewrite !length_append. cbn. lia. }
  assert (Hlt : (Z.of_nat (String.length dir)
                 <? Z.of_nat (String.length (dir ++ "/" ++ name))) = true).
  { apply Z.ltb_lt. rewrite Hlen. lia. }
  rewrite Hlt. cbn [andb].
  assert (Hscan : OsPath.has_name_before_dot
                    (String.length (dir ++ "/" ++ name ++ "." ++ ext))
                    (dir ++ "/" ++ name ++ "." ++ ext)
                    (Z.of_nat (String.length dir) + 1)
                    (Z.of_nat (String.length (dir ++ "/" ++ name))) = true).
  { destruct (String.length (dir ++ "/" ++ name ++ "." ++ ext)) as [| k] eqn:Ek.
    - rewrite !length_append in Ek. cbn in Ek. lia.
    - cbn [OsPath.has_name_before_dot].
      assert (Hlt' : (Z.of_nat (String.length dir) + 1
                      <? Z.of_nat (String.length (dir ++ "/" ++ name))) = true).
      { apply Z.ltb_lt. rewrite Hlen, Hname. cbn [String.length]. lia. }
      rewrite Hlt'.
      replace (Z.to_nat (Z.of_nat (String.length dir) + 1))
        with (String.length (dir ++ "/")) by (rewrite length_append; cbn; lia).
      replace (dir ++ "/" ++ name ++ "." ++ ext) with ((dir ++ "/") ++ name ++ "." ++ ext)
        by (rewrite !append_assoc; reflexivity).
      rewrite drop_append, Hname. cbn [append Py.take].
      destruct (String.eqb_spec (String c "") ".") as [E | _]; [| reflexivity].
      injection E as E. contradiction. }
  rewrite Hscan. cbn [fst]. rewrite Nat2Z.id.
  replace (dir ++ "/" ++ name ++ "." ++ ext) with ((dir ++ "/" ++ name) ++ "." ++ ext)
    by (rewrite !append_assoc; reflexivity).
  apply take_append.
Qed.

Lemma rstrip_absent (c : ascii) (y : string) :
  has_char c y = false -> Py.rstrip c y = y.
Proof.
  induction y as [| a y IH]; intros H; [reflexivity |].
  has_char_cons H as Ha Hy.
  cbn [Py.rstrip]. rewrite (IH Hy), Ha. destruct y; reflexivity.
Qed.

(** Nothing is stripped on the right of a text that ends with a
    non-empty part free of the character. *)
Lemma rstrip_append (c : ascii) (x y : string) :
  has_char c y = false -> y <> "" -> Py.rstrip c (x ++ y) = x ++ y.
Proof.
  intros Hy Hne. induction x as [| a x IH]; [apply rstrip_absent; exact Hy |].
  cbn [append Py.rstrip]. rewrite IH.
  destruct (x ++ y) eqn:E; [| reflexivity].
  destruct x; [cbn in E; contradiction | discriminate E].
Qed.

(** Stripping on the left of [dir ++ c ++ name] leaves [name] behind what
    is left of [dir] and its separator. *)
Lemma lstrip_append (c : ascii) (dir name : string) :
  Py.starts_with (String c "") name = false ->
  Py.lstrip c (dir ++ String c name) = name
  \/ exists y, Py.lstrip c (dir ++ String c name) = y ++ String c name
               /\ Py.starts_with (String c "") y = false /\ y <> "".
Proof.
  intros Hn. induction dir as [| a dir IH].
  - left. cbn [append Py.lstrip]. rewrite Ascii.eqb_refl.
    destruct name as [| b name]; [reflexivity |].
    cbn [Py.starts_with] in Hn. cbn [Py.lstrip].
    rewrite Ascii.eqb_sym. rewrite Bool.andb_true_r in Hn. rewrite Hn. reflexivity.
  - cbn [append Py.lstrip]. destruct (Ascii.eqb a c) eqn:Ea; [exact IH |].
    right. exists (String a dir). split; [reflexivity |]. split; [| discriminate].
    cbn [Py.starts_with]. rewrite Ascii.eqb_sym, Ea. reflexivity.
Qed.

(** Splitting on one character distributes over an occurrence of it. *)
Lemma split_char_append (c : ascii) (x y : string) :
  Py.split_from (String c "") 0 (x ++ String c y)
  = (Py.split_from (String c "") 0 x ++ Py.split_from (String c "") 0 y)%list.
Proof.
  induction x as [| a x IH].
  - cbn [append Py.split_from Py.starts_with String.length Nat.pred].
    rewrite Ascii.eqb_refl. cbn [andb]. destruct y; reflexivity.
  - cbn [append]. cbn [Py.split_from]. cbn [Py.starts_with String.length Nat.pred].
    rewrite Bool.andb_true_r.
    destruct (Ascii.eqb c a).
    + rewrite IH. destruct x; reflexivity.
    + rewrite IH. pose proof (split_from_nonempty (String c "") 0 x) as Hne.
      destruct (Py.split_from (String c "") 0 x) as [| h t]; [contradiction |].
      reflexivity.
Qed.

Lemma split_char_absent (c : ascii) (s : string) :
  has_char c s = false -> Py.split_from (String c "") 0 s = [s].
Proof.
  induction s as [| a s IH]; intros H; [reflexivity |].
  has_char_cons H as Ha Hs.
  cbn [Py.split_from Py.starts_with]. rewrite Ascii.eqb_sym, Ha. cbn [andb].
  rewrite (IH Hs). reflexivity.
Qed.

(** Splitting on [" - "] when the text before it holds no hyphen. *)
Lemma split_spaced (a rest : string) :
  has_char "-" a = false ->
  Py.split_from " - " 0 (a ++ " - " ++ rest) = a :: Py.split_from " - " 0 rest.
Proof.
  intros Ha. induction a as [| c a IH].
  - cbn [append Py.split_from Py.starts_with String.length Nat.pred].
    cbn. destruct rest; reflexivity.
  - has_char_cons Ha as Hc Ha.
    change (String c a ++ " - " ++ rest) with (String c (a ++ " - " ++ rest)).
    cbn [Py.split_from].
    assert (Hno : Py.starts_with " - " (String c (a ++ " - " ++ rest)) = false).
    { cbn [Py.starts_with]. destruct (Ascii.eqb " " c); [| reflexivity]. cbn [andb].
      destruct a as [| c' a]; [reflexivity |].
      has_char_cons Ha as Hc' _.
      cbn [append Py.starts_with]. rewrite Ascii.eqb_sym, Hc'. reflexivity. }
    rewrite Hno, (IH Ha). reflexivity.
Qed.

Lemma split_spaced_absent (t : string) :
  has_char "-" t = false -> Py.split_from " - " 0 t = [t].
Proof.
  induction t as [| c t IH]; intros H; [reflexivity |].
  has_char_cons H as Hc Ht.
  cbn [Py.split_from].
  assert (Hno : Py.starts_with " - " (String c t) = false).
  { cbn [Py.starts_with]. destruct (Ascii.eqb " " c); [| reflexivity]. cbn [andb].
    destruct t as [| c' t]; [reflexivity |].
    has_char_cons Ht as Hc' _.
    rewrite Ascii.eqb_sym, Hc'. reflexivity. }
  rewrite Hno, (IH Ht). reflexivity.
Qed.

(** A bare hyphen between two parts is no [" - "], unless blanks stand on
    both sides of it. *)
Lemma split_spaced_bare (a t : string) :
  has_char "-" a = false -> has_char "-" t = false ->
  Py.starts_with " " t = false ->
  Py.split_from " - " 0 (a ++ "-" ++ t) = [a ++ "-" ++ t].
Proof.
  intros Ha Ht Hsp. induction a as [| c a IH].
  - cbn [append]. cbn [Py.split_from Py.starts_with].
    change (Ascii.eqb " " "-") with false. cbn [andb].
    rewrite (split_spaced_absent t Ht). reflexivity.
  - has_char_cons Ha as Hc Ha.
    change (String c a ++ "-" ++ t) with (String c (a ++ "-" ++ t)).
    cbn [Py.split_from].
    assert (Hno : Py.starts_with " - " (String c (a ++ "-" ++ t)) = false).
    { cbn [Py.starts_with]. destruct (Ascii.eqb " " c); [| reflexivity]. cbn [andb].
      destruct a as [| c' a].
      - cbn [append Py.starts_with]. change (Ascii.eqb "-" "-") with true. cbn [andb].
        destruct t as [| b t]; [reflexivity |].
        cbn [Py.starts_with] in Hsp |- *. rewrite Bool.andb_true_r in Hsp.
        rewrite Hsp. reflexivity.
      - has_char_cons Ha as Hc' _.
        cbn [append Py.starts_with]. rewrite Ascii.eqb_sym, Hc'. reflexivity. }
    rewrite Hno, (IH Ha). reflexivity.
Qed.

(** The final segment of a stripped stem. *)
Lemma stem_segments (dir name : string) :
  has_char "/" name = false -> name <> "" ->
  exists front,
    Py.split_from "/" 0 (Py.strip "/" (dir ++ "/" ++ name)) = (front ++ [name])%list.
Proof.
  intros Hn Hne. unfold Py.strip.
  assert (Hs : Py.starts_with "/" name = false).
  { destruct name as [| b name]; [reflexivity |].
    has_char_cons Hn as Hb _.
    cbn [Py.starts_with]. rewrite Ascii.eqb_sym, Hb. reflexivity. }
  destruct (lstrip_append "/" dir name Hs) as [E | (y & E & _ & _)].
  - change (dir ++ "/" ++ name) with (dir ++ String "/" name). rewrite E.
    rewrite rstrip_absent by exact Hn. exists []. apply split_char_absent. exact Hn.
  - change (dir ++ "/" ++ name) with (dir ++ String "/" name). rewrite E.
    replace (y ++ String "/" name) with ((y ++ "/") ++ name)
      by (rewrite append_assoc; reflexivity).
    rewrite rstrip_append by assumption.
    rewrite append_assoc. change ("/" ++ name) with (String "/" name).
    rewrite split_char_append, (split_char_absent "/" name Hn).
    exists (Py.split_from "/" 0 y). reflexivity.
Qed.

Lemma first_char_not_dot (a sep t : string) (s : ascii) :
  Py.starts_with "." a = false -> s <> "."%char ->
  exists c rest, a ++ String s sep ++ t = String c rest /\ c <> "."%char.
Proof.
  intros Ha Hs. destruct a as [| c a].
  - exists s, (sep ++ t). split; [reflexivity | exact Hs].
  - exists c, (a ++ String s sep ++ t). split; [reflexivity |].
    cbn [Py.starts_with] in Ha. rewrite Bool.andb_true_r in Ha.
    intros ->. discriminate Ha.
Qed.

(** The stem and its final segment, for a path [dir/name.ext]. *)
Lemma path_final_segment (dir name ext : string) (c : ascii) (rest : string) :
  name = String c rest -> c <> "."%char ->
  has_char "/" name = false -> has_char "/" ext = false -> has_char "." ext = false ->
  exists front,
    Py.split_from "/" 0 (Py.strip "/" (fst (OsPath.splitext (dir ++ "/" ++ name ++ "." ++ ext))))
    = (front ++ [name])%list.
Proof.
  intros Hname Hc Hn He Hd.
  rewrite (splitext_name dir name ext c rest Hname Hc Hn He Hd).
  apply stem_segments; [exact Hn | rewrite Hname; discriminate].
Qed.

(** First rule: [" - "] between artist and title. *)
Lemma title_from_path_spaced (dir a t ext : string) :
  separated a t ext ->
  title_from_path (dir ++ "/" ++ (a ++ " - " ++ t) ++ "." ++ ext) = Ok (a, t).
Proof.
  intros (Ha & Ht & He & Hd & Hda & Hdt & Hdot).
  destruct (first_char_not_dot a "- " t " " Hdot ltac:(discriminate)) as (c & rest & Hname & Hc).
  assert (Hn : has_char "/" (a ++ " - " ++ t) = false).
  { rewrite has_char_append, Ha. cbn. exact Ht. }
  destruct (path_final_segment dir (a ++ " - " ++ t) ext c rest Hname Hc Hn He Hd)
    as (front & Hseg).
  rewrite title_from_path_rule. unfold path_rule. rewrite Hseg, last_last.
  rewrite (split_spaced a t Hda), (split_spaced_absent t Hdt). reflexivity.
Qed.

(** Second rule: a bare hyphen between artist and title. *)
Lemma title_from_path_bare (dir a t ext : string) :
  separated a t ext -> Py.starts_with " " t = false ->
  title_from_path (dir ++ "/" ++ (a ++ "-" ++ t) ++ "." ++ ext) = Ok (a, t).
Proof.
  intros (Ha & Ht & He & Hd & Hda & Hdt & Hdot) Hsp.
  destruct (first_char_not_dot a "" t "-" Hdot ltac:(discriminate)) as (c & rest & Hname & Hc).
  assert (Hn : has_char "/" (a ++ "-" ++ t) = false).
  { rewrite has_char_append, Ha. cbn. exact Ht. }
  destruct (path_final_segment dir (a ++ "-" ++ t) ext c rest Hname Hc Hn He Hd)
    as (front & Hseg).
  rewrite title_from_path_rule. unfold path_rule. rewrite Hseg, last_last.
  rewrite (split_spaced_bare a t Hda Hdt Hsp). cbn [List.length Nat.leb].
  change (a ++ "-" ++ t) with (a ++ String "-" t).
  rewrite split_char_append, (split_char_absent "-" a Hda), (split_char_absent "-" t Hdt).
  reflexivity.
Qed.

(** Third rule: no hyphen in the file name; the folder is the artist. *)
Lemma title_from_path_folder (dir folder name ext : string) (c : ascii) (rest : string) :
  name = String c rest -> c <> "."%char ->
  has_char "/" folder = false -> folder <> "" ->
  has_char "/" name = false -> has_char "-" name = false ->
  has_char "/" ext = false -> has_char "." ext = false ->
  title_from_path (dir ++ "/" ++ folder ++ "/" ++ name ++ "." ++ ext) = Ok (folder, name).
Proof.
  intros Hname Hc Hf Hfne Hn Hdash He Hd.
  rewrite title_from_path_rule. unfold path_rule.
  replace (dir ++ "/" ++ folder ++ "/" ++ name ++ "." ++ ext)
    with ((dir ++ "/" ++ folder) ++ "/" ++ name ++ "." ++ ext)
    by (rewrite !append_assoc; reflexivity).
  rewrite (splitext_name (dir ++ "/" ++ folder) name ext c rest Hname Hc Hn He Hd).
  assert (Hseg : exists front,
             Py.split_from "/" 0 (Py.strip "/" ((dir ++ "/" ++ folder) ++ "/" ++ name))
             = (front ++ [folder; name])%list).
  { unfold Py.strip.
    assert (Hs : Py.starts_with "/" (folder ++ "/" ++ name) = false).
    { destruct folder as [| b folder]; [contradiction |].
      has_char_cons Hf as Hb _.
      cbn [append Py.starts_with]. rewrite Ascii.eqb_sym, Hb. reflexivity. }
    assert (Hne : name <> "") by (rewrite Hname; discriminate).
    replace ((dir ++ "/" ++ folder) ++ "/" ++ name)
      with (dir ++ String "/" (folder ++ "/" ++ name))
      by (rewrite !append_assoc; reflexivity).
    destruct (lstrip_append "/" dir (folder ++ "/" ++ name) Hs) as [E | (y & E & _ & _)];
      rewrite E.
    - replace (folder ++ "/" ++ name) with ((folder ++ "/") ++ name)
        by (rewrite append_assoc; reflexivity).
      rewrite rstrip_append by assumption.
      rewrite append_assoc. change ("/" ++ name) with (String "/" name).
      rewrite split_char_append, (split_char_absent "/" folder Hf),
        (split_char_absent "/" name Hn).
      exists []. reflexivity.
    - replace (y ++ String "/" (folder ++ "/" ++ name))
        with ((y ++ "/" ++ folder ++ "/") ++ name)
        by (rewrite !append_assoc; reflexivity).
      rewrite rstrip_append by assumption.
      replace ((y ++ "/" ++ folder ++ "/") ++ name)
        with (y ++ String "/" (folder ++ String "/" name))
        by (rewrite !append_assoc; reflexivity).
      rewrite !split_char_append, (split_char_absent "/" folder Hf),
        (split_char_absent "/" name Hn).
      exists (Py.split_from "/" 0 y). reflexivity. }
  destruct Hseg as (front & Hseg). rewrite Hseg.
  replace (front ++ [folder; name])%list with ((front ++ [folder]) ++ [name])%list
    by (rewrite <- app_assoc; reflexivity).
  rewrite last_last, (split_spaced_absent name Hdash). cbn [List.length Nat.leb].
  rewrite (split_char_absent "-" name Hdash).
  rewrite rev_app_distr. cbn [rev app]. rewrite rev_app_distr. reflexivity.
Qed.

(** ** When the fallback applies *)

Lemma status_finish_fallback (sl : status_locals) (p : string) (pl : bool) (sd : song_info) :
  status_finish sl = Ok (Some (p, pl, sd)) ->
  sl_song_path sl = Some p
  /\ if String.eqb (sl_artist sl) "Unknown" || String.eqb (sl_title sl) "Unknown"
     then title_from_path p = Ok (artist sd, title sd)
     else artist sd = sl_artist sl /\ title sd = sl_title sl.
Proof.
  unfold status_finish.
  destruct (String.eqb (sl_artist sl) "Unknown" || String.eqb (sl_title sl) "Unknown").
  - destruct (sl_song_path sl) as [sp |]; cbn [read_var bind]; [| discriminate].
    destruct (title_from_path sp) as [[a t] | e] eqn:Et; cbn [bind]; [| discriminate].
    destruct (sl_duration sl); cbn [read_var bind]; [| discriminate].
    destruct (sl_position sl); cbn [read_var bind]; [| discriminate].
    destruct (sl_playing sl); cbn [read_var bind]; [| discriminate].
    intros [= <- <- <-]. split; [reflexivity | exact Et].
  - cbn [bind].
    destruct (sl_duration sl); cbn [read_var bind]; [| discriminate].
    destruct (sl_position sl); cbn [read_var bind]; [| discriminate].
    destruct (sl_song_path sl); cbn [read_var bind]; [| discriminate].
    destruct (sl_playing sl); cbn [read_var bind]; [| discriminate].
    intros [= <- <- <-]. repeat split.
Qed.

(** C5 (amended).  Artist and title are derived from the file path
    exactly when the artist or the title read from the tags, or left at
    the placeholder, is the literal string [Unknown]; any other value,
    the empty placeholder of suppress-unknown among them, is kept.  The
    derivation follows the rule: extension and outer slashes stripped, the
    final segment split on [" - "], or on ["-"] when that gives fewer than
    two tokens; the first two tokens are artist and title, and with a
    single token the second-to-last and last path segments are
    ([IndexError] when there is one segment only).  For well-separated
    names: [dir/A - T.ext] and [dir/A-T.ext] give [(A, T)], and
    [dir/folder/name.ext] without hyphen gives [(folder, name)].  With the
    placeholder [Unknown], the path [/music/Artist - Song.mp3] without tags
    gives artist [Artist] and title [Song]. *)
Theorem fallback_only_for_unknown :
  (forall (no_data output p : string) (pl : bool) (sd : song_info),
      cmus_status no_data output "" = Ok (Some (p, pl, sd)) ->
      exists sl,
        status_lines (status_init no_data) (Py.split_from newline 0 output) = Ok sl
        /\ sl_song_path sl = Some p
        /\ if String.eqb (sl_artist sl) "Unknown" || String.eqb (sl_title sl) "Unknown"
           then title_from_path p = Ok (artist sd, title sd)
           else artist sd = sl_artist sl /\ title sd = sl_title sl)
  /\ (forall path : string,
         title_from_path path =
         match path_rule path with
         | Some r => Ok r
         | None => Raise IndexError
         end)
  /\ (forall dir a t ext : string,
         separated a t ext ->
         title_from_path (dir ++ "/" ++ (a ++ " - " ++ t) ++ "." ++ ext) = Ok (a, t))
  /\ (forall dir a t ext : string,
         separated a t ext -> Py.starts_with " " t = false ->
         title_from_path (dir ++ "/" ++ (a ++ "-" ++ t) ++ "." ++ ext) = Ok (a, t))
  /\ (forall (dir folder name ext : string) (c : ascii) (rest : string),
         name = String c rest -> c <> "."%char ->
         has_char "/" folder = false -> folder <> "" ->
         has_char "/" name = false -> has_char "-" name = false ->
         has_char "/" ext = false -> has_char "." ext = false ->
         title_from_path (dir ++ "/" ++ folder ++ "/" ++ name ++ "." ++ ext)
         = Ok (folder, name))
  /\ cmus_status "Unknown" untagged_output ""
     = Ok (Some ("/music/Artist - Song.mp3", true,
                 SongInfo "Artist" "Unknown" "Song" "Unknown" "Unknown" "200" "10")).
Proof.
  split; [| split; [| split; [| split; [| split]]]].
  - intros no_data output p pl sd. unfold cmus_status. cbn [Py.truthy Py.split bind].
    match goal with
    | |- context [status_lines ?a ?b] => destruct (status_lines a b) as [sl | e] eqn:Es
    end; cbn [bind]; [| discriminate].
    intros H. exists sl. split; [exact Es |].
    exact (status_finish_fallback sl p pl sd H).
  - exact title_from_path_rule.
  - exact title_from_path_spaced.
  - exact title_from_path_bare.
  - exact title_from_path_folder.
  - reflexivity.
Qed.

Lemma fallback_only_for_unknown_witness :
  title_from_path ("/home/me/music" ++ "/" ++ ("Pink Floyd" ++ " - " ++ "Time") ++ "." ++ "flac")
  = Ok ("Pink Floyd", "Time")
  /\ title_from_path ("/home/me/music" ++ "/" ++ ("Queen" ++ "-" ++ "Innuendo") ++ "." ++ "mp3")
     = Ok ("Queen", "Innuendo")
  /\ title_from_path ("/home/me/music" ++ "/" ++ "Queen" ++ "/" ++ "Innuendo" ++ "." ++ "mp3")
     = Ok ("Queen", "Innuendo")
  /\ exists sl,
       status_lines (status_init "Unknown") (Py.split_from newline 0 untagged_output) = Ok sl
       /\ sl_song_path sl = Some "/music/Artist - Song.mp3".
Proof.
  split; [| split; [| split]].
  - refine (proj1 (proj2 (proj2 fallback_only_for_unknown))
              "/home/me/music" "Pink Floyd" "Time" "flac" _).
    repeat split.
  - refine (proj1 (proj2 (proj2 (proj2 fallback_only_for_unknown)))
              "/home/me/music" "Queen" "Innuendo" "mp3" _ eq_refl).
    repeat split.
  - refine (proj1 (proj2 (proj2 (proj2 (proj2 fallback_only_for_unknown))))
              "/home/me/music" "Queen" "Innuendo" "mp3" "I"%char "nnuendo"
              eq_refl _ eq_refl _ eq_refl eq_refl eq_refl eq_refl); discriminate.
  - destruct (proj1 fallback_only_for_unknown "Unknown" untagged_output
                "/music/Artist - Song.mp3" true
                (SongInfo "Artist" "Unknown" "Song" "Unknown" "Unknown" "200" "10")
                eq_refl) as (sl & H1 & H2 & _).
    exists sl. split; assumption.
Defined.

(** C5, as first stated, fails: with suppress-unknown the placeholder is
    the empty string; artist and title resolve to it and nothing is
    derived from the path. *)
Lemma empty_placeholder_no_fallback :
  cmus_status "" untagged_output ""
  = Ok (Some ("/music/Artist - Song.mp3", true, SongInfo "" "" "" "" "" "200" "10")).
Proof. reflexivity. Qed.

(** ** When the player goes away *)

Lemma do_probe_absent (w : world) (c : consts) (m : machine) :
  probe_at w (no_data c) (n_probe m) = Ok None ->
  do_probe w c m =
  Ok (Machine (timer m) None None None (song_path_old m) (playing_old m)
              (play_time m) (S (n_probe m)) (n_update m) (n_time m) (n_tick m)).
Proof. intros H. rewrite do_probe_unfold, H. reflexivity. Qed.

(** X1.  A turn that probes and gets the [None] triple, while a track
    was followed, leaves the loop at once: nothing is pushed in that
    turn. *)
Theorem tick_player_lost (w : world) (c : consts) (m : machine) (old : string)
        (Hw : forall k, (n_probe m <= k)%nat -> probe_at w (no_data c) k = Ok None)
        (Hprobe : update_rpc c <= timer m \/ timer m mod check_status c = 0)
        (Hold : song_path_old m = Some old) :
  exists m', tick w c m = ([], Break m') /\ song_path m' = None.
Proof.
  unfold tick, poll.
  destruct (Z.leb_spec (update_rpc c) (timer m)) as [Hge | Hlt].
  - rewrite (do_probe_absent w c (set_timer 0 m) (Hw _ (Nat.le_refl _))).
    unfold set_timer. cbn [bind timer song_path_old playing_old play_time n_probe
                               n_update n_time n_tick].
    rewrite Zmod_0_l. cbn [Z.eqb].
    erewrite do_probe_absent by (cbn [n_probe]; apply Hw; apply Nat.le_succ_diag_r).
    unfold detect, changed. cbn. rewrite Hold. cbn.
    eexists. split; reflexivity.
  - destruct Hprobe as [Hge | Hmod]; [lia |]. cbn [bind]. rewrite Hmod. cbn [Z.eqb].
    rewrite (do_probe_absent w c m (Hw _ (Nat.le_refl _))).
    unfold detect, changed. cbn. rewrite Hold. cbn.
    eexists. split; reflexivity.
Qed.

Lemma tick_player_lost_witness :
  fst (main vanishing_world defaults 50) = [EvConnect; EvUpdate (default_update "playing1"); EvClose]
  /\ exists m', tick vanishing_world (prelude defaults)
                  (Machine 40 (Some "/a") (Some true) (Some sample_info) (Some "/a")
                           (Some true) None 3 1 0 40)
                = ([], Break m').
Proof.
  split; [vm_compute; reflexivity |].
  destruct (tick_player_lost vanishing_world (prelude defaults)
              (Machine 40 (Some "/a") (Some true) (Some sample_info) (Some "/a")
                       (Some true) None 3 1 0 40) "/a") as (m' & E & _).
  - intros k Hk. unfold probe_at. cbn [vanishing_world cmus_remote n_probe] in *.
    destruct (Nat.ltb_spec k 3); [lia | reflexivity].
  - right. reflexivity.
  - reflexivity.
  - exists m'. exact E.
Defined.

(** ** A session from start to pause *)

(** With the default configuration (interval 15, clamped to 5): the first
    turn pushes details [Title] and state [Artist] with the playing image;
    the same probes push nothing more in the first 40 turns; the probe of
    turn 40 finds the track paused and that turn pushes at once, with the
    paused image. *)
Example session_until_pause :
  fst (main pausing_world defaults 1) = [EvConnect; EvUpdate (default_update "playing1")]
  /\ fst (main pausing_world defaults 40) = [EvConnect; EvUpdate (default_update "playing1")]
  /\ fst (main pausing_world defaults 41)
     = [EvConnect; EvUpdate (default_update "playing1"); EvUpdate (default_update "paused1")].
Proof. repeat split; vm_compute; reflexivity. Qed.

(** ** The clock text, for every integer *)

Lemma two_digits_plain (x : Z) :
  0 <= x < 100 ->
  has_char ":" (two_digits x) = false /\ PyInt.int (two_digits x) = Ok x.
Proof.
  intros Hx.
  assert (Hk : exists k : nat, (k < 100)%nat /\ x = Z.of_nat k).
  { exists (Z.to_nat x). split; lia. }
  destruct Hk as (k & Hk & ->). clear Hx.
  do 100 (destruct k as [| k]; [vm_compute; split; reflexivity |]).
  lia.
Qed.

Lemma clock_fields (n : Z) :
  0 <= (n / 3600) mod 24 < 24 /\ 0 <= (n / 60) mod 60 < 60 /\ 0 <= n mod 60 < 60.
Proof. repeat split; apply Z.mod_pos_bound; lia. Qed.

Lemma to_h_m_s_fields (n : Z) :
  to_h_m_s n
  = two_digits ((n / 3600) mod 24) ++ ":" ++ two_digits ((n / 60) mod 60)
    ++ ":" ++ two_digits (n mod 60).
Proof.
  destruct (clock_fields n) as (Hh & Hm & Hs).
  rewrite to_h_m_s_always_hours, !pad2_two_digits by lia. reflexivity.
Qed.

(** The three fields of the clock add up to the seconds since midnight. *)
Lemma clock_sum (n : Z) :
  3600 * ((n / 3600) mod 24) + 60 * ((n / 60) mod 60) + n mod 60 = n mod seconds_per_day.
Proof.
  unfold seconds_per_day.
  pose proof (Z.div_mod n 60 ltac:(lia)) as E1.
  pose proof (Z.div_mod (n / 60) 60 ltac:(lia)) as E2.
  pose proof (Z.div_mod (n / 3600) 24 ltac:(lia)) as E3.
  rewrite div60_div60 in E2.
  assert (E4 : n / 3600 / 24 = n / 86400) by (rewrite Z.div_div by lia; reflexivity).
  rewrite E4 in E3.
  pose proof (Z.div_mod n 86400 ltac:(lia)) as E5.
  lia.
Qed.

(** X3.  For every integer, negative ones included, [to_h_m_s] prints
    exactly [HH:MM:SS], eight characters: the hours are never clipped,
    not even when they are zero, and whole days are dropped, so that the
    text repeats every 86400 seconds. *)
Theorem to_h_m_s_full_clock (n : Z) :
  to_h_m_s n
  = two_digits ((n / 3600) mod 24) ++ ":" ++ two_digits ((n / 60) mod 60)
    ++ ":" ++ two_digits (n mod 60)
  /\ String.length (to_h_m_s n) = 8%nat
  /\ (forall k : Z, to_h_m_s (n + seconds_per_day * k) = to_h_m_s n).
Proof.
  split; [apply to_h_m_s_fields |]. split.
  - rewrite to_h_m_s_fields. reflexivity.
  - intros k. rewrite !to_h_m_s_fields. unfold seconds_per_day.
    replace (n + 86400 * k) with (n + (24 * k) * 3600) at 1 by lia.
    replace (n + 86400 * k) with (n + (1440 * k) * 60) at 1 by lia.
    replace (n + 86400 * k) with (n + (1440 * k) * 60) by lia.
    rewrite !Z.div_add by lia.
    replace (n / 3600 + 24 * k) with (n / 3600 + k * 24) by lia.
    replace (n / 60 + 1440 * k) with (n / 60 + (24 * k) * 60) by lia.
    rewrite !Z.mod_add by lia. reflexivity.
Qed.

Lemma split_clock (h m s : string) :
  has_char ":" h = false -> has_char ":" m = false -> has_char ":" s = false ->
  Py.split ":" (h ++ ":" ++ m ++ ":" ++ s) = Ok [h; m; s].
Proof.
  intros Hh Hm Hs. cbn [Py.split].
  change (h ++ ":" ++ m ++ ":" ++ s) with (h ++ String ":" (m ++ String ":" s)).
  rewrite !split_char_append, !split_char_absent by assumption. reflexivity.
Qed.

Lemma of_h_m_s_to_h_m_s (n : Z) : of_h_m_s (to_h_m_s n) = Ok (n mod seconds_per_day).
Proof.
  destruct (clock_fields n) as (Hh & Hm & Hs).
  destruct (two_digits_plain ((n / 3600) mod 24)) as (Ch & Ih); [lia |].
  destruct (two_digits_plain ((n / 60) mod 60)) as (Cm & Im); [lia |].
  destruct (two_digits_plain (n mod 60)) as (Cs & Is); [lia |].
  unfold of_h_m_s. rewrite to_h_m_s_fields, (split_clock _ _ _ Ch Cm Cs).
  cbn [bind]. rewrite Ih, Im, Is. cbn [bind]. rewrite clock_sum. reflexivity.
Qed.

(** X4.  The clock text can be read back: splitting it on the colons and
    reading the three fields as integers gives the seconds since
    midnight; so two numbers of seconds are printed alike exactly when
    they differ by whole days. *)
Theorem to_h_m_s_read_back (n : Z) :
  of_h_m_s (to_h_m_s n) = Ok (n mod seconds_per_day)
  /\ (forall k : Z, to_h_m_s n = to_h_m_s k <-> n mod seconds_per_day = k mod seconds_per_day).
Proof.
  split; [apply of_h_m_s_to_h_m_s |].
  intros k. split.
  - intros E. pose proof (of_h_m_s_to_h_m_s n) as Hn.
    rewrite E, of_h_m_s_to_h_m_s in Hn. injection Hn as Hn. symmetry. exact Hn.
  - intros E. rewrite !to_h_m_s_fields.
    pose proof (clock_sum n) as Sn. pose proof (clock_sum k) as Sk.
    destruct (clock_fields n) as (Hh & Hm & Hs).
    destruct (clock_fields k) as (Kh & Km & Ks).
    rewrite E in Sn.
    assert (n mod 60 = k mod 60) by lia.
    assert ((n / 60) mod 60 = (k / 60) mod 60) by lia.
    assert ((n / 3600) mod 24 = (k / 3600) mod 24) by lia.
    congruence.
Qed.

(** ** Times that are no integers *)

Lemma custom_format_odd_times (template : string) (sd : song_info) :
  numeric sd = false -> custom_format template (Some sd) = Raise ValueError.
Proof.
  unfold numeric, custom_format, PyInt.int. cbn [bind].
  destruct (PyInt.parse (duration sd)); [| reflexivity]. cbn [bind].
  destruct (PyInt.parse (position sd)); [discriminate | reflexivity].
Qed.

Lemma make_buttons_odd_times (c : consts) (sd : song_info) :
  numeric sd = false ->
  make_buttons c (Some sd) = Ok None \/ make_buttons c (Some sd) = Raise ValueError.
Proof.
  intros Hn. unfold make_buttons.
  destruct (Py.truthy (button_one c) && Py.truthy (button_url_one c)); [| left; reflexivity].
  right. rewrite !(custom_format_odd_times _ sd Hn). destruct (negb _); reflexivity.
Qed.

Lemma build_update_odd_times (w : world) (c : consts) (m : machine) (sd : song_info) :
  song_data m = Some sd -> numeric sd = false ->
  available_small_images c = Some true ->
  build_update w c m = Raise ValueError.
Proof.
  intros Hsd Hn Ha. unfold build_update. rewrite Hsd, Ha.
  destruct (make_buttons_odd_times c sd Hn) as [-> | ->]; [| reflexivity].
  cbn [bind read_var].
  destruct (song_time c && use_timestamp c).
  - unfold PyInt.int. destruct (PyInt.parse (position sd)); [| reflexivity].
    cbn [bind song_data].
    rewrite (custom_format_odd_times _ sd Hn). reflexivity.
  - cbn [bind]. rewrite ?Hsd, (custom_format_odd_times _ sd Hn). reflexivity.
Qed.

(** Polling with the timer at zero, in a world whose probes all find a
    loaded track with a record that satisfies [P]. *)
Lemma poll_at_zero (P : song_info -> Prop) (w : world) (c : consts) (m : machine) :
  (forall k, exists path pl sd,
      probe_at w (no_data c) k = Ok (Some (path, pl, sd)) /\ path <> "" /\ P sd) ->
  timer m = 0 ->
  exists m1 path sd,
    poll w c m = Ok m1 /\ timer m1 = 0
    /\ song_path m1 = Some path /\ path <> ""
    /\ song_data m1 = Some sd /\ P sd.
Proof.
  intros Hw Ht. unfold poll.
  assert (Hprobe : forall m0, timer m0 = 0 ->
            exists m1 path sd,
              do_probe w c m0 = Ok m1 /\ timer m1 = 0
              /\ song_path m1 = Some path /\ path <> ""
              /\ song_data m1 = Some sd /\ P sd).
  { intros m0 H0. destruct (Hw (n_probe m0)) as (path & pl & sd & E & Hne & Hn).
    rewrite (do_probe_some w c m0 path pl sd E).
    eexists _, path, sd. split; [reflexivity |]. cbn. repeat split; assumption. }
  destruct (update_rpc c <=? timer m).
  - destruct (Hprobe (set_timer 0 m) eq_refl) as (m1 & p1 & sd1 & -> & T1 & _).
    cbn [bind]. rewrite T1, Zmod_0_l. cbn [Z.eqb]. apply Hprobe. exact T1.
  - cbn [bind]. rewrite Ht, Zmod_0_l. cbn [Z.eqb]. apply Hprobe. exact Ht.
Qed.

(** Change detection on a loaded track never leaves the loop, and keeps
    a timer at zero and the record. *)
Lemma detect_loaded (m : machine) (path : string) :
  song_path m = Some path -> path <> "" -> timer m = 0 ->
  exists m', detect m = (m', false) /\ timer m' = 0 /\ song_data m' = song_data m.
Proof.
  intros P N T. unfold detect. destruct (changed m).
  - rewrite P. cbn [path_truthy]. apply truthy_true in N. rewrite N.
    eexists. split; [reflexivity |]. split; reflexivity.
  - exists m. split; [reflexivity |]. split; [exact T | reflexivity].
Qed.

(** X5.  The renderer reads duration and position as integers whatever
    the template holds.  For times in plain text (ASCII, at most 4300
    characters, where integers are read here as Python reads them): a
    rendering succeeds exactly when both are integer literals, and raises
    [ValueError] otherwise; and a program that meets records with other
    times (track loaded, presence service reachable, both state images
    configured) dies of it in the first turn of the loop, after
    connecting and before any update. *)
Theorem odd_times_stop_the_program (w : world) (cfg : config)
        (Hw : always_odd_times w (cfg_no_data cfg))
        (Hco : connect_ok w = true) (Hi : has_small_images cfg) :
  (forall (template : string) (sd : song_info),
      plain_times sd = true ->
      ((exists s, custom_format template (Some sd) = Ok s) <-> numeric sd = true))
  /\ (forall (template : string) (sd : song_info),
         plain_times sd = true -> numeric sd = false ->
         custom_format template (Some sd) = Raise ValueError)
  /\ (forall fuel, main w cfg (S fuel) = ([EvConnect], Died ValueError)).
Proof.
  split; [| split; [intros template sd _; apply custom_format_odd_times |]].
  { intros template sd _. split; [| apply custom_format_total].
    intros (s & E). destruct (numeric sd) eqn:Hn; [reflexivity |].
    rewrite (custom_format_odd_times template sd Hn) in E. discriminate. }
  intros fuel. rewrite main_unfold.
  destruct (Hw O) as (path & pl & sd & -> & Hne & Hn & _).
  apply truthy_true in Hne. rewrite Hne, Hco. cbn [negb]. cbv zeta.
  cbn [loop]. unfold tick.
  rewrite <- prelude_no_data in Hw.
  match goal with
  | |- context [poll ?w0 ?c ?m] =>
      destruct (poll_at_zero
                  (fun sd => numeric sd = false /\ plain_times sd = true)
                  w0 c m Hw eq_refl)
        as (m1 & p1 & sd1 & -> & T1 & P1 & N1 & D1 & Hn1 & _)
  end.
  destruct (detect_loaded m1 p1 P1 N1 T1) as (m2 & -> & T2 & D2).
  rewrite T2. cbn [Z.eqb]. unfold push.
  rewrite (build_update_odd_times w (prelude cfg) m2 sd1); try assumption.
  - reflexivity.
  - rewrite D2. exact D1.
  - apply prelude_has_images. exact Hi.
Qed.

Lemma odd_duration_world_odd : always_odd_times odd_duration_world "Unknown".
Proof.
  intros k. eexists _, _, _. split; [vm_compute; reflexivity |].
  split; [discriminate |]. split; reflexivity.
Qed.

Lemma odd_times_stop_the_program_witness :
  main odd_duration_world defaults 3 = ([EvConnect], Died ValueError).
Proof.
  exact (proj2 (proj2 (odd_times_stop_the_program odd_duration_world defaults
                         odd_duration_world_odd eq_refl defaults_have_images)) 2%nat).
Defined.

(** ** Templates in pieces *)

Lemma ends_with_tail (c a b : ascii) (s : string) :
  ends_with c (String a (String b s)) = ends_with c (String b s).
Proof. reflexivity. Qed.

(** Reading a template that does not end with a percent sign never looks
    past its end. *)
Lemma lex_app (s1 s2 : string) :
  ends_with "%" s1 = false -> lex (s1 ++ s2) = (lex s1 ++ lex s2)%list.
Proof.
  induction s1 as [s1 IH] using string_length_ind. intros He.
  destruct s1 as [| a t]; [reflexivity |].
  assert (Ht : forall b r, t = String b r -> ends_with "%" t = false).
  { intros b r ->. exact He. }
  cbn [append lex]. destruct (Ascii.eqb a "%") eqn:Ea.
  - destruct t as [| c s']; [cbn in He; rewrite Ea in He; discriminate |].
    cbn [append].
    assert (Hs' : ends_with "%" s' = false -> lex (s' ++ s2) = (lex s' ++ lex s2)%list).
    { intros H. apply IH; [cbn; lia | exact H]. }
    assert (Es' : Ascii.eqb c "%" = true \/ (exists k, key_of_char c = Some k) ->
                  ends_with "%" s' = false).
    { intros Hc. destruct s' as [| d s'']; [reflexivity |]. exact He. }
    destruct (Ascii.eqb c "%") eqn:Ec.
    + rewrite Hs' by (apply Es'; left; reflexivity). reflexivity.
    + destruct (key_of_char c) as [k |] eqn:Ek.
      * rewrite Hs' by (apply Es'; right; exists k; reflexivity). reflexivity.
      * change (String c (s' ++ s2)) with (String c s' ++ s2).
        rewrite IH; [reflexivity | cbn; lia | exact (Ht c s' eq_refl)].
  - destruct t as [| c s']; [reflexivity |].
    rewrite IH; [reflexivity | cbn; lia | exact (Ht c s' eq_refl)].
Qed.

Lemma flat_app (l1 l2 : list string) : flat (l1 ++ l2) = flat l1 ++ flat l2.
Proof.
  induction l1 as [| x l1 IH]; [reflexivity |].
  cbn [app flat]. rewrite IH, append_assoc. reflexivity.
Qed.

(** X6.  On metadata without percent signs the renderer works piece by
    piece: a template cut anywhere but behind a percent sign renders as
    the renderings of its two parts, one after the other. *)
Theorem custom_format_piecewise (s1 s2 : string) (sd : song_info)
        (Hn : numeric sd = true) (Hfree : percent_free sd = true)
        (Hcut : ends_with "%" s1 = false) :
  exists r1 r2,
    custom_format s1 (Some sd) = Ok r1 /\ custom_format s2 (Some sd) = Ok r2
    /\ custom_format (s1 ++ s2) (Some sd) = Ok (r1 ++ r2).
Proof.
  destruct (numeric_ints sd Hn) as (d & p & Hd & Hp).
  exists (render_spec (key_value sd d p) s1), (render_spec (key_value sd d p) s2).
  rewrite !(custom_format_faithful _ sd d p Hd Hp Hfree).
  repeat split. f_equal. unfold render_spec.
  rewrite (lex_app s1 s2 Hcut), map_app, flat_app. reflexivity.
Qed.

Lemma custom_format_piecewise_witness :
  exists r1 r2,
    custom_format "%t by " (Some sample_info) = Ok r1
    /\ custom_format "%a" (Some sample_info) = Ok r2
    /\ custom_format "%t by %a" (Some sample_info) = Ok (r1 ++ r2).
Proof.
  exact (custom_format_piecewise "%t by " "%a" sample_info eq_refl eq_refl eq_refl).
Defined.

(** ** A tag that reads like a template *)

(** A text without [%%] and without the key [k] has no token for [k]. *)
Lemma lex_without_key (k : key) (s : string) :
  contains "%%" s = false -> contains (key_template k) s = false ->
  forall v v' : key -> string,
    (forall j, j <> k -> v j = v' j) ->
    List.map (token_out v) (lex s) = List.map (token_out v') (lex s).
Proof.
  intros H2 Hk v v' Hv.
  induction s as [s IH] using string_length_ind.
  destruct s as [| a t]; [reflexivity |].
  cbn [contains] in H2, Hk.
  apply Bool.orb_false_iff in H2. destruct H2 as [H2 H2t].
  apply Bool.orb_false_iff in Hk. destruct Hk as [Hk Hkt].
  cbn [lex]. destruct (Ascii.eqb_spec a "%") as [-> | Ea].
  - destruct t as [| c s']; [reflexivity |].
    cbn [Py.starts_with] in H2. rewrite Ascii.eqb_refl in H2. cbn [andb] in H2.
    rewrite Bool.andb_true_r in H2. rewrite Ascii.eqb_sym in H2. rewrite H2.
    unfold key_template in Hk. cbn [Py.starts_with] in Hk.
    rewrite Ascii.eqb_refl, Bool.andb_true_r in Hk. cbn [andb] in Hk.
    destruct (key_of_char c) as [j |] eqn:Ej.
    + cbn [List.map token_out]. rewrite Hv.
      * f_equal. apply IH; [cbn; lia | |].
        -- cbn [contains] in H2t. apply Bool.orb_false_iff in H2t. tauto.
        -- cbn [contains] in Hkt. apply Bool.orb_false_iff in Hkt. tauto.
      * intros ->. rewrite (key_of_char_char c k Ej), Ascii.eqb_refl in Hk. discriminate.
    + cbn [List.map token_out]. f_equal. apply IH; [cbn; lia | assumption | assumption].
  - cbn [List.map token_out]. f_equal. apply IH; [cbn; lia | assumption | assumption].
Qed.

Lemma custom_format_artist_blind (template : string) (sd : song_info) (a : string) :
  contains "%%" template = false -> contains "%a" template = false ->
  custom_format template (Some sd) = custom_format template (Some (with_artist a sd)).
Proof.
  intros H2 Ha. unfold custom_format, with_artist. cbn [bind artist album title genre date
                                               duration position].
  rewrite (replace_absent "%%" sentinel template H2).
  rewrite !(replace_absent "%a" _ template Ha). reflexivity.
Qed.

(** X7.  The artist tag is itself read as a template: with the default
    state text [%a], an artist that holds neither [%%] nor [%a] is
    rendered as if it were the template, so that the keys in it are
    replaced by the other tags and the times of the track. *)
Theorem custom_format_expands_artist (sd : song_info) (d p : Z)
        (Hd : PyInt.int (duration sd) = Ok d) (Hp : PyInt.int (position sd) = Ok p)
        (H2 : contains "%%" (artist sd) = false)
        (Ha : contains "%a" (artist sd) = false) :
  custom_format "%a" (Some sd) = custom_format (artist sd) (Some sd)
  /\ (percent_free_but_artist sd = true ->
      custom_format "%a" (Some sd) = Ok (render_spec (key_value sd d p) (artist sd))).
Proof.
  assert (E : custom_format "%a" (Some sd) = custom_format (artist sd) (Some sd)).
  { rewrite (custom_format_chain "%a" sd d p Hd Hp).
    rewrite (custom_format_chain (artist sd) sd d p Hd Hp).
    rewrite (replace_absent "%%" sentinel (artist sd) H2).
    rewrite (replace_absent "%a" _ (artist sd) Ha).
    change (Py.replace "%a" (artist sd) (Py.replace "%%" sentinel "%a"))
      with (artist sd ++ "").
    rewrite append_empty_r. reflexivity. }
  split; [exact E |].
  intros Hfree. rewrite E.
  rewrite (custom_format_artist_blind (artist sd) sd "" H2 Ha).
  rewrite (custom_format_faithful (artist sd) (with_artist "" sd) d p Hd Hp Hfree).
  f_equal. unfold render_spec. f_equal.
  apply (lex_without_key KArtist (artist sd) H2 Ha).
  intros j Hj. destruct j; try reflexivity. contradiction.
Qed.

Lemma custom_format_expands_artist_witness :
  custom_format "%a" (Some template_artist_info) = Ok "Title (2020)".
Proof.
  exact (proj2 (custom_format_expands_artist template_artist_info 200 10
                  eq_refl eq_refl eq_refl eq_refl) eq_refl).
Defined.

(** ** Reading the report of the player *)

(** Joining what a split gave restores the text. *)
Lemma join_split_char (c : ascii) (s : string) :
  Py.join (String c "") (Py.split_from (String c "") 0 s) = s.
Proof.
  induction s as [| a s IH]; [reflexivity |].
  cbn [Py.split_from Py.starts_with String.length Nat.pred].
  rewrite Bool.andb_true_r.
  pose proof (split_from_nonempty (String c "") 0 s) as Hne.
  destruct (Py.split_from (String c "") 0 s) as [| h t] eqn:E; [contradiction |].
  destruct (Ascii.eqb_spec c a) as [-> | _].
  - change (Py.join (String a "") ("" :: h :: t))
      with (String a (Py.join (String a "") (h :: t))).
    rewrite IH. reflexivity.
  - destruct t as [| h' t].
    + cbn [Py.join] in IH |- *. rewrite IH. reflexivity.
    + change (Py.join (String c "") (String a h :: h' :: t))
        with (String a (Py.join (String c "") (h :: h' :: t))).
      rewrite IH. reflexivity.
Qed.

Lemma split_single (c : ascii) (s x : string) :
  Py.split_from (String c "") 0 s = [x] -> s = x.
Proof.
  intros E. rewrite <- (join_split_char c s), E. reflexivity.
Qed.

Lemma one_line_spec (s : string) : one_line s = true -> has_char "010" s = false.
Proof. unfold one_line. destruct (has_char "010" s); [discriminate | reflexivity]. Qed.

Lemma is_word_spec (s : string) :
  is_word s = true -> has_char " " s = false /\ has_char "010" s = false.
Proof.
  unfold is_word, one_line. destruct (has_char " " s); [discriminate |].
  destruct (has_char "010" s); [discriminate | split; reflexivity].
Qed.

Lemma split_line_head (l rest : string) :
  has_char "010" l = false ->
  Py.split_from newline 0 (l ++ newline ++ rest) = l :: Py.split_from newline 0 rest.
Proof.
  intros Hl. unfold newline.
  change (l ++ String "010" "" ++ rest) with (l ++ String "010" rest).
  rewrite split_char_append, (split_char_absent "010" l Hl). reflexivity.
Qed.

(** Lines that end with a line feed each are told apart by the split,
    which leaves an empty text behind the last one. *)
Lemma split_lines (lines : list string) :
  forallb one_line lines = true ->
  Py.split_from newline 0 (flat (List.map (fun l => l ++ newline) lines))
  = (lines ++ [""])%list.
Proof.
  induction lines as [| l lines IH]; intros H; [reflexivity |].
  cbn [forallb] in H. apply Bool.andb_true_iff in H. destruct H as [Hl H].
  cbn [List.map flat]. rewrite append_assoc.
  rewrite (split_line_head l _ (one_line_spec l Hl)), (IH H). reflexivity.
Qed.

(** The words of a line that begins with a key. *)
Lemma split_key_line (key rest : string) :
  has_char " " key = false ->
  Py.split " " (key_line key rest) = Ok (key :: Py.split_from " " 0 rest).
Proof.
  intros Hk. unfold key_line. cbn [Py.split].
  change (key ++ " " ++ rest) with (key ++ String " " rest).
  rewrite split_char_append, (split_char_absent " " key Hk). reflexivity.
Qed.

Lemma status_line_status (sl : status_locals) (st : string) :
  has_char " " st = false ->
  status_line sl (key_line "status" st)
  = Ok (StatusLocals (sl_song_path sl) (Some (String.eqb st "playing"))
          (sl_artist sl) (sl_album sl) (sl_title sl) (sl_genre sl) (sl_date sl)
          (sl_duration sl) (sl_position sl)).
Proof.
  intros Hst. unfold status_line.
  rewrite (split_key_line "status" st eq_refl), (split_char_absent " " st Hst).
  reflexivity.
Qed.

Lemma status_line_file (sl : status_locals) (path : string) :
  status_line sl (key_line "file" path)
  = Ok (StatusLocals (Some path) (sl_playing sl)
          (sl_artist sl) (sl_album sl) (sl_title sl) (sl_genre sl) (sl_date sl)
          (sl_duration sl) (sl_position sl)).
Proof.
  unfold status_line. rewrite (split_key_line "file" path eq_refl). reflexivity.
Qed.

Lemma status_line_duration (sl : status_locals) (d : string) :
  has_char " " d = false ->
  status_line sl (key_line "duration" d)
  = Ok (StatusLocals (sl_song_path sl) (sl_playing sl)
          (sl_artist sl) (sl_album sl) (sl_title sl) (sl_genre sl) (sl_date sl)
          (Some d) (sl_position sl)).
Proof.
  intros Hd. unfold status_line.
  rewrite (split_key_line "duration" d eq_refl), (split_char_absent " " d Hd).
  reflexivity.
Qed.

Lemma status_line_position (sl : status_locals) (p : string) :
  has_char " " p = false ->
  status_line sl (key_line "position" p)
  = Ok (StatusLocals (sl_song_path sl) (sl_playing sl)
          (sl_artist sl) (sl_album sl) (sl_title sl) (sl_genre sl) (sl_date sl)
          (sl_duration sl) (Some p)).
Proof.
  intros Hp. unfold status_line.
  rewrite (split_key_line "position" p eq_refl), (split_char_absent " " p Hp).
  reflexivity.
Qed.

Lemma status_line_setting (sl : status_locals) (s : string) :
  status_line sl (setting_line s) = Ok sl.
Proof.
  unfold status_line, setting_line. rewrite (split_key_line "set" s eq_refl). reflexivity.
Qed.

(** A tag line gives its whole value, blanks and all, to the field of
    its name; a tag of another name changes nothing. *)
Lemma status_line_tag (sl : status_locals) (name value : string) :
  has_char " " name = false ->
  status_line sl (tag_line (name, value)) = Ok (with_tags [(name, value)] sl).
Proof.
  intros Hn. unfold status_line, tag_line. cbn [fst snd].
  rewrite (split_key_line "tag" (key_line name value) eq_refl).
  change (key_line name value) with (name ++ String " " value).
  rewrite split_char_append, (split_char_absent " " name Hn).
  cbn [bind app]. rewrite index_zero. cbn [bind String.eqb Ascii.eqb Bool.eqb].
  cbn [app]. rewrite index_one. cbn [bind List.skipn].
  rewrite join_split_char.
  unfold with_tags. cbn [tag_value fst snd].
  destruct (String.eqb_spec name "artist") as [-> | Ha]; [reflexivity |].
  destruct (String.eqb_spec name "album") as [-> | Hl]; [reflexivity |].
  destruct (String.eqb_spec name "title") as [-> | Ht]; [reflexivity |].
  destruct (String.eqb_spec name "genre") as [-> | Hg]; [reflexivity |].
  destruct (String.eqb_spec name "date") as [-> | Hy]; [reflexivity |].
  destruct sl; reflexivity.
Qed.

Lemma with_tags_cons (nv : string * string) (tags : list (string * string))
      (sl : status_locals) :
  with_tags (nv :: tags) sl = with_tags tags (with_tags [nv] sl).
Proof. reflexivity. Qed.

Lemma status_lines_app (sl : status_locals) (l1 l2 : list string) :
  status_lines sl (l1 ++ l2)
  = let* sl' := status_lines sl l1 in status_lines sl' l2.
Proof.
  revert sl. induction l1 as [| l l1 IH]; intros sl; [reflexivity |].
  cbn [app status_lines]. destruct (status_line sl l) as [sl' | e]; cbn [bind].
  - apply IH.
  - reflexivity.
Qed.

Lemma status_lines_tags (sl : status_locals) (tags : list (string * string)) :
  well_formed_tags tags = true ->
  status_lines sl (List.map tag_line tags) = Ok (with_tags tags sl).
Proof.
  revert sl. induction tags as [| [name value] tags IH]; intros sl H.
  - destruct sl; reflexivity.
  - cbn [well_formed_tags forallb fst snd] in H.
    apply Bool.andb_true_iff in H. destruct H as [Hnv H].
    apply Bool.andb_true_iff in Hnv. destruct Hnv as [Hn _].
    cbn [List.map status_lines].
    rewrite (status_line_tag sl name value (proj1 (is_word_spec name Hn))).
    cbn [bind]. rewrite (IH _ H). rewrite with_tags_cons. reflexivity.
Qed.

Lemma status_lines_settings (sl : status_locals) (settings : list string) :
  status_lines sl (List.map setting_line settings) = Ok sl.
Proof.
  induction settings as [| s settings IH]; [reflexivity |].
  cbn [List.map status_lines]. rewrite status_line_setting. exact IH.
Qed.

Lemma one_line_key_line (key rest : string) :
  one_line key = true -> one_line rest = true -> one_line (key_line key rest) = true.
Proof.
  intros Hk Hr. apply one_line_spec in Hk. apply one_line_spec in Hr.
  unfold one_line, key_line. rewrite !has_char_append, Hk, Hr. reflexivity.
Qed.

Lemma is_word_one_line (s : string) : is_word s = true -> one_line s = true.
Proof. unfold is_word. intros H. apply Bool.andb_true_iff in H. tauto. Qed.

Lemma setting_lines_one_line (settings : list string) :
  forallb one_line settings = true ->
  forallb one_line (List.map setting_line settings) = true.
Proof.
  induction settings as [| s settings IH]; intros H; [reflexivity |].
  cbn [forallb List.map] in H |- *.
  apply Bool.andb_true_iff in H. destruct H as [Hs H].
  rewrite (IH H), Bool.andb_true_r.
  apply one_line_key_line; [reflexivity | exact Hs].
Qed.

Lemma tag_lines_one_line (tags : list (string * string)) :
  well_formed_tags tags = true ->
  forallb one_line (List.map tag_line tags) = true.
Proof.
  induction tags as [| [name value] tags IH]; intros H; [reflexivity |].
  cbn [well_formed_tags forallb List.map fst snd] in H |- *.
  apply Bool.andb_true_iff in H. destruct H as [Hnv H].
  apply Bool.andb_true_iff in Hnv. destruct Hnv as [Hn Hv].
  rewrite (IH H), Bool.andb_true_r.
  apply one_line_key_line; [reflexivity |].
  apply one_line_key_line; [apply is_word_one_line; exact Hn | exact Hv].
Qed.

Lemma status_line_empty (sl : status_locals) : status_line sl "" = Ok sl.
Proof. reflexivity. Qed.

(** The locals once the four head lines of a report were read. *)
Lemma status_lines_head (no_data st path d p : string) (rest : list string) :
  has_char " " st = false -> has_char " " d = false -> has_char " " p = false ->
  status_lines (status_init no_data)
    (key_line "status" st :: key_line "file" path
     :: key_line "duration" d :: key_line "position" p :: rest)
  = status_lines
      (StatusLocals (Some path) (Some (String.eqb st "playing"))
         no_data no_data no_data no_data no_data (Some d) (Some p)) rest.
Proof.
  intros Hst Hd Hp. cbn [status_lines].
  rewrite (status_line_status _ st Hst). cbn [bind].
  rewrite status_line_file. cbn [bind].
  rewrite (status_line_duration _ d Hd). cbn [bind].
  rewrite (status_line_position _ p Hp). cbn [bind].
  reflexivity.
Qed.

Lemma status_lines_tail (sl : status_locals) (tags : list (string * string))
      (settings : list string) :
  well_formed_tags tags = true ->
  status_lines sl ((List.map tag_line tags ++ List.map setting_line settings) ++ [""])
  = Ok (with_tags tags sl).
Proof.
  intros Htags. rewrite !status_lines_app.
  rewrite (status_lines_tags sl tags Htags). cbn [bind].
  rewrite status_lines_settings. cbn [bind status_lines].
  rewrite status_line_empty. reflexivity.
Qed.

Lemma report_one_line (st path d p : string) (tags : list (string * string))
      (settings : list string) :
  is_word st = true -> is_word d = true -> is_word p = true -> one_line path = true ->
  well_formed_tags tags = true -> forallb one_line settings = true ->
  forallb one_line (report_lines st path d p tags settings) = true.
Proof.
  intros Hst Hd Hp Hpath Htags Hsettings.
  unfold report_lines. rewrite forallb_app, forallb_app.
  rewrite (tag_lines_one_line tags Htags), (setting_lines_one_line settings Hsettings).
  cbn [forallb].
  rewrite !one_line_key_line by (reflexivity || assumption || now apply is_word_one_line).
  reflexivity.
Qed.

(** X8.  What a well-formed report of the player is read as.  For a
    report with the play state, the file, the duration and the position
    on lines of their own, followed by any tags and any settings: the
    path and the tag values are kept as they are, blanks included; a tag
    given twice counts the last time, a tag of another name and every
    setting are passed over; the track counts as playing only for the
    state [playing]; and artist and title come from the path when one of
    them reads [Unknown]. *)
Theorem cmus_status_reads_report (no_data st path d p : string)
        (tags : list (string * string)) (settings : list string)
        (Hst : is_word st = true) (Hd : is_word d = true) (Hp : is_word p = true)
        (Hpath : one_line path = true)
        (Htags : well_formed_tags tags = true)
        (Hsettings : forallb one_line settings = true) :
  cmus_status no_data (report st path d p tags settings) ""
  = let a := tag_value "artist" tags no_data in
    let t := tag_value "title" tags no_data in
    let* (a', t') :=
      if String.eqb a "Unknown" || String.eqb t "Unknown"
      then title_from_path path
      else Ok (a, t) in
    Ok (Some (path, String.eqb st "playing",
              SongInfo a' (tag_value "album" tags no_data) t'
                       (tag_value "genre" tags no_data) (tag_value "date" tags no_data)
                       d p)).
Proof.
  pose proof (report_one_line st path d p tags settings Hst Hd Hp Hpath Htags Hsettings)
    as Hlines.
  destruct (is_word_spec st Hst) as [Hst1 _].
  destruct (is_word_spec d Hd) as [Hd1 _].
  destruct (is_word_spec p Hp) as [Hp1 _].
  unfold cmus_status. cbn [Py.truthy Py.split bind].
  fold newline. unfold report. rewrite (split_lines _ Hlines).
  unfold report_lines. cbn [app].
  rewrite (status_lines_head no_data st path d p _ Hst1 Hd1 Hp1).
  rewrite (status_lines_tail _ tags settings Htags). cbn [bind].
  unfold status_finish, with_tags.
  cbn [sl_artist sl_title sl_album sl_genre sl_date sl_duration sl_position
       sl_song_path sl_playing read_var].
  destruct (String.eqb (tag_value "artist" tags no_data) "Unknown"
            || String.eqb (tag_value "title" tags no_data) "Unknown").
  - cbn [bind]. destruct (title_from_path path) as [[a' t'] | e]; reflexivity.
  - reflexivity.
Qed.

Lemma cmus_status_reads_report_witness :
  cmus_status "Unknown"
    (report "paused" "/music/My Song.flac" "245" "17"
            [("artist", "Various  Artists"); ("albumartist", "Nobody");
             ("title", "First"); ("title", "My  Song ")]
            ["repeat false"; "vol_left 80"]) ""
  = Ok (Some ("/music/My Song.flac", false,
              SongInfo "Various  Artists" "Unknown" "My  Song " "Unknown" "Unknown"
                       "245" "17")).
Proof.
  exact (cmus_status_reads_report "Unknown" "paused" "/music/My Song.flac" "245" "17"
           [("artist", "Various  Artists"); ("albumartist", "Nobody");
            ("title", "First"); ("title", "My  Song ")]
           ["repeat false"; "vol_left 80"]
           eq_refl eq_refl eq_refl eq_refl eq_refl eq_refl).
Defined.

(** ** Lines that stop the reading *)

Lemma split_bare (line k : string) :
  Py.split_from " " 0 line = [k] -> line = k.
Proof. apply split_single. Qed.

(** X9.  One line of the report raises only when it is a key with
    nothing behind it: [status], [tag], [duration] or [position] alone
    raise [IndexError]; every other line, the empty one and unknown keys
    included, is read without error. *)
Theorem status_line_raises_iff (sl : status_locals) (line : string) (e : exn) :
  status_line sl line = Raise e <-> e = IndexError /\ bare_key line = true.
Proof.
  split.
  - unfold status_line. cbn [Py.split bind].
    pose proof (split_from_nonempty " " 0 line) as Hne.
    destruct (Py.split_from " " 0 line) as [| k rest] eqn:E; [contradiction |].
    rewrite index_zero. cbn [bind].
    destruct rest as [| v rest].
    + apply split_bare in E. subst k. unfold bare_key.
      destruct (String.eqb_spec line "status") as [-> | H1];
        [intros [= <-]; split; reflexivity |].
      cbn [bind].
      destruct (String.eqb_spec line "file") as [-> | H2]; [discriminate |].
      destruct (String.eqb_spec line "tag") as [-> | H3];
        [intros [= <-]; split; reflexivity |].
      destruct (String.eqb_spec line "duration") as [-> | H4];
        [intros [= <-]; split; reflexivity |].
      destruct (String.eqb_spec line "position") as [-> | H5];
        [intros [= <-]; split; reflexivity |].
      discriminate.
    + rewrite index_one. cbn [List.skipn]. rewrite index_zero.
      destruct (String.eqb k "status"); cbn [bind];
        destruct (String.eqb k "file"); try discriminate;
        destruct (String.eqb k "tag"); cbn [bind];
        repeat match goal with
               | |- context [if ?b then _ else _] => destruct b
               end; discriminate.
  - intros [-> H]. unfold bare_key in H.
    repeat (apply Bool.orb_true_iff in H; destruct H as [H | H]);
      apply String.eqb_eq in H; subst line; reflexivity.
Qed.

(** ** Paths the fallback cannot read *)

Lemma split_char_present (c : ascii) (s : string) :
  has_char c s = true ->
  exists a b rest, Py.split_from (String c "") 0 s = a :: b :: rest.
Proof.
  induction s as [| x s IH]; intros H; [discriminate |].
  cbn [Py.split_from Py.starts_with String.length Nat.pred].
  rewrite Bool.andb_true_r.
  pose proof (split_from_nonempty (String c "") 0 s) as Hne.
  destruct (Ascii.eqb_spec c x) as [-> | Hx].
  - destruct (Py.split_from (String x "") 0 s) as [| h t]; [contradiction |].
    exists "", h, t. reflexivity.
  - cbn [has_char] in H. destruct (Ascii.eqb_spec x c) as [-> | _]; [contradiction |].
    cbn [orb] in H. destruct (IH H) as (a & b & rest & ->).
    exists (String x a), b, rest. reflexivity.
Qed.

Lemma rev_two (A : Type) (a b : A) (rest : list A) :
  exists l sl r, rev (a :: b :: rest) = l :: sl :: r.
Proof.
  destruct (list_from_end A (a :: b :: rest)) as [E | [(x & E) | (r & y & x & E)]];
    try discriminate.
  rewrite E, rev_app_distr. cbn [rev app]. exists x, y, (rev r). reflexivity.
Qed.

(** The rule finds nothing exactly when the stem is one segment without
    a hyphen. *)
Lemma path_rule_none (path : string) :
  path_rule path = None
  <-> has_char "/" (path_stem path) = false /\ has_char "-" (path_stem path) = false.
Proof.
  unfold path_rule. fold (path_stem path). set (stem := path_stem path).
  destruct (has_char "/" stem) eqn:Hs.
  - split; [| intros [H _]; discriminate H].
    destruct (split_char_present "/" stem Hs) as (a & b & rest & E).
    rewrite E. destruct (rev_two string a b rest) as (l & sl & r & Er). rewrite Er.
    repeat match goal with
           | |- context [match ?x with _ => _ end] => destruct x
           end; discriminate.
  - rewrite (split_char_absent "/" stem Hs). cbn [List.last rev app].
    destruct (has_char "-" stem) eqn:Hd.
    + split; [| intros [_ H]; discriminate H].
      destruct (split_char_present "-" stem Hd) as (a & b & rest & E).
      pose proof (split_from_nonempty " - " 0 stem) as Hne.
      destruct (Py.split_from " - " 0 stem) as [| x [| y r]]; [contradiction | |].
      * cbn [List.length Nat.leb]. rewrite E. discriminate.
      * cbn [List.length Nat.leb]. discriminate.
    + rewrite (split_spaced_absent stem Hd). cbn [List.length Nat.leb].
      rewrite (split_char_absent "-" stem Hd). split; [split |]; reflexivity.
Qed.

(** X10.  [title_from_path] raises exactly on the paths whose stem (the
    path without its extension and without the slashes at both ends)
    holds neither a slash nor a hyphen, a bare file name for one; the
    exception is [IndexError], from the second-to-last segment that does
    not exist. *)
Theorem title_from_path_fails_iff (path : string) (e : exn) :
  title_from_path path = Raise e
  <-> e = IndexError
      /\ has_char "/" (path_stem path) = false /\ has_char "-" (path_stem path) = false.
Proof.
  rewrite title_from_path_rule. rewrite <- path_rule_none.
  destruct (path_rule path) as [r |]; split.
  - discriminate.
  - intros [_ H]. discriminate H.
  - intros [= <-]. split; reflexivity.
  - intros [-> _]. reflexivity.
Qed.

(** ** The first separator of a file name *)

Lemma contains_tail (p : string) (c : ascii) (s : string) :
  contains p (String c s) = false -> contains p s = false.
Proof.
  cbn [contains]. intros H. apply Bool.orb_false_iff in H. destruct H as [_ H].
  destruct s; exact H.
Qed.

(** Splitting on [" - "] at its first occurrence. *)
Lemma split_first_separator (a rest : string) :
  contains " - " (a ++ " -") = false ->
  Py.split_from " - " 0 (a ++ " - " ++ rest) = a :: Py.split_from " - " 0 rest.
Proof.
  intros Ha. induction a as [| c a IH].
  - cbn [append Py.split_from Py.starts_with String.length Nat.pred].
    cbn. destruct rest; reflexivity.
  - change (String c a ++ " - " ++ rest) with (String c (a ++ " - " ++ rest)).
    cbn [Py.split_from].
    assert (Hno : Py.starts_with " - " (String c (a ++ " - " ++ rest)) = false).
    { change (String c a ++ " -") with (String c (a ++ " -")) in Ha.
      cbn [contains] in Ha. apply Bool.orb_false_iff in Ha. destruct Ha as [Ha _].
      cbn [Py.starts_with] in Ha |- *. destruct (Ascii.eqb " " c); [| reflexivity].
      cbn [andb] in Ha |- *.
      destruct a as [| c' a]; [reflexivity |].
      cbn [append Py.starts_with] in Ha |- *.
      destruct (Ascii.eqb "-" c'); [| reflexivity]. cbn [andb] in Ha |- *.
      destruct a as [| c'' a]; [discriminate Ha |].
      cbn [append Py.starts_with] in Ha |- *. exact Ha. }
    rewrite Hno, IH; [reflexivity |].
    change (String c a ++ " -") with (String c (a ++ " -")) in Ha.
    apply contains_tail in Ha. exact Ha.
Qed.

(** X11.  In a file name that holds [" - "], the artist is what stands
    before its first occurrence, hyphens included, and the title is what
    stands between the first and the second occurrence: anything behind
    a second [" - "] is dropped. *)
Theorem title_from_path_first_separator (dir a rest ext : string)
        (Hfirst : contains " - " (a ++ " -") = false)
        (Ha : has_char "/" a = false) (Hrest : has_char "/" rest = false)
        (Hdot : Py.starts_with "." a = false)
        (He : has_char "/" ext = false) (Hd : has_char "." ext = false) :
  title_from_path (dir ++ "/" ++ (a ++ " - " ++ rest) ++ "." ++ ext)
  = Ok (a, before_separator rest).
Proof.
  destruct (first_char_not_dot a "- " rest " " Hdot ltac:(discriminate))
    as (c & tail & Hname & Hc).
  assert (Hn : has_char "/" (a ++ " - " ++ rest) = false).
  { rewrite has_char_append, Ha. cbn. exact Hrest. }
  destruct (path_final_segment dir (a ++ " - " ++ rest) ext c tail Hname Hc Hn He Hd)
    as (front & Hseg).
  rewrite title_from_path_rule. unfold path_rule. rewrite Hseg, last_last.
  rewrite (split_first_separator a rest Hfirst).
  unfold before_separator.
  pose proof (split_from_nonempty " - " 0 rest) as Hne.
  destruct (Py.split_from " - " 0 rest) as [| t r]; [contradiction |].
  reflexivity.
Qed.

Lemma title_from_path_first_separator_witness :
  title_from_path ("/music/rock" ++ "/" ++ ("AC-DC" ++ " - " ++ "T.N.T - live") ++ "." ++ "mp3")
  = Ok ("AC-DC", "T.N.T").
Proof.
  exact (title_from_path_first_separator "/music/rock" "AC-DC" "T.N.T - live" "mp3"
           eq_refl eq_refl eq_refl eq_refl eq_refl eq_refl).
Defined.

(** ** No slash in what the fallback returns *)

(** The pieces of a split hold only characters of the text. *)
Lemma split_piece_chars (sep : string) (c : ascii) (s : string) :
  has_char c s = false ->
  forall (k : nat) (x : string), In x (Py.split_from sep k s) -> has_char c x = false.
Proof.
  induction s as [| a s IH]; intros Hs k x Hin.
  - destruct Hin as [<- | []]. reflexivity.
  - has_char_cons Hs as Ha Hs'. cbn [Py.split_from] in Hin.
    destruct k as [| k]; [| exact (IH Hs' _ x Hin)].
    destruct (Py.starts_with sep (String a s)).
    + destruct Hin as [<- | Hin]; [reflexivity | exact (IH Hs' _ x Hin)].
    + pose proof (IH Hs' O) as IH0.
      destruct (Py.split_from sep 0 s) as [| h t].
      * destruct Hin as [<- | []]. cbn [has_char]. rewrite Ha. reflexivity.
      * destruct Hin as [<- | Hin].
        -- cbn [has_char]. rewrite Ha. cbn [orb]. apply IH0. left. reflexivity.
        -- apply IH0. right. exact Hin.
Qed.

(** The pieces of a split on one character do not hold it. *)
Lemma split_char_pieces (c : ascii) (s x : string) :
  In x (Py.split_from (String c "") 0 s) -> has_char c x = false.
Proof.
  revert x. induction s as [| a s IH]; intros x Hin.
  - destruct Hin as [<- | []]. reflexivity.
  - cbn [Py.split_from Py.starts_with String.length Nat.pred] in Hin.
    rewrite Bool.andb_true_r in Hin.
    destruct (Ascii.eqb_spec c a) as [-> | Hne].
    + destruct Hin as [<- | Hin]; [reflexivity | exact (IH x Hin)].
    + destruct (Py.split_from (String c "") 0 s) as [| h t].
      * destruct Hin as [<- | []]. cbn [has_char].
        destruct (Ascii.eqb_spec a c); [congruence | reflexivity].
      * destruct Hin as [<- | Hin].
        -- cbn [has_char]. destruct (Ascii.eqb_spec a c); [congruence |].
           cbn [orb]. apply IH. left. reflexivity.
        -- apply IH. right. exact Hin.
Qed.

Lemma last_in (A : Type) (l : list A) (d : A) : l <> [] -> In (List.last l d) l.
Proof.
  induction l as [| a l IH]; intros H; [contradiction |].
  destruct l as [| b l]; [left; reflexivity |].
  right. apply IH. discriminate.
Qed.

(** X27.  Whatever the path, the artist and the title that
    [title_from_path] returns hold no slash: they are cut from one
    segment of the path, or are two whole segments. *)
Theorem title_from_path_no_slash (path a t : string)
        (Hok : title_from_path path = Ok (a, t)) :
  has_char "/" a = false /\ has_char "/" t = false.
Proof.
  rewrite title_from_path_rule in Hok. unfold path_rule in Hok.
  set (segments := Py.split_from "/" 0 _) in Hok.
  assert (Hseg : forall x, In x segments -> has_char "/" x = false)
    by (intros x; apply split_char_pieces).
  assert (Hfinal : has_char "/" (List.last segments "") = false).
  { apply Hseg. apply last_in. apply split_from_nonempty. }
  set (final := List.last segments "") in *.
  assert (Htok : forall sep x, In x (Py.split_from sep 0 final) -> has_char "/" x = false)
    by (intros sep x; apply split_piece_chars; exact Hfinal).
  destruct (2 <=? List.length (Py.split_from " - " 0 final))%nat.
  - destruct (Py.split_from " - " 0 final) as [| x [| y r]] eqn:E.
    + exfalso. exact (split_from_nonempty " - " 0 final E).
    + destruct (rev segments) as [| l [| sl r]] eqn:Er; try discriminate.
      injection Hok as <- <-.
      assert (Hin : forall z, In z (rev segments) -> has_char "/" z = false)
        by (intros z Hz; apply Hseg; apply in_rev; exact Hz).
      rewrite Er in Hin. split; apply Hin; cbn; tauto.
    + injection Hok as <- <-.
      split; apply (Htok " - "); rewrite E; cbn; tauto.
  - destruct (Py.split_from "-" 0 final) as [| x [| y r]] eqn:E.
    + exfalso. exact (split_from_nonempty "-" 0 final E).
    + destruct (rev segments) as [| l [| sl r]] eqn:Er; try discriminate.
      injection Hok as <- <-.
      assert (Hin : forall z, In z (rev segments) -> has_char "/" z = false)
        by (intros z Hz; apply Hseg; apply in_rev; exact Hz).
      rewrite Er in Hin. split; apply Hin; cbn; tauto.
    + injection Hok as <- <-.
      split; apply (Htok "-"); rewrite E; cbn; tauto.
Qed.

Lemma title_from_path_no_slash_witness :
  has_char "/" "AC-DC" = false /\ has_char "/" "T.N.T" = false.
Proof.
  exact (title_from_path_no_slash "/music/rock/AC-DC - T.N.T - live.mp3" "AC-DC" "T.N.T"
           eq_refl).
Defined.

(** ** The order of the calls to the presence client *)

Lemma loop_updates_only (fuel : nat) (w : world) (c : consts) (m : machine) :
  exists us : list update, fst (loop fuel w c m) = List.map EvUpdate us.
Proof.
  revert m. induction fuel as [| k IH]; intros m; [exists []; reflexivity |].
  cbn [loop]. pose proof (tick_events w c m) as Ht.
  destruct (tick w c m) as [ev o]. cbn [fst] in Ht.
  assert (Hev : exists us, ev = List.map EvUpdate us).
  { destruct Ht as [-> | [u ->]]; [exists [] | exists [u]]; reflexivity. }
  destruct Hev as (us & ->).
  destruct o as [m' | m' | e]; try (exists us; reflexivity).
  destruct (IH m') as (us' & E). destruct (loop k w c m') as [ev' o']. cbn [fst] in *.
  exists (us ++ us')%list. rewrite E, map_app. reflexivity.
Qed.

(** X12.  The presence client is always used in order: nothing before
    [connect], then updates only, and [close] last and only when [main]
    returns.  A run that ends before connecting (no track, or no
    presence service) makes no call at all. *)
Theorem presence_call_order (w : world) (cfg : config) (fuel : nat) :
  exists us : list update,
    match snd (main w cfg fuel) with
    | Returned =>
        fst (main w cfg fuel) = (EvConnect :: List.map EvUpdate us ++ [EvClose])%list
    | Running _ => fst (main w cfg fuel) = EvConnect :: List.map EvUpdate us
    | Died _ =>
        fst (main w cfg fuel) = []
        \/ fst (main w cfg fuel) = EvConnect :: List.map EvUpdate us
    end.
Proof.
  rewrite main_unfold.
  destruct (probe_at w (cfg_no_data cfg) 0) as [[[[sp pl] sd] |] | e];
    try (exists []; left; reflexivity).
  destruct (negb (Py.truthy sp)); [exists []; left; reflexivity |].
  destruct (negb (connect_ok w)); [exists []; left; reflexivity |].
  cbv zeta.
  match goal with
  | |- context [loop ?n ?w0 ?c ?m] =>
      destruct (loop_updates_only n w0 c m) as (us & E);
      destruct (loop n w0 c m) as [ev o]
  end.
  cbn [fst] in E. subst ev. exists us.
  destruct o as [m' | m' | e]; cbn [fst snd]; [reflexivity | reflexivity | right; reflexivity].
Qed.

(** ** The start time of an update *)

Lemma do_probe_play_time (w : world) (c : consts) (m m' : machine) :
  do_probe w c m = Ok m' -> play_time m' = play_time m.
Proof.
  rewrite do_probe_unfold.
  destruct (probe_at w (no_data c) (n_probe m)) as [[[[sp pl] sd] |] | e];
    cbn [bind]; intros [= <-]; reflexivity.
Qed.

Lemma poll_play_time (w : world) (c : consts) (m m' : machine) :
  poll w c m = Ok m' -> play_time m' = play_time m.
Proof.
  unfold poll. destruct (update_rpc c <=? timer m).
  - destruct (do_probe w c (set_timer 0 m)) as [m1 |] eqn:E1; cbn [bind]; [| discriminate].
    apply do_probe_play_time in E1. cbn [set_timer play_time] in E1.
    destruct (timer m1 mod check_status c =? 0).
    + intros E2. apply do_probe_play_time in E2. congruence.
    + intros [= <-]. exact E1.
  - cbn [bind]. destruct (timer m mod check_status c =? 0).
    + apply do_probe_play_time.
    + intros [= <-]. reflexivity.
Qed.

Lemma detect_play_time (m : machine) : play_time (fst (detect m)) = play_time m.
Proof. unfold detect. destruct (changed m); reflexivity. Qed.

(** Unless both [song_time] and [timestamp] are set, the push block
    leaves the start time alone and sends it as it is. *)
Lemma build_update_play_time (w : world) (c : consts) (m m' : machine) (u : update) :
  song_time c && use_timestamp c = false ->
  build_update w c m = Ok (u, m') -> m' = m /\ u_start u = play_time m.
Proof.
  intros Hf. unfold build_update. rewrite Hf.
  destruct (make_buttons c (song_data m)) as [b |]; [| discriminate]. cbn [bind].
  destruct (read_var _ (available_small_images c)) as [a |]; [| discriminate]. cbn [bind].
  destruct (custom_format (state c) _); cbn [bind]; [| discriminate].
  destruct (custom_format (details c) _); cbn [bind]; [| discriminate].
  destruct (read_var _ _); cbn [bind]; [| discriminate].
  intros [= <- <-]. split; reflexivity.
Qed.

Lemma tick_play_time (w : world) (c : consts) (m : machine) :
  song_time c && use_timestamp c = false ->
  (forall u, In (EvUpdate u) (fst (tick w c m)) -> u_start u = play_time m)
  /\ (forall m', snd (tick w c m) = Next m' -> play_time m' = play_time m).
Proof.
  intros Hf. unfold tick.
  destruct (poll w c m) as [m1 | e] eqn:Ep; [| split; [intros u [] | discriminate]].
  apply poll_play_time in Ep. pose proof (detect_play_time m1) as Ed.
  destruct (detect m1) as [m2 stop]. cbn [fst] in Ed.
  destruct stop; [split; [intros u [] | discriminate] |].
  assert (Hfin : forall m3 m', play_time m3 = play_time m ->
                               finish_tick w m3 = Next m' -> play_time m' = play_time m).
  { intros m3 m' H3. unfold finish_tick. destruct (sigint w (n_tick m3)); [discriminate |].
    intros [= <-]. exact H3. }
  destruct (timer m2 =? 0).
  - unfold push. destruct (build_update w c m2) as [[u m3] | e] eqn:Eb;
      [| split; [intros u [] | discriminate]].
    destruct (build_update_play_time w c m2 m3 u Hf Eb) as [-> Hu].
    destruct (update_ok w (n_update m2)); cbn [fst snd].
    + split.
      * intros u' [[= <-] | []]. congruence.
      * intros m'. apply Hfin. cbn. congruence.
    + split; [intros u' [] | discriminate].
  - cbn [fst snd]. split; [intros u [] |]. intros m'. apply Hfin. congruence.
Qed.

Lemma loop_play_time (fuel : nat) (w : world) (c : consts) (m : machine) (u : update) :
  song_time c && use_timestamp c = false ->
  In (EvUpdate u) (fst (loop fuel w c m)) -> u_start u = play_time m.
Proof.
  intros Hf. revert m. induction fuel as [| k IH]; intros m; [intros [] |].
  cbn [loop]. destruct (tick_play_time w c m Hf) as [Hu Hn].
  destruct (tick w c m) as [ev o]. cbn [fst snd] in Hu, Hn.
  destruct o as [m' | m' | e]; cbn [fst]; try apply Hu.
  specialize (IH m'). destruct (loop k w c m') as [ev' o']. cbn [fst] in *.
  intros Hin. apply in_app_or in Hin. destruct Hin as [Hin | Hin].
  - apply Hu. exact Hin.
  - rewrite (IH Hin). apply Hn. reflexivity.
Qed.

Lemma prelude_flags (cfg : config) :
  song_time (prelude cfg) = cfg_song_time cfg
  /\ use_timestamp (prelude cfg) = cfg_timestamp cfg.
Proof.
  unfold prelude.
  destruct (negb (Py.truthy (cfg_button_one cfg)));
    destruct (negb (Py.truthy (cfg_button_url_one cfg))); split; reflexivity.
Qed.

(** X13.  The start time sent with the updates.  Without [timestamp]
    every update is sent with no start time, whether [song_time] is set
    or not; with [timestamp] and without [song_time] every update carries
    the time read once when the program started, also after the track has
    changed. *)
Theorem start_time_policy (w : world) (cfg : config) (fuel : nat) (u : update)
        (Hu : In (EvUpdate u) (fst (main w cfg fuel))) :
  (cfg_timestamp cfg = false -> u_start u = None)
  /\ (cfg_timestamp cfg = true -> cfg_song_time cfg = false ->
      u_start u = Some (time_now w 0)).
Proof.
  destruct (prelude_flags cfg) as [Hst Hts].
  assert (Hloop : cfg_song_time cfg && cfg_timestamp cfg = false ->
                  u_start u = if cfg_timestamp cfg then Some (time_now w 0) else None).
  { intros Hf. revert Hu. rewrite main_unfold.
    destruct (probe_at w (cfg_no_data cfg) 0) as [[[[sp pl] sd] |] | e]; try intros [].
    destruct (negb (Py.truthy sp)); [intros [] |].
    destruct (negb (connect_ok w)); [intros [] |].
    cbv zeta. rewrite Hts.
    match goal with
    | |- context [loop ?n ?w0 ?c ?m] =>
        pose proof (loop_play_time n w0 c m u) as Hl;
        destruct (loop n w0 c m) as [ev o]
    end.
    rewrite Hst, Hts in Hl. specialize (Hl Hf). cbn [fst play_time] in Hl.
    intros Hin. apply Hl.
    destruct o as [m' | m' | e]; cbn [fst] in Hin.
    - destruct Hin as [Hin | Hin]; [discriminate | exact Hin].
    - destruct Hin as [Hin | Hin]; [discriminate |].
      apply in_app_or in Hin. destruct Hin as [Hin | [Hin | []]]; [exact Hin | discriminate].
    - destruct Hin as [Hin | Hin]; [discriminate | exact Hin]. }
  split.
  - intros Ht. rewrite Hloop by (rewrite Ht; apply Bool.andb_false_r).
    rewrite Ht. reflexivity.
  - intros Ht Hs. rewrite Hloop by (rewrite Hs; reflexivity).
    rewrite Ht. reflexivity.
Qed.

Lemma start_time_policy_witness :
  u_start (default_update "playing1") = None
  /\ u_start (Update "Artist" "Title" "cmus1" "playing1" None (Some 1000)) = Some 1000.
Proof.
  split.
  - refine (proj1 (start_time_policy steady_world defaults 1 (default_update "playing1") _)
                  eq_refl).
    vm_compute. right. left. reflexivity.
  - refine (proj2 (start_time_policy steady_world stamped 1
                     (Update "Artist" "Title" "cmus1" "playing1" None (Some 1000)) _)
                  eq_refl eq_refl).
    vm_compute. right. left. reflexivity.
Defined.

(** ** What a turn leaves behind *)

Lemma opt_string_eqb_eq (a b : option string) : opt_string_eqb a b = true -> a = b.
Proof.
  destruct a as [x |], b as [y |]; cbn; try discriminate; [| reflexivity].
  intros H. apply String.eqb_eq in H. congruence.
Qed.

Lemma opt_bool_eqb_eq (a b : option bool) : opt_bool_eqb a b = true -> a = b.
Proof.
  destruct a as [x |], b as [y |]; cbn; try discriminate; [| reflexivity].
  intros H. apply Bool.eqb_prop in H. congruence.
Qed.

(** After the change detection the remembered track is the one of the
    last probe. *)
Lemma detect_agrees (m : machine) :
  song_path_old (fst (detect m)) = song_path m
  /\ playing_old (fst (detect m)) = playing m
  /\ song_path (fst (detect m)) = song_path m
  /\ playing (fst (detect m)) = playing m
  /\ song_data (fst (detect m)) = song_data m.
Proof.
  unfold detect. destruct (changed m) eqn:E; cbn [fst]; [repeat split |].
  unfold changed in E. apply Bool.orb_false_iff in E. destruct E as [E1 E2].
  apply Bool.negb_false_iff in E1. apply Bool.negb_false_iff in E2.
  apply opt_string_eqb_eq in E1. apply opt_bool_eqb_eq in E2.
  repeat split; congruence.
Qed.

(** What the push block sends is made from the record and the play
    state it finds. *)
Lemma build_update_content (w : world) (c : consts) (m m' : machine) (u : update) :
  build_update w c m = Ok (u, m') ->
  custom_format (state c) (song_data m) = Ok (u_state u)
  /\ custom_format (details c) (song_data m) = Ok (u_details u)
  /\ make_buttons c (song_data m) = Ok (u_buttons u)
  /\ u_large_image u = large_image c
  /\ u_small_image u = (if flag_truthy (playing m) then playing_image c else paused_image c).
Proof.
  unfold build_update.
  destruct (make_buttons c (song_data m)) as [b |]; [| discriminate]. cbn [bind].
  destruct (available_small_images c) as [[|] |]; cbn [bind read_var]; try discriminate.
  - destruct (song_time c && use_timestamp c).
    + destruct (song_data m) as [sd |] eqn:Esd; cbn [bind]; [| discriminate].
      destruct (PyInt.int (position sd)) as [pos |]; cbn [bind]; [| discriminate].
      cbn [song_data playing].
      destruct (custom_format (state c) (Some sd)) as [st |]; cbn [bind]; [| discriminate].
      destruct (custom_format (details c) (Some sd)) as [de |]; cbn [bind]; [| discriminate].
      intros [= <- _]. repeat split.
    + cbn [bind].
      destruct (custom_format (state c) _) as [st |]; cbn [bind]; [| discriminate].
      destruct (custom_format (details c) _) as [de |]; cbn [bind]; [| discriminate].
      intros [= <- _]. repeat split.
  - destruct (song_time c && use_timestamp c).
    + destruct (song_data m) as [sd |] eqn:Esd; cbn [bind]; [| discriminate].
      destruct (PyInt.int (position sd)) as [pos |]; cbn [bind]; [| discriminate].
      cbn [song_data].
      destruct (custom_format (state c) (Some sd)) as [st |]; cbn [bind]; [| discriminate].
      destruct (custom_format (details c) (Some sd)) as [de |]; cbn [bind]; discriminate.
    + cbn [bind].
      destruct (custom_format (state c) _) as [st |]; cbn [bind]; [| discriminate].
      destruct (custom_format (details c) _) as [de |]; cbn [bind]; discriminate.
Qed.

Lemma finish_tick_next (w : world) (m m' : machine) :
  finish_tick w m = Next m' ->
  song_path m' = song_path m /\ playing m' = playing m /\ song_data m' = song_data m
  /\ song_path_old m' = song_path_old m /\ playing_old m' = playing_old m.
Proof.
  unfold finish_tick. destruct (sigint w (n_tick m)); [discriminate |].
  intros [= <-]. repeat split.
Qed.

(** The end of a turn that leads to a next one. *)
Lemma tick_leaves (w : world) (c : consts) (m m' : machine) (ev : list event) :
  tick w c m = (ev, Next m') ->
  agrees m'
  /\ (forall u, In (EvUpdate u) ev ->
        custom_format (state c) (song_data m') = Ok (u_state u)
        /\ custom_format (details c) (song_data m') = Ok (u_details u)
        /\ make_buttons c (song_data m') = Ok (u_buttons u)
        /\ u_large_image u = large_image c
        /\ u_small_image u
           = (if flag_truthy (playing m') then playing_image c else paused_image c)).
Proof.
  unfold tick, agrees.
  destruct (poll w c m) as [m1 | e]; [| discriminate].
  pose proof (detect_agrees m1) as (A1 & A2 & A3 & A4 & A5).
  destruct (detect m1) as [m2 stop]. cbn [fst] in *.
  destruct stop; [discriminate |].
  destruct (timer m2 =? 0).
  - unfold push. destruct (build_update w c m2) as [[u m3] | e] eqn:Eb; [| discriminate].
    pose proof (build_update_content w c m2 m3 u Eb) as (C1 & C2 & C3 & C4 & C5).
    apply build_update_frame in Eb.
    destruct Eb as ((F1 & F2 & F3 & F4 & F5 & _) & _).
    destruct (update_ok w (n_update m3)); [| discriminate].
    intros [= <- Hf]. apply finish_tick_next in Hf. cbn in Hf.
    destruct Hf as (G1 & G2 & G3 & G4 & G5).
    split; [split; congruence |].
    intros u' [[= <-] | []].
    rewrite G2, G3, F2, F3. repeat split; assumption.
  - intros [= <- Hf]. apply finish_tick_next in Hf.
    destruct Hf as (G1 & G2 & G3 & G4 & G5).
    split; [split; congruence |]. intros u [].
Qed.

(** X14.  At the end of every turn the remembered path and play state
    are those of the last probe, so that the next turn compares with what
    the player last said; and an update sent in the turn is rendered from
    the record of that last probe: state and details from the configured
    templates, the large image as configured, the small image by the play
    state. *)
Theorem turn_follows_last_probe (w : world) (c : consts) (m m' : machine)
        (ev : list event) (Ht : tick w c m = (ev, Next m')) :
  song_path_old m' = song_path m' /\ playing_old m' = playing m'
  /\ (forall u, In (EvUpdate u) ev ->
        custom_format (state c) (song_data m') = Ok (u_state u)
        /\ custom_format (details c) (song_data m') = Ok (u_details u)
        /\ make_buttons c (song_data m') = Ok (u_buttons u)
        /\ u_large_image u = large_image c
        /\ u_small_image u
           = (if flag_truthy (playing m') then playing_image c else paused_image c)).
Proof.
  destruct (tick_leaves w c m m' ev Ht) as ((A1 & A2) & Hu).
  split; [exact A1 |]. split; [exact A2 | exact Hu].
Qed.

Lemma turn_follows_last_probe_witness :
  song_path_old other_track_found = song_path other_track_found
  /\ custom_format "%t" (song_data other_track_found) = Ok "Song".
Proof.
  assert (Ht : tick changing_world (prelude defaults) twenty_turns_in
               = ([EvUpdate other_update], Next other_track_found))
    by (vm_compute; reflexivity).
  destruct (turn_follows_last_probe changing_world (prelude defaults) twenty_turns_in
              other_track_found [EvUpdate other_update] Ht) as (H1 & _ & H3).
  split; [exact H1 |].
  exact (proj1 (proj2 (H3 other_update (or_introl eq_refl)))).
Defined.

(** ** How often the player is asked *)

Lemma do_probe_counts (w : world) (c : consts) (m m' : machine) :
  do_probe w c m = Ok m' ->
  n_probe m' = S (n_probe m) /\ timer m' = timer m
  /\ probe_at w (no_data c) (n_probe m) = Ok (probe_of m').
Proof.
  rewrite do_probe_unfold.
  destruct (probe_at w (no_data c) (n_probe m)) as [[[[sp pl] sd] |] | e];
    cbn [bind]; intros [= <-]; repeat split.
Qed.

Lemma prelude_check_status (cfg : config) : check_status (prelude cfg) = 20.
Proof.
  unfold prelude.
  destruct (negb (Py.truthy (cfg_button_one cfg)));
    destruct (negb (Py.truthy (cfg_button_url_one cfg))); reflexivity.
Qed.

(** The polling of a turn: how many probes, which timer, and what it
    keeps. *)
Lemma poll_counts (w : world) (c : consts) (m m' : machine) :
  poll w c m = Ok m' ->
  n_probe m' = (n_probe m + probes_in_turn c (timer m))%nat
  /\ timer m' = (if update_rpc c <=? timer m then 0 else timer m)
  /\ (probes_in_turn c (timer m) <> O ->
      probe_at w (no_data c) (Nat.pred (n_probe m')) = Ok (probe_of m'))
  /\ (probes_in_turn c (timer m) = O -> m' = m).
Proof.
  unfold probes_in_turn, poll.
  destruct (update_rpc c <=? timer m).
  - destruct (do_probe w c (set_timer 0 m)) as [m1 |] eqn:E1; cbn [bind]; [| discriminate].
    apply do_probe_counts in E1. cbn [set_timer n_probe timer] in E1.
    destruct E1 as (N1 & T1 & _). rewrite T1, Zmod_0_l. cbn [Z.eqb].
    intros E2. apply do_probe_counts in E2. destruct E2 as (N2 & T2 & P2).
    rewrite N2, N1, T2, T1. cbn [Nat.pred]. rewrite <- N1.
    repeat split; [lia | intros _; exact P2 | discriminate].
  - cbn [bind]. destruct (timer m mod check_status c =? 0).
    + intros E2. apply do_probe_counts in E2. destruct E2 as (N2 & T2 & P2).
      rewrite N2, T2. cbn [Nat.pred].
      repeat split; [lia | intros _; exact P2 | discriminate].
    + intros [= <-]. repeat split; [lia | intros H; now contradiction H].
Qed.

(** X15.  How often one turn runs [cmus-remote]: twice in a row when the
    timer has reached [update_rpc] (the timer is reset, and zero is a
    multiple of twenty), once when the timer is a multiple of twenty below
    [update_rpc], not at all otherwise.  When it ran, the turn goes on
    with the answer of the last run only. *)
Theorem turn_asks_player (w : world) (cfg : config) (m m' : machine)
        (Hp : poll w (prelude cfg) m = Ok m') :
  n_probe m' = (n_probe m + probes_in_turn (prelude cfg) (timer m))%nat
  /\ probes_in_turn (prelude cfg) (timer m)
     = (if 10 * Z.min (cfg_interval cfg) 5 <=? timer m then 2%nat
        else if timer m mod 20 =? 0 then 1%nat else 0%nat)
  /\ timer m' = (if 10 * Z.min (cfg_interval cfg) 5 <=? timer m then 0 else timer m)
  /\ (probes_in_turn (prelude cfg) (timer m) <> O ->
      probe_at w (cfg_no_data cfg) (Nat.pred (n_probe m')) = Ok (probe_of m')).
Proof.
  destruct (poll_counts w (prelude cfg) m m' Hp) as (H1 & H2 & H3 & _).
  rewrite prelude_update_rpc in H2. rewrite prelude_no_data in H3.
  split; [exact H1 |]. split; [| split; [exact H2 | exact H3]].
  unfold probes_in_turn. rewrite prelude_update_rpc, prelude_check_status. reflexivity.
Qed.

Lemma turn_asks_player_witness :
  n_probe fifty_turns_polled = (n_probe fifty_turns_in + 2)%nat
  /\ timer fifty_turns_polled = 0.
Proof.
  assert (Hp : poll steady_world (prelude defaults) fifty_turns_in = Ok fifty_turns_polled)
    by (vm_compute; reflexivity).
  destruct (turn_asks_player steady_world defaults fifty_turns_in fifty_turns_polled Hp)
    as (H1 & _ & H3 & _).
  split; [exact H1 | exact H3].
Defined.

(** ** An interval of zero or less *)

Lemma loop_flood (w : world) (c : consts) (path : string) (pl : bool) :
  steady w (no_data c) path pl -> calm w -> available_small_images c = Some true ->
  update_rpc c <= 0 ->
  forall (n : nat) (m : machine),
    tracking path pl m -> 0 <= timer m ->
    exists ev m',
      loop n w c m = (ev, Next m') /\ count_updates ev = n.
Proof.
  intros Hs Hc Ha HU. induction n as [| n IH]; intros m Ht Hm.
  - exists [], m. split; reflexivity.
  - cbn [loop].
    destruct (tick_steady w c path pl Hs Hc Ha m Ht) as (ev & m1 & -> & H1 & Hev).
    destruct (Z.leb_spec (update_rpc c) (timer m)) as [_ | Hlt]; [| lia].
    cbn [orb] in Hev. destruct Hev as ((u & ->) & T1).
    destruct (IH m1 H1 ltac:(lia)) as (ev' & m2 & -> & Hcount).
    exists ([EvUpdate u] ++ ev')%list, m2. split; [reflexivity |].
    rewrite count_updates_app, Hcount. reflexivity.
Qed.

(** X16.  With an interval of zero or less nothing holds the updates
    back: while the same track goes on, every turn of the loop pushes an
    update, ten in a second.  (The interval is taken from the range in
    which the division by [0.1] is exact.) *)
Theorem nonpositive_interval_floods (w : world) (cfg : config) (path : string) (pl : bool)
        (N : nat)
        (Hs : steady w (cfg_no_data cfg) path pl) (Hp : path <> "") (Hc : calm w)
        (Hco : connect_ok w = true) (Hi : has_small_images cfg)
        (Hiv : least_exact_interval <= cfg_interval cfg <= 0) :
  count_updates (fst (main w cfg N)) = N.
Proof.
  assert (HU : update_rpc (prelude cfg) <= 0) by (rewrite prelude_update_rpc; lia).
  pose proof (prelude_has_images cfg Hi) as Ha.
  rewrite main_unfold.
  destruct (Hs O) as (sd & -> & Hn).
  apply truthy_true in Hp. rewrite Hp, Hco. cbn [negb].
  rewrite <- prelude_no_data in Hs.
  set (c := prelude cfg) in *. cbv zeta.
  set (m := Machine 0 _ _ _ _ _ _ _ _ _ _).
  assert (Ht : tracking path pl m).
  { unfold tracking, m; cbn. repeat split. exists sd. split; [reflexivity | exact Hn]. }
  destruct (loop_flood w c path pl Hs Hc Ha HU N m Ht ltac:(cbn; lia))
    as (ev & m' & -> & Hcount).
  exact Hcount.
Qed.

Lemma nonpositive_interval_floods_witness :
  count_updates (fst (main steady_world zero_interval 30)) = 30%nat.
Proof.
  refine (nonpositive_interval_floods steady_world zero_interval
            "/a/Artist - Title.mp3" true 30 steady_world_steady _ steady_world_calm
            eq_refl _ _).
  - discriminate.
  - split; discriminate.
  - split; discriminate.
Defined.

(** ** A change of the play state *)

(** X2.  A probe that finds the track paused or resumed, or another
    track: the turn resets the timer and pushes exactly one update at
    once, with the image of the play state found. *)
Theorem turn_pushes_on_change (w : world) (c : consts) (m : machine)
        (path' : string) (pl' : bool)
        (Hc : calm w) (Ha : available_small_images c = Some true)
        (Hw : forall k, (n_probe m <= k)%nat ->
                        exists sd, probe_at w (no_data c) k = Ok (Some (path', pl', sd))
                                   /\ numeric sd = true)
        (Hprobe : update_rpc c <= timer m \/ timer m mod check_status c = 0)
        (Hne : path' <> "")
        (Hold : song_path_old m <> Some path' \/ playing_old m <> Some pl') :
  exists u m',
    tick w c m = ([EvUpdate u], Next m')
    /\ timer m' = 1
    /\ song_path_old m' = Some path' /\ playing_old m' = Some pl'
    /\ u_small_image u = (if pl' then playing_image c else paused_image c).
Proof.
  unfold tick.
  destruct (poll_new_track w c m path' pl' Hw Hprobe)
    as (m1 & sd & -> & P1 & P2 & P3 & Hn & P4 & P5).
  assert (Hch : changed m1 = true).
  { unfold changed. rewrite P1, P2, P4, P5.
    destruct Hold as [Hold | Hold].
    - destruct (song_path_old m) as [old |]; cbn; [| reflexivity].
      destruct (String.eqb_spec path' old) as [-> | _]; [now contradiction Hold | reflexivity].
    - apply Bool.orb_true_iff. right.
      destruct (playing_old m) as [old |]; cbn; [| reflexivity].
      destruct pl', old; try reflexivity; now contradiction Hold. }
  unfold detect. rewrite Hch, P1. cbn [path_truthy].
  apply truthy_true in Hne. rewrite Hne. cbn [negb timer Z.eqb].
  match goal with |- context [push ?w0 ?c0 ?x] => set (m2 := x) end.
  destruct (push_succeeds w c Hc Ha m2 sd P3 Hn eq_refl)
    as (u & m3 & -> & T3 & Q1 & Q2 & Q3 & Q4 & Q5 & Q6).
  exists u, m3. split; [reflexivity |]. split; [exact T3 |].
  rewrite Q4, Q5, Q6. cbn. rewrite P2. cbn. destruct pl'; repeat split; assumption.
Qed.

Lemma pausing_world_paused (k : nat) :
  (3 <= k)%nat ->
  exists sd, probe_at pausing_world "Unknown" k
             = Ok (Some ("/a/Artist - Title.mp3", false, sd))
             /\ numeric sd = true.
Proof.
  intros Hk. unfold probe_at. cbn [pausing_world cmus_remote].
  destruct (Nat.ltb_spec k 3); [lia |].
  exists (SongInfo "Artist" "Unknown" "Title" "Unknown" "Unknown" "200" "10").
  split; [vm_compute; reflexivity | reflexivity].
Qed.

Lemma pausing_world_calm : calm pausing_world.
Proof. split; intros; reflexivity. Qed.

Lemma turn_pushes_on_change_witness :
  exists u m',
    tick pausing_world (prelude defaults) forty_turns_in = ([EvUpdate u], Next m')
    /\ timer m' = 1
    /\ song_path_old m' = Some "/a/Artist - Title.mp3" /\ playing_old m' = Some false
    /\ u_small_image u = "paused1".
Proof.
  refine (turn_pushes_on_change pausing_world (prelude defaults) forty_turns_in
            "/a/Artist - Title.mp3" false pausing_world_calm eq_refl _ _ _ _).
  - intros k Hk. apply pausing_world_paused. exact Hk.
  - right. reflexivity.
  - discriminate.
  - right. discriminate.
Defined.

(** ** What holds in every run *)

Lemma changed_agrees (m : machine) : agrees m -> changed m = false.
Proof.
  intros [H1 H2]. unfold changed. rewrite H1, H2.
  destruct (song_path m) as [p |], (playing m) as [b |]; cbn;
    rewrite ?String.eqb_refl, ?Bool.eqb_reflx; reflexivity.
Qed.

(** The push block, when it leads to a next turn: one update, and the
    timer goes from zero to one. *)
Lemma push_next (w : world) (c : consts) (m m' : machine) (ev : list event) :
  push w c m = (ev, Next m') ->
  (exists u, ev = [EvUpdate u]) /\ timer m' = timer m + 1 /\ n_probe m' = n_probe m.
Proof.
  unfold push. destruct (build_update w c m) as [[u m3] | e] eqn:Eb; [| discriminate].
  apply build_update_frame in Eb. destruct Eb as ((_ & _ & _ & _ & _ & F6 & F7) & _).
  destruct (update_ok w (n_update m3)); [| discriminate].
  unfold finish_tick. cbn [n_tick]. destruct (sigint w (n_tick m3)); [discriminate |].
  intros [= <- <-]. cbn [n_probe timer].
  split; [exists u; reflexivity |]. split; congruence.
Qed.

(** One turn that leads to a next one: either it pushed and the timer
    starts again at one, or it did not and the timer, which was neither
    zero nor at [update_rpc], went up by one.  A turn that pushes has
    asked the player, if the turn before left its state behind. *)
Lemma tick_next (w : world) (c : consts) (m m' : machine) (ev : list event) :
  tick w c m = (ev, Next m') ->
  agrees m'
  /\ n_probe m' = (n_probe m + probes_in_turn c (timer m))%nat
  /\ ((exists u, ev = [EvUpdate u]) /\ timer m' = 1
       /\ (agrees m -> probes_in_turn c (timer m) <> O)
      \/ ev = [] /\ timer m' = timer m + 1 /\ timer m < update_rpc c /\ timer m <> 0).
Proof.
  intros Ht. destruct (tick_leaves w c m m' ev Ht) as (Ha & _).
  split; [exact Ha |]. revert Ht. unfold tick.
  destruct (poll w c m) as [m1 | e] eqn:Ep; [| discriminate].
  destruct (poll_counts w c m m1 Ep) as (N1 & T1 & _ & Hsame).
  unfold detect. destruct (changed m1) eqn:Ech.
  - destruct (negb (path_truthy (song_path m1))); [discriminate |].
    cbn [timer Z.eqb]. intros Hpush. apply push_next in Hpush.
    cbn [timer n_probe] in Hpush. destruct Hpush as (Hu & T & N).
    split; [congruence |]. left. split; [exact Hu |]. split; [exact T |].
    intros Hag Hzero. rewrite (Hsame Hzero) in Ech.
    rewrite (changed_agrees m Hag) in Ech. discriminate.
  - destruct (Z.eqb_spec (timer m1) 0) as [Z0 | Z0].
    + intros Hpush. apply push_next in Hpush. destruct Hpush as (Hu & T & N).
      split; [congruence |]. left. split; [exact Hu |]. split; [lia |].
      intros _ Hzero. pose proof (Hsame Hzero) as ->.
      unfold probes_in_turn in Hzero.
      destruct (update_rpc c <=? timer m); [discriminate |].
      rewrite Z0, Zmod_0_l in Hzero. discriminate.
    + unfold finish_tick. destruct (sigint w (n_tick m1)); [discriminate |].
      intros [= <- <-]. cbn [n_probe timer]. split; [exact N1 |].
      right. split; [reflexivity |].
      rewrite T1 in *.
      destruct (Z.leb_spec (update_rpc c) (timer m)); [contradiction |].
      repeat split; [assumption | exact Z0].
Qed.

Lemma loop_next_step (n : nat) (w : world) (c : consts) (m m' : machine) (ev : list event) :
  loop (S n) w c m = (ev, Next m') ->
  exists ev1 m1 ev2,
    tick w c m = (ev1, Next m1) /\ loop n w c m1 = (ev2, Next m')
    /\ ev = (ev1 ++ ev2)%list.
Proof.
  cbn [loop]. destruct (tick w c m) as [ev1 o]. destruct o as [m1 | m1 | e]; try discriminate.
  destruct (loop n w c m1) as [ev2 o2] eqn:El. intros [= <- ->].
  exists ev1, m1, ev2. split; [reflexivity |]. split; [exact El | reflexivity].
Qed.

(** While the loop runs, the timer stays between one and [update_rpc],
    the updates are at least as many as when nothing changes, and no
    more than the turns. *)
Lemma loop_least_updates (w : world) (c : consts) :
  1 <= update_rpc c ->
  forall (n : nat) (m m' : machine) (ev : list event),
    1 <= timer m <= update_rpc c ->
    loop n w c m = (ev, Next m') ->
    1 <= timer m' <= update_rpc c
    /\ (Z.of_nat n + timer m - 1) / update_rpc c <= Z.of_nat (count_updates ev)
    /\ (count_updates ev <= n)%nat.
Proof.
  intros HU. induction n as [| n IH]; intros m m' ev Hm Hl.
  - injection Hl as <- <-. split; [exact Hm |]. split; [| cbn; lia].
    rewrite Z.div_small by lia. cbn. lia.
  - destruct (loop_next_step n w c m m' ev Hl) as (ev1 & m1 & ev2 & Ht & Hl' & ->).
    destruct (tick_next w c m m1 ev1 Ht)
      as (_ & _ & [((u & ->) & T1 & _) | (-> & T1 & Hlt & Hnz)]).
    + destruct (IH m1 m' ev2 ltac:(lia) Hl') as (B & L & Up).
      split; [exact B |]. rewrite count_updates_app.
      change (count_updates [EvUpdate u]) with 1%nat.
      split; [| lia].
      rewrite T1 in L.
      assert (Hle : (Z.of_nat (S n) + timer m - 1) / update_rpc c
                    <= (Z.of_nat n + 1 * update_rpc c) / update_rpc c)
        by (apply Z.div_le_mono; lia).
      rewrite Z.div_add in Hle by lia.
      replace (Z.of_nat n + 1 - 1) with (Z.of_nat n) in L by lia. lia.
    + destruct (IH m1 m' ev2 ltac:(lia) Hl') as (B & L & Up).
      split; [exact B |]. cbn [app]. split; [| lia].
      rewrite T1 in L.
      replace (Z.of_nat (S n) + timer m - 1) with (Z.of_nat n + (timer m + 1) - 1) by lia.
      exact L.
Qed.

Lemma main_running (w : world) (cfg : config) (N : nat) (ev : list event) (m' : machine) :
  main w cfg N = (ev, Running m') ->
  exists m ev',
    loop N w (prelude cfg) m = (ev', Next m') /\ ev = EvConnect :: ev'
    /\ timer m = 0 /\ agrees m /\ n_probe m = 1%nat.
Proof.
  rewrite main_unfold.
  destruct (probe_at w (cfg_no_data cfg) 0) as [[[[sp pl] sd] |] | e]; try discriminate.
  destruct (negb (Py.truthy sp)); [discriminate |].
  destruct (negb (connect_ok w)); [discriminate |].
  cbv zeta. intros H.
  match type of H with
  | context [loop ?n ?w0 ?c ?m] =>
      destruct (loop n w0 c m) as [ev' o] eqn:El; exists m, ev'
  end.
  destruct o as [m1 | m1 | e]; try discriminate.
  injection H as <- <-. repeat split. exact El.
Qed.

(** X21.  However the player behaves, while the program runs the
    presence is refreshed at least as often as when nothing changes: in
    the first [N] turns at least [N / update_rpc] updates are pushed,
    rounded up, and at most [N]; and the timer never passes [update_rpc],
    ten times the smaller of the interval and five. *)
Theorem updates_at_least_every_interval (w : world) (cfg : config) (N : nat)
        (ev : list event) (m' : machine)
        (Hiv : 1 <= cfg_interval cfg)
        (Hrun : main w cfg N = (ev, Running m')) :
  let U := 10 * Z.min (cfg_interval cfg) 5 in
  (Z.of_nat N + U - 1) / U <= Z.of_nat (count_updates ev) <= Z.of_nat N
  /\ 0 <= timer m' <= U.
Proof.
  intros U.
  assert (HU : 1 <= update_rpc (prelude cfg)) by (rewrite prelude_update_rpc; lia).
  assert (EU : update_rpc (prelude cfg) = U) by apply prelude_update_rpc.
  destruct (main_running w cfg N ev m' Hrun) as (m & ev' & Hl & -> & T0 & _ & _).
  cbn [count_updates]. rewrite <- EU.
  destruct N as [| n].
  - injection Hl as <- <-. rewrite T0. cbn [count_updates].
    rewrite Z.div_small by lia. lia.
  - destruct (loop_next_step n w _ m m' ev' Hl) as (ev1 & m1 & ev2 & Ht & Hl' & ->).
    destruct (tick_next w _ m m1 ev1 Ht)
      as (_ & _ & [((u & ->) & T1 & _) | (_ & _ & _ & Hnz)]); [| contradiction].
    destruct (loop_least_updates w _ HU n m1 m' ev2 ltac:(lia) Hl') as (B & L & Up).
    rewrite count_updates_app. change (count_updates [EvUpdate u]) with 1%nat.
    rewrite T1 in L. replace (Z.of_nat n + 1 - 1) with (Z.of_nat n) in L by lia.
    replace (Z.of_nat (S n) + update_rpc (prelude cfg) - 1)
      with (Z.of_nat n + 1 * update_rpc (prelude cfg)) by lia.
    rewrite Z.div_add by lia. lia.
Qed.

Lemma updates_at_least_every_interval_witness :
  snd (main changing_world defaults 101) = Running after_101_turns
  /\ 3 <= Z.of_nat (count_updates (fst (main changing_world defaults 101))).
Proof.
  assert (Hrun : main changing_world defaults 101
                 = (fst (main changing_world defaults 101), Running after_101_turns))
    by (vm_compute; reflexivity).
  split; [rewrite Hrun; reflexivity |].
  exact (proj1 (proj1 (updates_at_least_every_interval changing_world defaults 101 _
                         after_101_turns ltac:(cbn; lia) Hrun))).
Defined.

(** ** How long a change can go unnoticed *)

Lemma least_probes_zero (t : Z) : least_probes 0 t = 0.
Proof.
  unfold least_probes. pose proof (Z.mod_pos_bound t 20 ltac:(lia)) as Hb.
  destruct (Z.eqb_spec (t mod 20) 0); cbn [Z.of_nat]; apply Z.div_small; lia.
Qed.

Lemma least_probes_le (n : nat) (t : Z) : least_probes n t <= (Z.of_nat n + 19) / 20.
Proof.
  unfold least_probes. pose proof (Z.mod_pos_bound t 20 ltac:(lia)) as Hb.
  destruct (Z.eqb_spec (t mod 20) 0); [lia |]. apply Z.div_le_mono; lia.
Qed.

Lemma least_probes_wait (n : nat) (t : Z) :
  t mod 20 <> 0 -> least_probes (S n) t = least_probes n (t + 1).
Proof.
  intros Ht. unfold least_probes.
  pose proof (Z.mod_pos_bound t 20 ltac:(lia)) as Hb.
  destruct (Z.eqb_spec (t mod 20) 0) as [E | _]; [contradiction |].
  assert (Hs : (t + 1) mod 20 = if t mod 20 =? 19 then 0 else t mod 20 + 1).
  { destruct (Z.eqb_spec (t mod 20) 19) as [E | E].
    - rewrite Z.add_mod, E by lia. reflexivity.
    - rewrite Z.add_mod by lia. change (1 mod 20) with 1. apply Z.mod_small. lia. }
  rewrite Hs. destruct (Z.eqb_spec (t mod 20) 19) as [E | E].
  - cbn [Z.eqb]. rewrite E. f_equal. lia.
  - destruct (Z.eqb_spec (t mod 20 + 1) 0); [lia |]. f_equal. lia.
Qed.

(** While the loop runs, [cmus-remote] is run at least once in any
    twenty turns. *)
Lemma loop_least_probes (w : world) (c : consts) :
  check_status c = 20 ->
  forall (n : nat) (m m' : machine) (ev : list event),
    agrees m ->
    loop n w c m = (ev, Next m') ->
    Z.of_nat (n_probe m) + least_probes n (timer m) <= Z.of_nat (n_probe m').
Proof.
  intros Hcs. induction n as [| n IH]; intros m m' ev Hag Hl.
  - injection Hl as <- <-. rewrite least_probes_zero. lia.
  - destruct (loop_next_step n w c m m' ev Hl) as (ev1 & m1 & ev2 & Ht & Hl' & ->).
    destruct (tick_next w c m m1 ev1 Ht)
      as (Hag1 & N1 & [(_ & T1 & Hp) | (_ & T1 & Hlt & Hnz)]).
    + specialize (Hp Hag). specialize (IH m1 m' ev2 Hag1 Hl').
      rewrite T1 in IH.
      change (least_probes n 1) with ((Z.of_nat n + 1 - 1) / 20) in IH.
      replace (Z.of_nat n + 1 - 1) with (Z.of_nat n) in IH by lia.
      pose proof (least_probes_le (S n) (timer m)) as Hle.
      replace (Z.of_nat (S n) + 19) with (Z.of_nat n + 1 * 20) in Hle by lia.
      rewrite Z.div_add in Hle by lia. lia.
    + specialize (IH m1 m' ev2 Hag1 Hl'). rewrite T1 in IH.
      unfold probes_in_turn in N1.
      destruct (Z.leb_spec (update_rpc c) (timer m)); [lia |].
      rewrite Hcs in N1.
      destruct (Z.eqb_spec (timer m mod 20) 0) as [E | E].
      * assert (Hs : (timer m + 1) mod 20 = 1).
        { rewrite Z.add_mod, E by lia. reflexivity. }
        unfold least_probes in IH |- *. rewrite Hs in IH. rewrite E. cbn [Z.eqb] in IH |- *.
        replace (Z.of_nat n + 1 - 1) with (Z.of_nat n) in IH by lia.
        replace (Z.of_nat (S n) + 19) with (Z.of_nat n + 1 * 20) by lia.
        rewrite Z.div_add by lia. lia.
      * rewrite (least_probes_wait n (timer m) E). lia.
Qed.

(** X22.  However the player behaves, while the program runs it is asked
    at least once in any twenty turns, two seconds: after [N] turns
    [cmus-remote] has run at least [N / 20] times, rounded up, on top of
    the run at the start. *)
Theorem player_asked_every_two_seconds (w : world) (cfg : config) (N : nat)
        (ev : list event) (m' : machine)
        (Hrun : main w cfg N = (ev, Running m')) :
  1 + (Z.of_nat N + 19) / 20 <= Z.of_nat (n_probe m').
Proof.
  destruct (main_running w cfg N ev m' Hrun) as (m & ev' & Hl & _ & T0 & Hag & N0).
  pose proof (loop_least_probes w (prelude cfg) (prelude_check_status cfg) N m m' ev' Hag Hl)
    as H.
  rewrite T0, N0 in H. unfold least_probes in H. cbn [Z.modulo Z.eqb] in H.
  change (0 mod 20 =? 0) with true in H. cbn iota in H. lia.
Qed.

Lemma player_asked_every_two_seconds_witness :
  snd (main changing_world defaults 41) = Running after_41_turns
  /\ 4 <= Z.of_nat (n_probe after_41_turns).
Proof.
  assert (Hrun : main changing_world defaults 41
                 = (fst (main changing_world defaults 41), Running after_41_turns))
    by (vm_compute; reflexivity).
  split; [rewrite Hrun; reflexivity |].
  exact (player_asked_every_two_seconds changing_world defaults 41 _ after_41_turns Hrun).
Defined.

(** ** An update that is refused *)

(** X23.  When the presence client refuses an update ([BrokenPipeError]),
    the loop is left at once, the connection is closed and [main]
    returns: with a track loaded and the first update refused, the run is
    [connect] and [close], with no update in between and no exception. *)
Theorem refused_update_ends_run (w : world) (cfg : config) (fuel : nat)
        (Hw : always_loaded w (cfg_no_data cfg)) (Hco : connect_ok w = true)
        (Hi : has_small_images cfg) (Hno : update_ok w 0 = false) :
  main w cfg (S fuel) = ([EvConnect; EvClose], Returned).
Proof.
  rewrite main_unfold.
  destruct (Hw O) as (path & pl & sd & -> & Hne & Hn).
  apply truthy_true in Hne. rewrite Hne, Hco. cbn [negb]. cbv zeta.
  cbn [loop]. unfold tick.
  rewrite <- prelude_no_data in Hw.
  match goal with
  | |- context [poll ?w0 ?c ?m] =>
      destruct (poll_at_zero (fun sd => numeric sd = true) w0 c m Hw eq_refl)
        as (m1 & p1 & sd1 & Ep & T1 & P1 & N1 & D1 & Hn1);
      pose proof (poll_counts w0 c m m1 Ep) as _;
      assert (Hu : n_update m1 = O)
  end.
  { revert Ep. unfold poll.
    assert (Hd : forall a b, do_probe w (prelude cfg) a = Ok b -> n_update b = n_update a).
    { intros a b. rewrite do_probe_unfold.
      destruct (probe_at _ _ _) as [[[[? ?] ?] |] | ?]; cbn [bind]; intros [= <-]; reflexivity. }
    destruct (update_rpc (prelude cfg) <=? _).
    - destruct (do_probe w (prelude cfg) _) as [a |] eqn:Ea; cbn [bind]; [| discriminate].
      apply Hd in Ea. cbn in Ea.
      destruct (timer a mod _ =? 0).
      + intros Eb. apply Hd in Eb. congruence.
      + intros [= <-]. exact Ea.
    - cbn [bind]. destruct (_ mod _ =? 0).
      + intros Eb. apply Hd in Eb. exact Eb.
      + intros [= <-]. reflexivity. }
  rewrite Ep.
  destruct (detect_loaded m1 p1 P1 N1 T1) as (m2 & Ed & T2 & D2).
  assert (Hu2 : n_update m2 = O).
  { revert Ed. unfold detect. destruct (changed m1).
    - intros [= <- _]. exact Hu.
    - intros [= <-]. exact Hu. }
  rewrite Ed, T2. cbn [Z.eqb]. unfold push.
  destruct (build_update_total w (prelude cfg) m2 sd1 (prelude_has_images cfg Hi))
    as (u & m3 & Eb); [congruence | exact Hn1 |].
  rewrite Eb. apply build_update_frame in Eb. destruct Eb as (_ & F & _).
  rewrite F, Hu2, Hno. reflexivity.
Qed.

Lemma refusing_world_loaded : always_loaded refusing_world "Unknown".
Proof.
  intros k. eexists _, _, _. split; [vm_compute; reflexivity |].
  split; [discriminate | reflexivity].
Qed.

Lemma refused_update_ends_run_witness :
  main refusing_world defaults 7 = ([EvConnect; EvClose], Returned).
Proof.
  exact (refused_update_ends_run refusing_world defaults 6 refusing_world_loaded
           eq_refl defaults_have_images eq_refl).
Defined.

(** ** Which buttons are sent *)

Lemma rendered_ok (sd : song_info) (template : string) :
  numeric sd = true -> custom_format template (Some sd) = Ok (rendered sd template).
Proof.
  intros Hn. unfold rendered.
  destruct (custom_format_total template sd Hn) as (s & ->). reflexivity.
Qed.

Lemma rendered_empty (sd : song_info) : numeric sd = true -> rendered sd "" = "".
Proof.
  intros Hn. unfold rendered.
  rewrite (custom_format_plain "" sd Hn eq_refl). reflexivity.
Qed.

Lemma make_buttons_sent (cfg : config) (sd : song_info) :
  numeric sd = true -> make_buttons (prelude cfg) (Some sd) = Ok (sent_buttons cfg sd).
Proof.
  intros Hn. destruct cfg as [iv ts st nu li pi pa dt stt b1 b2 u1 u2].
  unfold make_buttons, prelude, sent_buttons; cbn [cfg_button_one cfg_button_two
    cfg_button_url_one cfg_button_url_two].
  pose proof (rendered_empty sd Hn) as Re.
  destruct b1 as [| c1 b1]; destruct b2 as [| c2 b2];
    destruct u1 as [| d1 u1]; destruct u2 as [| d2 u2];
    cbn [negb Py.truthy andb button_one button_two button_url_one button_url_two
         non_empty List.filter];
    rewrite ?(rendered_ok sd _ Hn); cbn [bind List.map pair_up List.hd List.tl];
    rewrite ?Re; reflexivity.
Qed.

(** X24.  The buttons sent, for every configuration: the labels that
    are not empty are counted, each is paired with the URL at the same
    place among the URLs that are not empty, and both are rendered.  So a
    second label whose URL is missing is sent with an empty URL, a second
    URL without a second label is dropped, and nothing is sent when there
    is no label or no URL at all. *)
Theorem buttons_by_position (cfg : config) (sd : song_info) (Hn : numeric sd = true) :
  make_buttons (prelude cfg) (Some sd)
  = Ok (match non_empty [cfg_button_one cfg; cfg_button_two cfg],
              non_empty [cfg_button_url_one cfg; cfg_button_url_two cfg] with
        | [], _ => None
        | _, [] => None
        | labels, urls =>
            Some (pair_up (List.map (rendered sd) labels) (List.map (rendered sd) urls))
        end).
Proof. exact (make_buttons_sent cfg sd Hn). Qed.

Lemma buttons_by_position_witness :
  make_buttons (prelude two_labels_one_url) (Some sample_info)
  = Ok (Some [("Listen to Title", "https://example.org/Artist"); ("More by Artist", "")]).
Proof.
  exact (buttons_by_position two_labels_one_url sample_info eq_refl).
Defined.

(** ** The first update of a run *)

Lemma prelude_fields (cfg : config) :
  state (prelude cfg) = cfg_state_text cfg
  /\ details (prelude cfg) = cfg_details_text cfg
  /\ large_image (prelude cfg) = cfg_large_image cfg
  /\ playing_image (prelude cfg) = cfg_playing_image cfg
  /\ paused_image (prelude cfg) = cfg_paused_image cfg.
Proof.
  unfold prelude.
  destruct (negb (Py.truthy (cfg_button_one cfg)));
    destruct (negb (Py.truthy (cfg_button_url_one cfg))); repeat split.
Qed.

(** Polling with the timer at zero when every probe says the same. *)
Lemma poll_constant (w : world) (c : consts) (m : machine)
      (path : string) (pl : bool) (sd : song_info) :
  constant_probe w (no_data c) path pl sd -> timer m = 0 ->
  exists k,
    poll w c m
    = Ok (Machine 0 (Some path) (Some pl) (Some sd) (song_path_old m) (playing_old m)
                  (play_time m) k (n_update m) (n_time m) (n_tick m)).
Proof.
  intros Hw Ht. unfold poll.
  destruct (update_rpc c <=? timer m).
  - rewrite (do_probe_some w c _ path pl sd (Hw _)). unfold set_timer.
    cbn [bind timer song_path_old playing_old play_time n_probe n_update n_time n_tick].
    rewrite Zmod_0_l. cbn [Z.eqb].
    rewrite (do_probe_some w c _ path pl sd (Hw _)).
    cbn [timer song_path_old playing_old play_time n_probe n_update n_time n_tick].
    eexists. reflexivity.
  - cbn [bind]. rewrite Ht, Zmod_0_l. cbn [Z.eqb].
    rewrite (do_probe_some w c _ path pl sd (Hw _)). rewrite Ht.
    eexists. reflexivity.
Qed.

(** The push block on a record with numeric times, when both state
    images are configured. *)
Lemma build_update_first (w : world) (cfg : config) (m : machine) (pl : bool)
      (sd : song_info) :
  numeric sd = true -> has_small_images cfg ->
  song_data m = Some sd -> playing m = Some pl ->
  exists m',
    build_update w (prelude cfg) m
    = Ok (Update (rendered sd (cfg_state_text cfg)) (rendered sd (cfg_details_text cfg))
                 (cfg_large_image cfg)
                 (if pl then cfg_playing_image cfg else cfg_paused_image cfg)
                 (sent_buttons cfg sd)
                 (if cfg_song_time cfg && cfg_timestamp cfg
                  then option_map (fun pos => time_now w (n_time m) - pos)
                                  (PyInt.parse (position sd))
                  else play_time m),
          m')
    /\ n_update m' = n_update m /\ n_tick m' = n_tick m.
Proof.
  intros Hn Hi Hsd Hpl. unfold build_update.
  destruct (prelude_fields cfg) as (F1 & F2 & F3 & F4 & F5).
  destruct (prelude_flags cfg) as (G1 & G2).
  rewrite Hsd, (make_buttons_sent cfg sd Hn), (prelude_has_images cfg Hi).
  rewrite F1, F2, F3, F4, F5, G1, G2, Hpl. cbn [bind read_var flag_truthy].
  destruct (numeric_ints sd Hn) as (d & p & _ & Hp).
  destruct (cfg_song_time cfg && cfg_timestamp cfg).
  - rewrite Hp. cbn [bind song_data play_time].
    rewrite !(rendered_ok sd _ Hn). cbn [bind].
    unfold PyInt.int in Hp. destruct (PyInt.parse (position sd)) as [pos |]; [| discriminate].
    injection Hp as <-. cbn [option_map].
    eexists. split; [destruct pl; reflexivity | split; reflexivity].
  - cbn [bind]. rewrite Hsd, !(rendered_ok sd _ Hn). cbn [bind].
    eexists. split; [destruct pl; reflexivity | split; reflexivity].
Qed.

(** X26.  The first update of a run, for every configuration with both
    state images: when the player answers every probe with the same
    loaded track (integer duration and position), the presence service is
    reachable and takes the update, the first turn of the loop pushes one
    update whose state and details are the two templates rendered on the
    record, whose large image is the configured one, whose small image
    follows the play state, whose buttons are the configured labels and
    URLs paired by position, and whose start is none without [timestamp],
    the time read at the start with [timestamp] alone, and the time of
    the push less the position with [song_time] as well. *)
Theorem first_update_pushed (w : world) (cfg : config) (path : string) (pl : bool)
        (sd : song_info)
        (Hw : constant_probe w (cfg_no_data cfg) path pl sd)
        (Hpath : path <> "") (Hn : numeric sd = true)
        (Hco : connect_ok w = true) (Hi : has_small_images cfg)
        (Hup : update_ok w 0 = true) (Hsig : sigint w 0 = false) :
  exists m',
    main w cfg 1 = ([EvConnect; EvUpdate (first_update w cfg pl sd)], Running m').
Proof.
  rewrite main_unfold, (Hw O).
  apply truthy_true in Hpath. rewrite Hpath, Hco. cbn [negb]. cbv zeta.
  destruct (prelude_flags cfg) as (G1 & G2). rewrite G2.
  rewrite <- prelude_no_data in Hw.
  cbn [loop]. unfold tick.
  match goal with
  | |- context [poll ?w0 ?c ?m] =>
      destruct (poll_constant w0 c m path pl sd Hw eq_refl) as (k & ->)
  end.
  cbn [song_path_old playing_old play_time n_update n_time n_tick].
  unfold detect, changed.
  cbn [song_path song_path_old playing playing_old opt_string_eqb opt_bool_eqb].
  rewrite String.eqb_refl, Bool.eqb_reflx. cbn [negb orb timer Z.eqb].
  unfold push.
  match goal with
  | |- context [build_update ?w0 ?c ?m] =>
      destruct (build_update_first w0 cfg m pl sd Hn Hi eq_refl eq_refl)
        as (m3 & -> & U3 & T3)
  end.
  cbn [n_update n_time n_tick play_time] in *.
  rewrite U3, Hup. unfold finish_tick. cbn [n_tick]. rewrite T3, Hsig.
  eexists. unfold first_update, first_start.
  destruct (cfg_timestamp cfg), (cfg_song_time cfg); reflexivity.
Qed.

Lemma steady_world_constant :
  constant_probe steady_world "Unknown" "/a/Artist - Title.mp3" true
    (SongInfo "Artist" "Unknown" "Title" "Unknown" "Unknown" "200" "10").
Proof. intros k. vm_compute. reflexivity. Qed.

Lemma first_update_pushed_witness :
  exists m',
    main steady_world song_clock 1
    = ([EvConnect;
        EvUpdate (Update "Artist (00:00:10)" "Title" "cmus1" "playing1"
                         (Some [("Search Artist", "https://example.org/?q=Artist")])
                         (Some 990))],
       Running m').
Proof.
  exact (first_update_pushed steady_world song_clock "/a/Artist - Title.mp3" true
           (SongInfo "Artist" "Unknown" "Title" "Unknown" "Unknown" "200" "10")
           steady_world_constant ltac:(discriminate) eq_refl eq_refl
           ltac:(split; discriminate) eq_refl eq_refl).
Defined.

(** ** Dictionaries *)

Lemma lookup_none {A : Type} (k : string) (l : list (string * A)) :
  lookup k l = None <-> ~ In k (List.map fst l).
Proof.
  induction l as [| [k' a] l IH]; cbn [lookup List.map fst In]; [tauto |].
  destruct (String.eqb_spec k' k) as [-> | Hne].
  - split; [discriminate | intros H; exfalso; apply H; left; reflexivity].
  - rewrite IH. split; [intros H [E | E]; [contradiction | exact (H E)] | tauto].
Qed.

Lemma lookup_some_in {A : Type} (k : string) (l : list (string * A)) :
  In k (List.map fst l) -> exists a, lookup k l = Some a.
Proof.
  intros Hin. destruct (lookup k l) as [a |] eqn:E; [exists a; reflexivity |].
  apply lookup_none in E. contradiction.
Qed.

Lemma lookup_in {A : Type} (k : string) (l : list (string * A)) (a : A) :
  lookup k l = Some a -> In k (List.map fst l).
Proof.
  intros E. destruct (in_dec string_dec k (List.map fst l)) as [Hin | Hnin]; [exact Hin |].
  apply lookup_none in Hnin. congruence.
Qed.

Lemma dict_keys_set (d : dict) (k : string) (v : pyval) :
  In k (Dict.keys d) -> Dict.keys (Dict.set d k v) = Dict.keys d.
Proof.
  unfold Dict.keys. induction d as [| [k' v'] d IH]; intros Hin; [destruct Hin |].
  cbn [Dict.set]. destruct (String.eqb_spec k' k) as [-> | Hne]; [reflexivity |].
  cbn [List.map fst] in *. rewrite IH; [reflexivity |].
  destruct Hin as [E | Hin]; [contradiction | exact Hin].
Qed.

Lemma dict_get_set_same (d : dict) (k : string) (v : pyval) :
  Dict.get (Dict.set d k v) k = Some v.
Proof.
  unfold Dict.get. induction d as [| [k' v'] d IH]; cbn [Dict.set lookup].
  - rewrite String.eqb_refl. reflexivity.
  - destruct (String.eqb_spec k' k) as [-> | Hne]; cbn [lookup].
    + rewrite String.eqb_refl. reflexivity.
    + destruct (String.eqb_spec k' k); [contradiction | exact IH].
Qed.

Lemma dict_get_set_other (d : dict) (k k' : string) (v : pyval) :
  k <> k' -> Dict.get (Dict.set d k v) k' = Dict.get d k'.
Proof.
  intros Hne. unfold Dict.get. induction d as [| [k0 v0] d IH]; cbn [Dict.set lookup].
  - destruct (String.eqb_spec k k'); [contradiction | reflexivity].
  - destruct (String.eqb_spec k0 k) as [-> | H0]; cbn [lookup].
    + destruct (String.eqb_spec k k'); [contradiction | reflexivity].
    + destruct (String.eqb_spec k0 k'); [reflexivity | exact IH].
Qed.

Lemma dict_keys_fromkeys (d : dict) : Dict.keys (Dict.fromkeys d) = Dict.keys d.
Proof.
  unfold Dict.keys, Dict.fromkeys. rewrite map_map. reflexivity.
Qed.

Lemma getitem_done (d : dict) (k : string) (v : pyval) :
  getitem d k = Done v <-> Dict.get d k = Some v.
Proof.
  unfold getitem. destruct (Dict.get d k); split; congruence.
Qed.

(** ** The directory of a path *)

Lemma last_occurrence (c : ascii) (p : string) :
  has_char c p = true ->
  exists x y, p = x ++ String c y /\ has_char c y = false.
Proof.
  induction p as [| a p IH]; intros H; [discriminate |].
  destruct (has_char c p) eqn:Hp.
  - destruct (IH eq_refl) as (x & y & -> & Hy). exists (String a x), y. split; [reflexivity | exact Hy].
  - cbn [has_char] in H. rewrite Hp, Bool.orb_false_r in H.
    apply Ascii.eqb_eq in H. subst a. exists "", p. split; [reflexivity | exact Hp].
Qed.

Lemma rstrip_nothing_left (s : string) :
  Py.rstrip "/" s = "" -> s = slashes (String.length s).
Proof.
  induction s as [| a s IH]; [reflexivity |].
  cbn [Py.rstrip String.length slashes].
  destruct (Py.rstrip "/" s) as [| b r]; [| discriminate].
  destruct (Ascii.eqb_spec a "/") as [-> | _]; [| discriminate].
  intros _. rewrite <- (IH eq_refl). reflexivity.
Qed.

(** The directory of a path has a name exactly when the path holds a
    slash. *)
Lemma dirname_truthy (p : string) : Py.truthy (dirname p) = has_char "/" p.
Proof.
  unfold dirname. destruct (has_char "/" p) eqn:Hp.
  - destruct (last_occurrence "/" p Hp) as (x & y & -> & Hy).
    rewrite (rfind_last "/" x y Hy).
    replace (Z.to_nat (Z.of_nat (String.length x) + 1)) with (String.length (x ++ "/"))
      by (rewrite length_append; cbn; lia).
    replace (x ++ String "/" y) with ((x ++ "/") ++ y)
      by (rewrite append_assoc; reflexivity).
    rewrite take_append.
    assert (Hne : Py.truthy (x ++ "/") = true) by (destruct x; reflexivity).
    rewrite Hne. cbn [andb].
    destruct (String.eqb_spec (x ++ "/") (slashes (String.length (x ++ "/")))) as [_ | Hno];
      cbn [negb]; [exact Hne |].
    apply truthy_true. intros E. apply Hno. apply rstrip_nothing_left. exact E.
  - unfold Py.rfind. rewrite (rfind_from_absent "/" 0 (-1) p Hp). reflexivity.
Qed.

(** ** Loading the configuration file *)

Section Loading.

Variable literal_eval : string -> eval.

Lemma has_option_spec (i : ini) (section : list (string * string)) (key : string) :
  has_option i section key = true
  <-> In key (List.map fst section) \/ In key (List.map fst (ini_defaults i)).
Proof.
  unfold has_option. rewrite existsb_exists. split.
  - intros (x & Hin & E). apply String.eqb_eq in E. subst x.
    apply in_app_or in Hin. exact Hin.
  - intros H. exists key. split; [apply in_or_app; exact H | apply String.eqb_refl].
Qed.

(** One step of the loop over the keys. *)
Lemma load_keys_step (i : ini) (raw_section : list (string * string))
      (key : string) (dv : pyval) (rest config_data : dict) :
  loadable_key literal_eval i raw_section key ->
  load_keys literal_eval ((key, dv) :: rest) i raw_section config_data
  = load_keys literal_eval rest i raw_section
      (Dict.set config_data key (loaded_value literal_eval raw_section key dv)).
Proof.
  intros [Hinh Hlit]. cbn [load_keys]. unfold loaded_value, load_value.
  destruct (has_option i raw_section key) eqn:Eh.
  - apply has_option_spec in Eh.
    assert (Hin : In key (List.map fst raw_section)) by tauto.
    destruct (lookup_some_in key raw_section Hin) as (raw & El).
    rewrite El. specialize (Hlit raw El).
    destruct (literal_eval raw); [reflexivity | reflexivity | contradiction].
  - destruct (lookup key raw_section) as [raw |] eqn:El; [| reflexivity].
    exfalso. apply lookup_in in El.
    assert (has_option i raw_section key = true)
      by (apply has_option_spec; left; exact El).
    congruence.
Qed.

(** The loop stops at a key that cannot be asked for. *)
Lemma load_keys_head (i : ini) (raw_section : list (string * string))
      (key : string) (dv : pyval) (rest config_data cfg : dict) :
  load_keys literal_eval ((key, dv) :: rest) i raw_section config_data = Done cfg ->
  loadable_key literal_eval i raw_section key.
Proof.
  cbn [load_keys]. destruct (has_option i raw_section key) eqn:Eh.
  - destruct (lookup key raw_section) as [raw |] eqn:El; [| discriminate].
    unfold load_value. intros H. split.
    + intros _. exact (lookup_in key raw_section raw El).
    + intros raw' Er E. assert (raw' = raw) by congruence. subst raw'.
      rewrite E in H. discriminate.
  - intros _.
    assert (Hno : ~ (In key (List.map fst raw_section)
                     \/ In key (List.map fst (ini_defaults i)))).
    { intros H. apply has_option_spec in H. congruence. }
    split.
    + intros Hin. exfalso. apply Hno. right. exact Hin.
    + intros raw El. exfalso. apply Hno. left. exact (lookup_in key raw_section raw El).
Qed.

Lemma get_in_keys (d : dict) (k : string) (v : pyval) :
  Dict.get d k = Some v -> In k (Dict.keys d).
Proof. apply lookup_in. Qed.

Lemma get_of_entry (d : dict) (k : string) (v : pyval) :
  NoDup (Dict.keys d) -> In (k, v) d -> Dict.get d k = Some v.
Proof.
  unfold Dict.get, Dict.keys. induction d as [| [k' v'] d IH]; intros Hnd Hin; [destruct Hin |].
  cbn [List.map fst] in Hnd. inversion Hnd as [| ? ? Hnot Hnd']; subst.
  cbn [lookup]. destruct Hin as [[= -> ->] | Hin].
  - rewrite String.eqb_refl. reflexivity.
  - destruct (String.eqb_spec k' k) as [-> | _]; [| exact (IH Hnd' Hin)].
    exfalso. apply Hnot. apply (in_map fst) in Hin. exact Hin.
Qed.

Lemma entry_of_get (d : dict) (k : string) (v : pyval) :
  Dict.get d k = Some v -> In (k, v) d.
Proof.
  unfold Dict.get. induction d as [| [k' v'] d IH]; [discriminate |].
  cbn [lookup]. destruct (String.eqb_spec k' k) as [-> | _].
  - intros [= ->]. left. reflexivity.
  - intros H. right. exact (IH H).
Qed.

(** The loop over the keys, as a whole: it ends well exactly when every
    key can be asked for, and then each key holds what the file gives
    for it, or its default. *)
Lemma load_keys_done (i : ini) (raw_section : list (string * string))
      (entries config_data cfg : dict) :
  NoDup (Dict.keys entries) ->
  (forall k, In k (Dict.keys entries) -> In k (Dict.keys config_data)) ->
  load_keys literal_eval entries i raw_section config_data = Done cfg ->
  Dict.keys cfg = Dict.keys config_data
  /\ (forall key, In key (Dict.keys entries) ->
                  loadable_key literal_eval i raw_section key)
  /\ (forall key dv, In (key, dv) entries ->
                     Dict.get cfg key
                     = Some (loaded_value literal_eval raw_section key dv))
  /\ (forall key, ~ In key (Dict.keys entries) ->
                  Dict.get cfg key = Dict.get config_data key).
Proof.
  revert config_data. induction entries as [| [key dv] rest IH]; intros cd Hnd Hsub H.
  - cbn [load_keys] in H. injection H as <-.
    repeat split; try reflexivity; intros; contradiction.
  - cbn [Dict.keys List.map fst] in Hnd, Hsub. inversion Hnd as [| ? ? Hnot Hnd']; subst.
    pose proof (load_keys_head i raw_section key dv rest cd cfg H) as Hload.
    rewrite (load_keys_step i raw_section key dv rest cd Hload) in H.
    assert (Hkey : In key (Dict.keys cd)) by (apply Hsub; left; reflexivity).
    assert (Hsub' : forall k, In k (Dict.keys rest) ->
                              In k (Dict.keys (Dict.set cd key
                                     (loaded_value literal_eval raw_section key dv)))).
    { intros k Hk. rewrite dict_keys_set by exact Hkey. apply Hsub. right. exact Hk. }
    destruct (IH _ Hnd' Hsub' H) as (K & L & V & O).
    rewrite dict_keys_set in K by exact Hkey.
    split; [exact K |]. split; [| split].
    + intros k [<- | Hk]; [exact Hload | exact (L k Hk)].
    + intros k v [[= <- <-] | Hin]; [| exact (V k v Hin)].
      rewrite (O key Hnot). apply dict_get_set_same.
    + intros k Hk. cbn [Dict.keys List.map fst In] in Hk.
      rewrite (O k) by tauto. apply dict_get_set_other. intros ->. tauto.
Qed.

Lemma load_keys_loadable (i : ini) (raw_section : list (string * string))
      (entries config_data : dict) :
  (forall key, In key (Dict.keys entries) ->
               loadable_key literal_eval i raw_section key) ->
  exists cfg, load_keys literal_eval entries i raw_section config_data = Done cfg.
Proof.
  revert config_data. induction entries as [| [key dv] rest IH]; intros cd Hall.
  - exists cd. reflexivity.
  - rewrite load_keys_step by (apply Hall; left; reflexivity).
    apply IH. intros k Hk. apply Hall. right. exact Hk.
Qed.

(** The loop stops with [KeyError] at the first key that the section
    [main] only inherits. *)
Lemma load_keys_inherited (i : ini) (raw_section : list (string * string))
      (before after config_data : dict) (key : string) (dv : pyval) :
  (forall k, In k (Dict.keys before) -> loadable_key literal_eval i raw_section k) ->
  In key (List.map fst (ini_defaults i)) -> ~ In key (List.map fst raw_section) ->
  load_keys literal_eval (before ++ (key, dv) :: after)%list i raw_section config_data
  = Failed (KeyError key).
Proof.
  revert config_data. induction before as [| [k v] before IH]; intros cd Hall Hd Hm.
  - cbn [app load_keys].
    assert (Eh : has_option i raw_section key = true)
      by (apply has_option_spec; right; exact Hd).
    rewrite Eh. apply lookup_none in Hm. rewrite Hm. reflexivity.
  - cbn [app]. rewrite load_keys_step by (apply Hall; left; reflexivity).
    apply IH; [| exact Hd | exact Hm].
    intros k' Hk'. apply Hall. right. exact Hk'.
Qed.

(** X17.  What [load_config] returns.  The result has the keys of
    [default], in their order, whatever the file holds: options the
    program does not know are dropped.  Without a file the result is
    [default] itself; with a file, each key holds the literal written for
    it in the section [main], the text as it is when the text is no
    literal, and the default when the key is missing. *)
Theorem load_config_result (d : disk) (path : string) (default cfg : dict)
        (Hnd : NoDup (Dict.keys default))
        (Hload : load_config literal_eval d path default = Done cfg) :
  Dict.keys cfg = Dict.keys default
  /\ match stored d (expanduser d path) with
     | None => cfg = default
     | Some (Some i) =>
         exists section,
           lookup "main" (ini_sections i) = Some section
           /\ forall key dv, Dict.get default key = Some dv ->
                Dict.get cfg key = Some (loaded_value literal_eval section key dv)
     | Some None => False
     end.
Proof.
  revert Hload. unfold load_config, create_config.
  destruct (stored d (expanduser d path)) as [[i |] |].
  - destruct (lookup "main" (ini_sections i)) as [section |]; [| discriminate].
    intros H.
    assert (Hsub : forall k, In k (Dict.keys default) ->
                             In k (Dict.keys (Dict.fromkeys default))).
    { intros k Hk. rewrite dict_keys_fromkeys. exact Hk. }
    destruct (load_keys_done i section default (Dict.fromkeys default) cfg Hnd Hsub H)
      as (K & _ & V & _).
    rewrite dict_keys_fromkeys in K. split; [exact K |].
    exists section. split; [reflexivity |].
    intros key dv Hg. apply V. apply entry_of_get. exact Hg.
  - discriminate.
  - destruct (negb (Py.truthy (dirname (expanduser d path)))); [discriminate |].
    destruct (creatable d (expanduser d path)); [| discriminate].
    intros [= <-]. split; reflexivity.
Qed.

(** X18.  When [load_config] raises.  It returns exactly when there is
    no file and one can be made in a directory that the path names, or
    when the file is read, has a section [main], and every key of
    [default] can be asked for.  A file without a section [main] (an
    empty one, say) raises [KeyError] on [main]; and a key that [main]
    only inherits from the section [DEFAULT] raises [KeyError] on that
    key, because the test for the key looks at the inherited options and
    the reading does not. *)
Theorem load_config_returns_iff (d : disk) (path : string) (default : dict) :
  ((exists cfg, load_config literal_eval d path default = Done cfg)
   <-> match stored d (expanduser d path) with
       | None =>
           has_char "/" (expanduser d path) = true
           /\ creatable d (expanduser d path) = true
       | Some (Some i) =>
           exists section,
             lookup "main" (ini_sections i) = Some section
             /\ forall key, In key (Dict.keys default) ->
                            loadable_key literal_eval i section key
       | Some None => False
       end)
  /\ (forall i, stored d (expanduser d path) = Some (Some i) ->
                lookup "main" (ini_sections i) = None ->
                load_config literal_eval d path default = Failed (KeyError "main"))
  /\ (forall i section before key dv after,
         stored d (expanduser d path) = Some (Some i) ->
         lookup "main" (ini_sections i) = Some section ->
         default = (before ++ (key, dv) :: after)%list ->
         (forall k, In k (Dict.keys before) -> loadable_key literal_eval i section k) ->
         In key (List.map fst (ini_defaults i)) -> ~ In key (List.map fst section) ->
         load_config literal_eval d path default = Failed (KeyError key)).
Proof.
  unfold load_config, create_config. split; [| split].
  - destruct (stored d (expanduser d path)) as [[i |] |].
    + destruct (lookup "main" (ini_sections i)) as [section |].
      * split.
        -- intros (cfg & H). exists section. split; [reflexivity |].
           intros key Hk. revert key Hk. clear - H.
           generalize dependent (Dict.fromkeys default).
           induction default as [| [k v] rest IH]; intros cd H key Hk; [destruct Hk |].
           pose proof (load_keys_head i section k v rest cd cfg H) as Hl.
           destruct Hk as [<- | Hk]; [exact Hl |].
           rewrite (load_keys_step i section k v rest cd Hl) in H.
           exact (IH _ H key Hk).
        -- intros (section' & [= <-] & Hall). apply load_keys_loadable. exact Hall.
      * split; [intros (cfg & H); discriminate | intros (section & E & _); discriminate].
    + split; [intros (cfg & H); discriminate | intros []].
    + rewrite dirname_truthy.
      destruct (has_char "/" (expanduser d path)); cbn [negb].
      * destruct (creatable d (expanduser d path)).
        -- split; [intros _; split; reflexivity | intros _; eexists; reflexivity].
        -- split; [intros (cfg & H); discriminate | intros [_ H]; discriminate H].
      * split; [intros (cfg & H); discriminate | intros [H _]; discriminate H].
  - intros i -> ->. reflexivity.
  - intros i section before key dv after -> -> -> Hall Hd Hm.
    apply load_keys_inherited; assumption.
Qed.

(** X25.  A configuration file that does not exist yet is not created
    when its path, once the home directory is expanded, names no
    directory (a bare file name): [os.path.dirname] is then empty,
    [os.makedirs] of the empty path raises [FileNotFoundError], and
    [load_config] raises with it instead of writing the defaults. *)
Theorem bare_file_name_not_created (d : disk) (path : string) (default : dict)
        (Hnew : stored d (expanduser d path) = None)
        (Hbare : has_char "/" (expanduser d path) = false) :
  dirname (expanduser d path) = ""
  /\ load_config literal_eval d path default = Failed FileNotFoundError.
Proof.
  assert (Hd : Py.truthy (dirname (expanduser d path)) = false)
    by (rewrite dirname_truthy; exact Hbare).
  split; [apply truthy_false; exact Hd |].
  unfold load_config, create_config. rewrite Hnew, Hd. reflexivity.
Qed.

End Loading.

(** ** The configuration [main] works with *)

Lemma defaults_dict_nodup : NoDup (Dict.keys defaults_dict).
Proof.
  cbn. repeat (constructor; [cbn; intuition discriminate |]). constructor.
Qed.

Lemma merge_keys (keys : list string)
      (args_dict config_ini config cfg : dict) :
  (forall k, In k keys -> In k (Dict.keys config)) ->
  merge keys args_dict config_ini config = Done cfg ->
  Dict.keys cfg = Dict.keys config.
Proof.
  revert config. induction keys as [| key rest IH]; intros config Hsub H.
  - injection H as <-. reflexivity.
  - cbn [merge] in H.
    assert (Hkey : In key (Dict.keys config)) by (apply Hsub; left; reflexivity).
    assert (Hrest : forall v k, In k rest -> In k (Dict.keys (Dict.set config key v))).
    { intros v k Hk. rewrite dict_keys_set by exact Hkey. apply Hsub. right. exact Hk. }
    destruct (getitem args_dict key) as [given |]; cbn [and_then] in H; [| discriminate].
    destruct (differs_from_empty given).
    + rewrite (IH _ (Hrest given) H). apply dict_keys_set. exact Hkey.
    + destruct (getitem config_ini key) as [v |]; cbn [and_then] in H; [| discriminate].
      rewrite (IH _ (Hrest v) H). apply dict_keys_set. exact Hkey.
Qed.

(** What the loop over the keys of [defaults] leaves under each key. *)
Lemma merge_values (keys : list string) (args_dict config_ini config : dict) :
  NoDup keys ->
  (forall k, In k keys -> In k (Dict.keys args_dict)) ->
  (forall k, In k keys -> In k (Dict.keys config_ini)) ->
  exists cfg,
    merge keys args_dict config_ini config = Done cfg
    /\ (forall key given, In key keys -> Dict.get args_dict key = Some given ->
          Dict.get cfg key
          = if differs_from_empty given then Some given else Dict.get config_ini key)
    /\ (forall key, ~ In key keys -> Dict.get cfg key = Dict.get config key).
Proof.
  revert config. induction keys as [| key rest IH]; intros config Hnd Ha Hi.
  - exists config. split; [reflexivity |]. split; [intros; contradiction | reflexivity].
  - inversion Hnd as [| ? ? Hnot Hnd']; subst.
    destruct (lookup_some_in key args_dict (Ha key (or_introl eq_refl))) as (given & Eg).
    destruct (lookup_some_in key config_ini (Hi key (or_introl eq_refl))) as (v & Ev).
    change (Dict.get args_dict key = Some given) in Eg.
    change (Dict.get config_ini key = Some v) in Ev.
    cbn [merge]. unfold getitem. rewrite Eg. cbn [and_then]. rewrite Ev.
    cbn [and_then].
    set (chosen := if differs_from_empty given then given else v).
    destruct (IH (Dict.set config key chosen) Hnd')
      as (cfg & E & V & O).
    { intros k Hk. apply Ha. right. exact Hk. }
    { intros k Hk. apply Hi. right. exact Hk. }
    exists cfg. split.
    + unfold chosen in E. destruct (differs_from_empty given); exact E.
    + split.
      * intros k g [<- | Hk] Hg; [| exact (V k g Hk Hg)].
        rewrite (O key Hnot), dict_get_set_same.
        rewrite Eg in Hg. injection Hg as <-.
        unfold chosen. rewrite Ev. destruct (differs_from_empty given); reflexivity.
      * intros k Hk. cbn [In] in Hk. rewrite (O k) by tauto.
        apply dict_get_set_other. intros ->. tauto.
Qed.

Lemma vars_has_defaults (a : arguments) (k : string) :
  In k (Dict.keys defaults_dict) -> In k (Dict.keys (vars a)).
Proof.
  cbn. intros H.
  repeat (destruct H as [<- | H]; [intuition |]). destruct H.
Qed.

(** X19.  With a configuration file named on the command line, [main]
    never gets to work: the dictionary it builds has the keys of
    [defaults] only, and the first thing [main] reads from it is
    [debug], which is none of them, so that [KeyError] is raised before
    the player is asked.  Without a file name (or with an empty one) the
    configuration is the command line itself and the five switches are
    read from it. *)
Theorem config_path_stops_main (literal_eval : string -> eval) (d : disk) (a : arguments) :
  (forall (path : string) (config : dict),
      arg_config a = Some path -> path <> "" ->
      main_config literal_eval d a = Done config ->
      Dict.keys config = Dict.keys defaults_dict
      /\ main_switches config = Failed (KeyError "debug"))
  /\ (arg_config a = None \/ arg_config a = Some "" ->
      main_config literal_eval d a = Done (vars a)
      /\ main_switches (vars a)
         = Done (PBool (arg_debug a), PBool (arg_silent a),
                 PBool (cfg_song_time (arg_settings a)),
                 PBool (cfg_timestamp (arg_settings a)),
                 PBool (cfg_no_unknown (arg_settings a)))).
Proof.
  split.
  - intros path config Hp Hne. unfold main_config. rewrite Hp.
    apply truthy_true in Hne. rewrite Hne.
    destruct (load_config literal_eval d path defaults_dict) as [ini |];
      cbn [and_then]; [| discriminate].
    intros H. apply merge_keys in H.
    + rewrite dict_keys_fromkeys in H. split; [exact H |].
      unfold main_switches, getitem.
      assert (Hno : Dict.get config "debug" = None).
      { apply lookup_none. fold (Dict.keys config). rewrite H. cbn.
        intuition discriminate. }
      rewrite Hno. reflexivity.
    + intros k Hk. rewrite dict_keys_fromkeys. exact Hk.
  - intros Hp. split; [| reflexivity].
    unfold main_config. destruct Hp as [-> | ->]; reflexivity.
Qed.

Lemma config_path_stops_main_witness :
  exists config,
    main_config sample_literal_eval empty_disk config_only = Done config
    /\ main_switches config = Failed (KeyError "debug").
Proof.
  eexists. split; [reflexivity |].
  refine (proj2 (proj1 (config_path_stops_main sample_literal_eval empty_disk config_only)
                   "~/c.ini" _ eq_refl _ eq_refl)).
  discriminate.
Defined.

(** X20.  Which values of the file count.  When the file was loaded,
    [main] keeps for each key the value of the command line unless that
    value is the empty string, and only then takes the value of the
    file.  The command line always holds a number for the interval and a
    truth value for each switch, so these never come from the file. *)
Theorem command_line_over_file (literal_eval : string -> eval) (d : disk) (a : arguments)
        (path : string) (config_ini : dict)
        (Hpath : arg_config a = Some path) (Hne : path <> "")
        (Hload : load_config literal_eval d path defaults_dict = Done config_ini) :
  exists config,
    main_config literal_eval d a = Done config
    /\ (forall key given,
           In key (Dict.keys defaults_dict) -> Dict.get (vars a) key = Some given ->
           Dict.get config key
           = if differs_from_empty given then Some given else Dict.get config_ini key)
    /\ Dict.get config "interval" = Some (PInt (cfg_interval (arg_settings a)))
    /\ Dict.get config "silent" = Some (PBool (arg_silent a))
    /\ Dict.get config "timestamp" = Some (PBool (cfg_timestamp (arg_settings a)))
    /\ Dict.get config "song_time" = Some (PBool (cfg_song_time (arg_settings a)))
    /\ Dict.get config "no_unknown" = Some (PBool (cfg_no_unknown (arg_settings a))).
Proof.
  pose proof (load_config_result literal_eval d path defaults_dict config_ini
                defaults_dict_nodup Hload) as [Hkeys _].
  destruct (merge_values (Dict.keys defaults_dict) (vars a) config_ini
              (Dict.fromkeys defaults_dict) defaults_dict_nodup)
    as (config & E & V & _).
  { apply vars_has_defaults. }
  { intros k Hk. rewrite Hkeys. exact Hk. }
  exists config. split.
  - unfold main_config. rewrite Hpath. apply truthy_true in Hne. rewrite Hne, Hload.
    exact E.
  - split; [exact V |].
    repeat split;
      match goal with
      | |- Dict.get config ?k = Some ?v =>
          rewrite (V k v); [reflexivity | cbn; intuition | reflexivity]
      end.
Qed.

Lemma command_line_over_file_witness :
  exists config,
    main_config sample_literal_eval sample_disk config_only = Done config
    /\ Dict.get config "interval" = Some (PInt 15)
    /\ Dict.get config "large_image" = Some (PStr "cmus1")
    /\ Dict.get config "button_one" = Some (PStr "my image").
Proof.
  destruct (command_line_over_file sample_literal_eval sample_disk config_only "~/c.ini"
              sample_loaded eq_refl ltac:(discriminate) eq_refl)
    as (config & E & V & I & _).
  exists config. split; [exact E |]. split; [exact I |]. split.
  - exact (V "large_image" (PStr "cmus1") ltac:(cbn; intuition) eq_refl).
  - exact (V "button_one" (PStr "") ltac:(cbn; intuition) eq_refl).
Defined.

Lemma load_config_result_witness :
  load_config sample_literal_eval sample_disk "~/c.ini" defaults_dict = Done sample_loaded
  /\ Dict.keys sample_loaded = Dict.keys defaults_dict.
Proof.
  assert (H : load_config sample_literal_eval sample_disk "~/c.ini" defaults_dict
              = Done sample_loaded) by reflexivity.
  split; [exact H |].
  exact (proj1 (load_config_result sample_literal_eval sample_disk "~/c.ini" defaults_dict
                  sample_loaded defaults_dict_nodup H)).
Defined.

Lemma load_config_returns_iff_witness :
  load_config sample_literal_eval inherited_disk "~/c.ini" defaults_dict
  = Failed (KeyError "interval").
Proof.
  refine (proj2 (proj2 (load_config_returns_iff sample_literal_eval inherited_disk
                          "~/c.ini" defaults_dict))
            inherited_ini [] [("appid", PInt 1312496743879016488)] "interval" (PInt 15)
            _ eq_refl eq_refl eq_refl _ _ _).
  - intros k [<- | []]. split; [intros [E | []]; discriminate E | intros raw E; discriminate E].
  - left. reflexivity.
  - intros [].
Defined.

Lemma bare_file_name_not_created_witness :
  load_config sample_literal_eval empty_disk "c.ini" defaults_dict = Failed FileNotFoundError.
Proof.
  exact (proj2 (bare_file_name_not_created sample_literal_eval empty_disk "c.ini"
                  defaults_dict eq_refl eq_refl)).
Defined.

(** ** Leaving the loop by [break] *)

(** A turn that breaks after turns that went on: the loop ends there,
    whatever fuel is left. *)
Lemma loop_then_break (w : world) (c : consts) (n k : nat) (mb : machine)
      (evb : list event) :
  forall (m0 m : machine) (ev : list event),
    loop n w c m0 = (ev, Next m) -> tick w c m = (evb, Break mb) ->
    loop (S n + k) w c m0 = ((ev ++ evb)%list, Break mb).
Proof.
  induction n as [| n IH]; intros m0 m ev Hl Ht.
  - injection Hl as <- <-. cbn [loop Nat.add app]. rewrite Ht. reflexivity.
  - destruct (loop_next_step n w c m0 m ev Hl) as (ev1 & m1 & ev2 & T & L & ->).
    change (S (S n) + k)%nat with (S (S n + k)). cbn [loop]. rewrite T.
    rewrite (IH m1 m ev2 L Ht). rewrite app_assoc. reflexivity.
Qed.

(** A loop that ended by [break] went on up to the turn that broke. *)
Lemma loop_break_turn (w : world) (c : consts) (mb : machine) :
  forall (fuel : nat) (m0 : machine) (ev : list event),
    loop fuel w c m0 = (ev, Break mb) ->
    exists (n : nat) (m : machine) (ev1 evb : list event),
      (n < fuel)%nat /\ loop n w c m0 = (ev1, Next m)
      /\ tick w c m = (evb, Break mb) /\ ev = (ev1 ++ evb)%list.
Proof.
  induction fuel as [| k IH]; intros m0 ev Hl; [discriminate |].
  cbn [loop] in Hl. destruct (tick w c m0) as [ev1 o] eqn:Et.
  destruct o as [m1 | m1 | e].
  - destruct (loop k w c m1) as [ev2 o2] eqn:El. injection Hl as <- ->.
    destruct (IH m1 ev2 El) as (n & m & ea & eb & Hn & La & Tb & ->).
    exists (S n), m, (ev1 ++ ea)%list, eb. split; [lia |].
    split; [cbn [loop]; rewrite Et, La; reflexivity |].
    split; [exact Tb | apply app_assoc].
  - injection Hl as <- <-. exists O, m0, [], ev1.
    split; [lia |]. split; [reflexivity |]. split; [exact Et | reflexivity].
  - discriminate.
Qed.

(** The two ways a turn breaks: the change detection finds no track, or
    the presence client refuses the update; either way nothing is pushed
    in that turn. *)
Lemma tick_break_iff (w : world) (c : consts) (m : machine) :
  (exists ev mb, tick w c m = (ev, Break mb))
  <-> exists m1,
        poll w c m = Ok m1
        /\ ((changed m1 = true /\ path_truthy (song_path m1) = false)
            \/ (snd (detect m1) = false /\ timer (fst (detect m1)) = 0
                /\ exists u m3,
                     build_update w c (fst (detect m1)) = Ok (u, m3)
                     /\ update_ok w (n_update m3) = false)).
Proof.
  unfold tick. destruct (poll w c m) as [m1 | e].
  2:{ split; [intros (ev & mb & H); discriminate | intros (m1 & H & _); discriminate]. }
  split.
  - intros (ev & mb & H). exists m1. split; [reflexivity |].
    unfold detect in *. destruct (changed m1) eqn:Ec.
    + destruct (path_truthy (song_path m1)) eqn:Ep; cbn [negb fst snd timer] in *.
      * right. split; [reflexivity |]. split; [reflexivity |].
        cbn [Z.eqb] in H. unfold push in H.
        destruct (build_update w c _) as [[u m3] | e]; [| discriminate].
        destruct (update_ok w (n_update m3)) eqn:Eu.
        -- destruct (finish_tick_cases w
                       (Machine (timer m3) (song_path m3) (playing m3) (song_data m3)
                          (song_path_old m3) (playing_old m3) (play_time m3)
                          (n_probe m3) (S (n_update m3)) (n_time m3) (n_tick m3)))
             as [[_ E] | [_ (m' & E & _)]]; rewrite E in H; discriminate.
        -- exists u, m3. split; [reflexivity | exact Eu].
      * left. split; reflexivity.
    + right. cbn [fst snd] in *. split; [reflexivity |].
      destruct (timer m1 =? 0) eqn:Et.
      * split; [apply Z.eqb_eq; exact Et |]. unfold push in H.
        destruct (build_update w c m1) as [[u m3] | e]; [| discriminate].
        destruct (update_ok w (n_update m3)) eqn:Eu.
        -- destruct (finish_tick_cases w
                       (Machine (timer m3) (song_path m3) (playing m3) (song_data m3)
                          (song_path_old m3) (playing_old m3) (play_time m3)
                          (n_probe m3) (S (n_update m3)) (n_time m3) (n_tick m3)))
             as [[_ E] | [_ (m' & E & _)]]; rewrite E in H; discriminate.
        -- exists u, m3. split; [reflexivity | exact Eu].
      * destruct (finish_tick_cases w m1) as [[_ E] | [_ (m' & E & _)]];
          rewrite E in H; discriminate.
  - intros (m1' & [= <-] & [[Ec Ep] | (Es & Et & u & m3 & Eb & Eu)]).
    + unfold detect. rewrite Ec, Ep. cbn [negb]. eexists _, _. reflexivity.
    + destruct (detect m1) as [m2 stop]. cbn [fst snd] in *. subst stop.
      rewrite Et. cbn [Z.eqb]. unfold push. rewrite Eb, Eu.
      eexists _, _. reflexivity.
Qed.

(** C4 (amended).  [rpc.close()] is called exactly once, as the last
    action, when [main] runs to its end; and [main] runs to its end
    exactly when the loop is left by [break]: once a turn breaks, [main]
    closes the connection and returns, whatever turns were still to come,
    and a [main] that returned went through a turn that broke.  A turn
    breaks, without pushing, exactly when the change detection finds no
    track (the player is gone) or the presence client refuses the update
    (the link is lost).  When an exception leaves [main], among them the
    [SystemExit] of [sys.exit()] at start-up and of the SIGINT handler,
    [rpc.close()] is not called; nor is it while the loop goes on.  And a
    turn during whose sleep SIGINT arrives is never followed by another
    turn. *)
Theorem close_only_after_break :
  (forall (w : world) (cfg : config) (fuel : nat),
      match snd (main w cfg fuel) with
      | Returned =>
          count_closes (fst (main w cfg fuel)) = 1%nat
          /\ exists ev, fst (main w cfg fuel) = (ev ++ [EvClose])%list
      | Died _ => count_closes (fst (main w cfg fuel)) = O
      | Running _ => count_closes (fst (main w cfg fuel)) = O
      end)
  /\ (forall (w : world) (cfg : config) (n k : nat) (m mb : machine)
             (ev evb : list event),
         main w cfg n = (ev, Running m) ->
         tick w (prelude cfg) m = (evb, Break mb) ->
         main w cfg (S n + k) = ((ev ++ evb ++ [EvClose])%list, Returned))
  /\ (forall (w : world) (cfg : config) (fuel : nat),
         snd (main w cfg fuel) = Returned ->
         exists (n : nat) (m mb : machine) (ev : list event),
           (n < fuel)%nat /\ main w cfg n = (ev, Running m)
           /\ tick w (prelude cfg) m = ([], Break mb)
           /\ main w cfg fuel = ((ev ++ [EvClose])%list, Returned))
  /\ (forall (w : world) (c : consts) (m : machine),
         (exists ev mb, tick w c m = (ev, Break mb))
         <-> exists m1,
               poll w c m = Ok m1
               /\ ((changed m1 = true /\ path_truthy (song_path m1) = false)
                   \/ (snd (detect m1) = false /\ timer (fst (detect m1)) = 0
                       /\ exists u m3,
                            build_update w c (fst (detect m1)) = Ok (u, m3)
                            /\ update_ok w (n_update m3) = false)))
  /\ (forall (w : world) (c : consts) (m m' : machine),
         sigint w (n_tick m) = true -> snd (tick w c m) <> Next m').
Proof.
  split; [| split; [| split; [| split; [exact tick_break_iff | exact tick_interrupted]]]].
  - intros w cfg fuel.
    unfold main. destruct (cmus_remote w 0) as [output error].
    destruct (cmus_status _ output error) as [p | e]; [| reflexivity].
    destruct p as [[[sp pl] sd] |]; cbn [path_truthy negb]; [| reflexivity].
    destruct (Py.truthy sp); cbn [negb]; [| reflexivity].
    destruct (connect_ok w); cbn [negb]; [| reflexivity].
    match goal with
    | |- context [loop ?n ?w0 ?c ?m] =>
        pose proof (loop_no_close n w0 c m) as Hl;
        destruct (loop n w0 c m) as [ev o]
    end.
    cbn [fst] in Hl.
    destruct o as [m' | m' | e]; cbn [fst snd count_closes]; try exact Hl.
    split; [rewrite count_closes_app, Hl; reflexivity
           | exists (EvConnect :: ev); reflexivity].
  - intros w cfg n k m mb ev evb Hrun Ht. revert Hrun. rewrite !main_unfold.
    destruct (probe_at w (cfg_no_data cfg) 0) as [[[[sp pl] sd] |] | e]; try discriminate.
    destruct (negb (Py.truthy sp)); [discriminate |].
    destruct (negb (connect_ok w)); [discriminate |].
    cbv zeta. intros H.
    match type of H with
    | context [loop ?n0 ?w0 ?c ?m0] =>
        destruct (loop n0 w0 c m0) as [ev' o] eqn:El
    end.
    destruct o as [m1 | m1 | e]; try discriminate.
    injection H as <- <-.
    rewrite (loop_then_break w (prelude cfg) n k mb evb _ _ ev' El Ht).
    cbn [app]. rewrite <- app_assoc. reflexivity.
  - intros w cfg fuel. rewrite main_unfold.
    destruct (probe_at w (cfg_no_data cfg) 0) as [[[[sp pl] sd] |] | e] eqn:Ep;
      try discriminate.
    destruct (negb (Py.truthy sp)) eqn:Es; [discriminate |].
    destruct (negb (connect_ok w)) eqn:Eco; [discriminate |].
    cbv zeta.
    match goal with
    | |- context [loop ?n0 ?w0 ?c ?m0] =>
        destruct (loop n0 w0 c m0) as [ev' o] eqn:El
    end.
    destruct o as [m1 | mb | e]; try discriminate. intros _.
    destruct (loop_break_turn w (prelude cfg) mb fuel _ ev' El)
      as (n & m & ev1 & evb & Hn & L1 & Tb & ->).
    assert (Hevb : evb = []).
    { pose proof (tick_events w (prelude cfg) m) as He. rewrite Tb in He.
      cbn [fst] in He. destruct He as [He | (u & He)]; [exact He |].
      exfalso. subst evb. revert Tb. unfold tick.
      destruct (poll w (prelude cfg) m) as [a |]; [| discriminate].
      destruct (detect a) as [b stop]. destruct stop; [discriminate |].
      destruct (timer b =? 0).
      - unfold push. destruct (build_update w (prelude cfg) b) as [[u' b'] |];
          [| discriminate].
        destruct (update_ok w (n_update b')); [| discriminate].
        unfold finish_tick. destruct (sigint w _); discriminate.
      - unfold finish_tick. destruct (sigint w _); discriminate. }
    subst evb. exists n, m, mb, (EvConnect :: ev1).
    split; [exact Hn |]. split.
    + rewrite main_unfold, Ep, Es, Eco. cbv zeta. rewrite L1. reflexivity.
    + split; [exact Tb |]. rewrite app_nil_r. reflexivity.
Qed.

Lemma vanishing_world_forty :
  main vanishing_world defaults 40 = (forty_turns_trace, Running before_player_lost).
Proof. vm_compute. reflexivity. Qed.

Lemma close_only_after_break_witness :
  main vanishing_world defaults 50
  = ([EvConnect; EvUpdate (default_update "playing1"); EvClose], Returned)
  /\ main refusing_world defaults 7 = ([EvConnect; EvClose], Returned)
  /\ (exists (n : nat) (m mb : machine) (ev : list event),
        (n < 50)%nat /\ main vanishing_world defaults n = (ev, Running m)
        /\ tick vanishing_world (prelude defaults) m = ([], Break mb)
        /\ main vanishing_world defaults 50 = ((ev ++ [EvClose])%list, Returned))
  /\ snd (tick interrupted_world (prelude defaults)
            (Machine 3 (Some "/a") (Some true) (Some sample_info) (Some "/a") (Some true)
                     None 1 1 0 3))
     <> Next (Machine 4 (Some "/a") (Some true) (Some sample_info) (Some "/a") (Some true)
                      None 1 1 0 4).
Proof.
  destruct close_only_after_break as (_ & Hbreak & Hback & _ & Hint).
  split; [| split; [| split]].
  - refine (Hbreak vanishing_world defaults 40%nat 9%nat before_player_lost
              (Machine 0 None None None None None None 4 1 0 40)
              forty_turns_trace [] vanishing_world_forty _).
    vm_compute. reflexivity.
  - refine (Hbreak refusing_world defaults 0%nat 6%nat at_loop_start
              (Machine 0 (Some "/a/Artist - Title.mp3") (Some true)
                 (Some (SongInfo "Artist" "Unknown" "Title" "Unknown" "Unknown" "200" "10"))
                 (Some "/a/Artist - Title.mp3") (Some true) None 2 1 0 0)
              [EvConnect] [] _ _); vm_compute; reflexivity.
  - apply Hback. vm_compute. reflexivity.
  - exact (Hint interrupted_world (prelude defaults)
             (Machine 3 (Some "/a") (Some true) (Some sample_info) (Some "/a") (Some true)
                      None 1 1 0 3)
             (Machine 4 (Some "/a") (Some true) (Some sample_info) (Some "/a") (Some true)
                      None 1 1 0 4)
             eq_refl).
Defined.

(** C4, as first stated, fails: an interrupt during the fourth sleep ends
    the process with [SystemExit] and the connection was never closed. *)
Lemma sigint_skips_close :
  snd (main interrupted_world defaults 50) = Died SystemExit
  /\ count_closes (fst (main interrupted_world defaults 50)) = O.
Proof. split; vm_compute; reflexivity. Qed.

(** ** The push interval, for every configured value *)

Lemma prelude_with_interval (cfg : config) :
  5 <= cfg_interval cfg -> prelude (with_interval 5 cfg) = prelude cfg.
Proof.
  intros H. unfold prelude, rpc_interval, with_interval.
  cbn [cfg_interval cfg_timestamp cfg_song_time cfg_no_unknown cfg_large_image
       cfg_playing_image cfg_paused_image cfg_details_text cfg_state_text
       cfg_button_one cfg_button_two cfg_button_url_one cfg_button_url_two].
  rewrite (Z.min_r (cfg_interval cfg) 5 H). reflexivity.
Qed.

(** C8 (amended).  The loop pushes every [min(interval, 5)] seconds for
    every configured interval of at least one second: while the same
    track goes on, [N] turns hold as many updates as pushes that far
    apart give; and an interval of five or more behaves in every world
    as an interval of five does.  An interval of zero or less is not
    waited for: every turn pushes, ten times in a second.  (Such an
    interval is taken from the range in which the division by [0.1] is
    exact.) *)
Theorem rpc_interval_clamped :
  (forall (w : world) (cfg : config) (N : nat),
      5 <= cfg_interval cfg -> main w cfg N = main w (with_interval 5 cfg) N)
  /\ (forall (w : world) (cfg : config) (path : string) (pl : bool) (N : nat),
         steady w (cfg_no_data cfg) path pl -> path <> "" -> calm w ->
         connect_ok w = true -> has_small_images cfg ->
         1 <= cfg_interval cfg ->
         Z.of_nat (count_updates (fst (main w cfg N)))
         = expected_updates (Z.min (cfg_interval cfg) 5) N)
  /\ (forall (w : world) (cfg : config) (path : string) (pl : bool) (N : nat),
         steady w (cfg_no_data cfg) path pl -> path <> "" -> calm w ->
         connect_ok w = true -> has_small_images cfg ->
         least_exact_interval <= cfg_interval cfg <= 0 ->
         count_updates (fst (main w cfg N)) = N).
Proof.
  split; [| split].
  - intros w cfg N H. unfold main.
    rewrite (prelude_with_interval cfg H). reflexivity.
  - intros w cfg path pl N Hs Hp Hc Hco Hi Hiv.
    destruct (main_steady w cfg path pl Hs Hp Hc Hco Hi Hiv N) as (ev & m & E & Hcount).
    rewrite E. cbn [fst count_updates]. rewrite Hcount, prelude_update_rpc. reflexivity.
  - intros w cfg path pl N Hs Hp Hc Hco Hi Hiv.
    assert (HU : update_rpc (prelude cfg) <= 0) by (rewrite prelude_update_rpc; lia).
    pose proof (prelude_has_images cfg Hi) as Ha.
    rewrite main_unfold.
    destruct (Hs O) as (sd & -> & Hn).
    apply truthy_true in Hp. rewrite Hp, Hco. cbn [negb].
    rewrite <- prelude_no_data in Hs.
    set (c := prelude cfg) in *. cbv zeta.
    set (m := Machine 0 _ _ _ _ _ _ _ _ _ _).
    assert (Ht : tracking path pl m).
    { unfold tracking, m; cbn. repeat split. exists sd. split; [reflexivity | exact Hn]. }
    destruct (loop_flood w c path pl Hs Hc Ha HU N m Ht ltac:(cbn; lia))
      as (ev & m' & -> & Hcount).
    exact Hcount.
Qed.

Lemma steady_world_path : "/a/Artist - Title.mp3" <> "".
Proof. discriminate. Qed.

Lemma rpc_interval_clamped_witness :
  main steady_world defaults 101 = main steady_world (with_interval 5 defaults) 101
  /\ Z.of_nat (count_updates (fst (main steady_world defaults 101))) = 3
  /\ Z.of_nat (count_updates (fst (main steady_world (with_interval 2 defaults) 101))) = 6
  /\ count_updates (fst (main steady_world zero_interval 30)) = 30%nat.
Proof.
  destruct rpc_interval_clamped as (Hsame & Hpace & Hflood).
  split; [| split; [| split]].
  - apply Hsame. cbn. lia.
  - refine (Hpace steady_world defaults "/a/Artist - Title.mp3" true 101%nat
              steady_world_steady steady_world_path steady_world_calm eq_refl
              defaults_have_images _).
    cbn. lia.
  - refine (Hpace steady_world (with_interval 2 defaults) "/a/Artist - Title.mp3" true
              101%nat steady_world_steady steady_world_path steady_world_calm eq_refl
              defaults_have_images _).
    cbn. lia.
  - refine (Hflood steady_world zero_interval "/a/Artist - Title.mp3" true 30%nat
              steady_world_steady steady_world_path steady_world_calm eq_refl _ _).
    + split; discriminate.
    + unfold least_exact_interval. cbn. lia.
Defined.

(** C8, as first stated, fails for an interval of zero, and for one
    below zero: the smaller of the interval and five seconds is then no
    time to wait, thirty turns with pushes that far apart would hold no
    update, and the loop pushes in every one of them, a tenth of a second
    after the last. *)
Lemma zero_interval_pushes_every_turn :
  Z.min (cfg_interval zero_interval) 5 = 0
  /\ expected_updates (Z.min (cfg_interval zero_interval) 5) 30 = 0
  /\ Z.of_nat (count_updates (fst (main steady_world zero_interval 30))) = 30
  /\ Z.min (cfg_interval (with_interval (-3) defaults)) 5 = -3
  /\ expected_updates (Z.min (cfg_interval (with_interval (-3) defaults)) 5) 30 = 0
  /\ Z.of_nat (count_updates (fst (main steady_world (with_interval (-3) defaults) 30)))
     = 30.
Proof. repeat split; vm_compute; reflexivity. Qed.
